(** * Space weather dashboard: the parsers, the aggregator, the cache store
      and the freshness policy of [space_weather.py] and [app.py]

    The development embeds the Python functions as Rocq functions over a
    model of the values the code handles:

    - a decoded JSON document ([json]): None, booleans, integers, floats,
      strings, lists, and dicts with string keys; a dict is the list of its
      items in insertion order, as Python keeps it;
    - Python exceptions as data ([exn]); a function that can raise returns a
      [result]; a [try] body that assigns before it raises is a [stmt], a
      state-passing computation whose state survives the exception;
    - Python floats as an interface ([PyFloat]): the conversions [float(...)],
      [round(x, n)] and the comparisons with integers the code performs;
    - the cache file as text: [json.dump] with [indent=2] as an encoder,
      [json.load] as a scanner and a parser over its tokens, the file system
      as a map from paths to texts; the text of a float is an interface
      ([PyFloatText]) with the laws of [float.__repr__];
    - the routes /space and /space/refresh of [app.py] and the entry point
      of [space_weather.py] as statements over the files: what /space hands
      to its template, the body and the status of the refresh response.
      Rendering and logging are not part of the model.

    A Python [str] is a Rocq [string], one character per code point; the
    model covers the code points below 256. *)

From Stdlib Require Import ZArith NArith String Ascii List Bool Lia Sorted.
From Stdlib Require Import DecimalString DecimalN DecimalPos DecimalFacts.
From stdpp Require Import base option list strings.

Local Open Scope string_scope.
Local Open Scope list_scope.
Local Open Scope nat_scope.
Local Set Warnings "-register-all".

(* ================================================================== *)
(** ** Exceptions and fallible computations *)
(* ================================================================== *)

(** The exception classes that the code raises or names in an [except]
    clause.  None of them is a subclass of another one of the list. *)
Inductive exn : Type :=
  | TypeError
  | ValueError
  | IndexError
  | KeyError
  | AttributeError
  | OverflowError.

Inductive result (A : Type) : Type :=
  | Ok (a : A)
  | Raise (e : exn).
Arguments Ok {A} a.
Arguments Raise {A} e.

#[global] Instance result_ret : MRet result := fun A a => Ok a.
#[global] Instance result_bind : MBind result :=
  fun A B k m => match m with Ok a => k a | Raise e => Raise e end.
#[global] Instance result_fmap : FMap result :=
  fun A B f m => match m with Ok a => Ok (f a) | Raise e => Raise e end.

Definition returns {A} (m : result A) : bool :=
  match m with Ok _ => true | Raise _ => false end.

(** [except (TypeError, ValueError, IndexError)], the clause of every row
    loop of the parsers. *)
Definition row_handler (e : exn) : bool :=
  match e with
  | TypeError | ValueError | IndexError => true
  | KeyError | AttributeError | OverflowError => false
  end.

(** A statement over a mutable state [S]: it returns the state it leaves
    behind also when it raises. *)
Definition stmt (S A : Type) : Type := S -> S * result A.

Definition eval {S A} (m : result A) : stmt S A := fun s => (s, m).
Definition assign {S} (f : S -> S) : stmt S unit := fun s => (f s, Ok tt).

#[global] Instance stmt_ret {S} : MRet (stmt S) := fun A a s => (s, Ok a).
#[global] Instance stmt_bind {S} : MBind (stmt S) :=
  fun A B k m s =>
    match m s with
    | (s', Ok a) => k a s'
    | (s', Raise e) => (s', Raise e)
    end.

(** How the body of a [for] loop ends when it does not raise. *)
Inductive flow : Type := Next | Break.

(** [for x in xs: try: body except handler: continue].  An exception outside
    the handler's classes leaves the loop. *)
Fixpoint for_try {S A} (handler : exn -> bool) (body : A -> stmt S flow)
    (xs : list A) : stmt S unit :=
  fun s =>
    match xs with
    | [] => (s, Ok tt)
    | x :: rest =>
        match body x s with
        | (s', Ok Break) => (s', Ok tt)
        | (s', Ok Next) => for_try handler body rest s'
        | (s', Raise e) =>
            if handler e then for_try handler body rest s' else (s', Raise e)
        end
    end.

(* ================================================================== *)
(** ** Floats *)
(* ================================================================== *)

(** What the code asks of Python's floats.  [float_of_str s] is [float(s)]
    for a string ([None]: ValueError); [float_of_Z z] is [float(z)] for an
    integer ([None]: OverflowError, for an integer beyond the float range);
    [round_nd x n] is [round(x, n)], which returns a float and does not
    raise; [float_ge_Z x k] is [x >= k] and [float_gt_Z x k] is [x > k]
    for an integer [k]; [float_truthy x] is [bool(x)].  The laws are those
    of binary64: integers up to 2^53 convert exactly, and [>=] against
    integers is antitone in the integer (no integer is [<=] a NaN). *)
Class PyFloat : Type := {
  float : Type;
  float_of_str : string -> option float;
  float_of_Z : Z -> option float;
  round_nd : float -> Z -> float;
  float_ge_Z : float -> Z -> bool;
  float_gt_Z : float -> Z -> bool;
  float_truthy : float -> bool;
  float_of_Z_small : forall z,
    (Z.abs z <= 2 ^ 53)%Z -> is_Some (float_of_Z z);
  float_ge_Z_exact : forall z x k,
    (Z.abs z <= 2 ^ 53)%Z -> float_of_Z z = Some x ->
    float_ge_Z x k = (k <=? z)%Z;
  float_ge_Z_antitone : forall x k1 k2,
    (k1 <= k2)%Z -> float_ge_Z x k2 = true -> float_ge_Z x k1 = true;
}.

(* ================================================================== *)
(** ** Dicts *)
(* ================================================================== *)

(** A Python dict with string keys: its items in insertion order.  No key
    occurs twice in a dict that Python built ([dict_wf]). *)
Definition dict (V : Type) : Type := list (string * V).

Definition dict_keys {V} (d : dict V) : list string := fst <$> d.

Definition dict_wf {V} (d : dict V) : Prop := NoDup (dict_keys d).

Fixpoint dict_lookup {V} (d : dict V) (key : string) : option V :=
  match d with
  | [] => None
  | (k, v) :: rest => if String.eqb k key then Some v else dict_lookup rest key
  end.

(** [d[key] = v]: a key already there keeps its place. *)
Fixpoint dict_set {V} (key : string) (v : V) (d : dict V) : dict V :=
  match d with
  | [] => [(key, v)]
  | (k, w) :: rest =>
      if String.eqb k key then (k, v) :: rest
      else (k, w) :: dict_set key v rest
  end.

(** [d[key]]. *)
Definition getitem {V} (d : dict V) (key : string) : result V :=
  match dict_lookup d key with
  | Some v => Ok v
  | None => Raise KeyError
  end.

(* ================================================================== *)
(** ** JSON values and the Python operations on them *)
(* ================================================================== *)

Section Values.
Context `{PyFloat}.

(** What [resp.json()] and [json.load] return.  [JNull] is [None]. *)
Inductive json : Type :=
  | JNull
  | JBool (b : bool)
  | JInt (z : Z)
  | JFloat (x : float)
  | JStr (s : string)
  | JList (l : list json)
  | JDict (d : dict json).

(** [bool(v)], as [if v:] and [if not v:] compute it. *)
Definition truthy (v : json) : bool :=
  match v with
  | JNull => false
  | JBool b => b
  | JInt z => negb (z =? 0)%Z
  | JFloat x => float_truthy x
  | JStr s => negb (String.eqb s "")
  | JList l => match l with [] => false | _ => true end
  | JDict d => match d with [] => false | _ => true end
  end.

(** [float(v)]. *)
Definition py_float (v : json) : result float :=
  match v with
  | JFloat x => Ok x
  | JInt z =>
      match float_of_Z z with Some x => Ok x | None => Raise OverflowError end
  | JBool b =>
      match float_of_Z (if b then 1 else 0)%Z with
      | Some x => Ok x
      | None => Raise OverflowError
      end
  | JStr s =>
      match float_of_str s with Some x => Ok x | None => Raise ValueError end
  | JNull | JList _ | JDict _ => Raise TypeError
  end.

(** The characters of a string as one-character strings. *)
Fixpoint chars (s : string) : list string :=
  match s with
  | EmptyString => []
  | String c s' => String c EmptyString :: chars s'
  end.

(** [v[i]] for a non-negative integer literal [i].  A dict has string keys,
    so the lookup of an integer raises KeyError. *)
Definition subscript (v : json) (i : nat) : result json :=
  match v with
  | JList l =>
      match l !! i with Some x => Ok x | None => Raise IndexError end
  | JStr s =>
      match chars s !! i with
      | Some c => Ok (JStr c)
      | None => Raise IndexError
      end
  | JDict _ => Raise KeyError
  | JNull | JBool _ | JInt _ | JFloat _ => Raise TypeError
  end.

(** The elements that [for x in v] visits, for a list or a string. *)
Definition elements_of (v : json) : list json :=
  match v with
  | JList l => l
  | JStr s => JStr <$> chars s
  | _ => []
  end.

(** [v[n:]]: the elements of a list or string from position [n] on.  Other
    values cannot be sliced (a dict raises TypeError up to Python 3.11 and
    KeyError from 3.12; no handler of the code catches either there). *)
Definition slice_from (n : nat) (v : json) : result (list json) :=
  match v with
  | JList _ | JStr _ => Ok (drop n (elements_of v))
  | _ => Raise TypeError
  end.

(** [v[:n]]. *)
Definition slice_to (n : nat) (v : json) : result (list json) :=
  match v with
  | JList _ | JStr _ => Ok (take n (elements_of v))
  | _ => Raise TypeError
  end.

(** [v.get(key, default)]: only a dict has the method. *)
Definition dict_get (v : json) (key : string) (dflt : json) : result json :=
  match v with
  | JDict d => Ok (default dflt (dict_lookup d key))
  | _ => Raise AttributeError
  end.

End Values.

(* ================================================================== *)
(** ** Python's string methods, as [parse_alerts] uses them *)
(* ================================================================== *)

Definition code (c : ascii) : nat := nat_of_ascii c.

(** The characters [str.strip()] removes: those for which [str.isspace()]
    holds, among the code points below 256. *)
Definition is_space (c : ascii) : bool :=
  let n := code c in
  ((9 <=? n) && (n <=? 13)) || ((28 <=? n) && (n <=? 32))
  || (n =? 133) || (n =? 160).

(** The line boundaries of [str.splitlines()] other than the pair CR LF. *)
Definition is_linebreak (c : ascii) : bool :=
  let n := code c in
  ((10 <=? n) && (n <=? 13)) || ((28 <=? n) && (n <=? 30)) || (n =? 133).

Fixpoint lstrip (s : string) : string :=
  match s with
  | String c s' => if is_space c then lstrip s' else s
  | EmptyString => EmptyString
  end.

Definition rstrip (s : string) : string :=
  String.rev (lstrip (String.rev s)).

(** [s.strip()]. *)
Definition str_strip (s : string) : string := rstrip (lstrip s).

(** [s.splitlines()]: [cur] holds the characters of the line being read,
    last one first.  A line is closed by a boundary; what follows the last
    boundary is a line only if it is not empty. *)
Fixpoint splitlines_from (cur : string) (s : string) : list string :=
  match s with
  | EmptyString =>
      match cur with
      | EmptyString => []
      | _ => [String.rev cur]
      end
  | String c s' =>
      if is_linebreak c then
        match s' with
        | String c' s'' =>
            if (code c =? 13) && (code c' =? 10)
            then String.rev cur :: splitlines_from EmptyString s''
            else String.rev cur :: splitlines_from EmptyString s'
        | EmptyString => [String.rev cur]
        end
      else splitlines_from (String c cur) s'
  end.

Definition str_splitlines (s : string) : list string :=
  splitlines_from EmptyString s.

(** [line.startswith(kw)]. *)
Definition startswith (line kw : string) : bool := String.prefix kw line.

(** [any(line.startswith(kw) for kw in kws)]. *)
Definition startswith_any (line : string) (kws : list string) : bool :=
  existsb (startswith line) kws.

(** [s.replace(old, new)] for a non-empty [old]: every occurrence of [old],
    found from the left without overlap, becomes [new].  [skip] counts the
    characters of an occurrence still to pass over. *)
Fixpoint replace_from (old new : string) (skip : nat) (s : string) : string :=
  match s with
  | EmptyString => EmptyString
  | String c s' =>
      match skip with
      | S k => replace_from old new k s'
      | O =>
          if String.prefix old s
          then new +:+ replace_from old new (String.length old - 1) s'
          else String c (replace_from old new 0 s')
      end
  end.

Definition str_replace (s old new : string) : string :=
  replace_from old new 0 s.

(* ================================================================== *)
(** ** The parsers of [space_weather.py] *)
(* ================================================================== *)

Section Parsers.
Context `{PyFloat}.

(** *** Solar wind *)

(** One point of the trend chart: [{"time": ..., "speed": ...}]. *)
Record ts_point : Type := {
  ts_time : json;
  ts_speed : float;
}.

(** The dict [parse_solar_wind] returns.  A numeric field holds [None]
    until a row sets it; [sw_timestamp] holds whatever [row[0]] is. *)
Record solar_wind : Type := {
  sw_speed : option float;
  sw_density : option float;
  sw_bz : option float;
  sw_bt : option float;
  sw_timestamp : json;
  sw_timeseries : list ts_point;
}.

Definition solar_wind_init : solar_wind :=
  {| sw_speed := None; sw_density := None; sw_bz := None; sw_bt := None;
     sw_timestamp := JNull; sw_timeseries := [] |}.

Definition set_density (v : option float) (r : solar_wind) : solar_wind :=
  {| sw_speed := sw_speed r; sw_density := v; sw_bz := sw_bz r;
     sw_bt := sw_bt r; sw_timestamp := sw_timestamp r;
     sw_timeseries := sw_timeseries r |}.

Definition set_speed (v : option float) (r : solar_wind) : solar_wind :=
  {| sw_speed := v; sw_density := sw_density r; sw_bz := sw_bz r;
     sw_bt := sw_bt r; sw_timestamp := sw_timestamp r;
     sw_timeseries := sw_timeseries r |}.

Definition set_timestamp (v : json) (r : solar_wind) : solar_wind :=
  {| sw_speed := sw_speed r; sw_density := sw_density r; sw_bz := sw_bz r;
     sw_bt := sw_bt r; sw_timestamp := v;
     sw_timeseries := sw_timeseries r |}.

Definition set_bz (v : option float) (r : solar_wind) : solar_wind :=
  {| sw_speed := sw_speed r; sw_density := sw_density r; sw_bz := v;
     sw_bt := sw_bt r; sw_timestamp := sw_timestamp r;
     sw_timeseries := sw_timeseries r |}.

Definition set_bt (v : option float) (r : solar_wind) : solar_wind :=
  {| sw_speed := sw_speed r; sw_density := sw_density r; sw_bz := sw_bz r;
     sw_bt := v; sw_timestamp := sw_timestamp r;
     sw_timeseries := sw_timeseries r |}.

Definition set_timeseries (f : list ts_point -> list ts_point)
    (r : solar_wind) : solar_wind :=
  {| sw_speed := sw_speed r; sw_density := sw_density r; sw_bz := sw_bz r;
     sw_bt := sw_bt r; sw_timestamp := sw_timestamp r;
     sw_timeseries := f (sw_timeseries r) |}.

(** [float(row[i])]. *)
Definition float_at (row : json) (i : nat) : result float :=
  subscript row i ≫= py_float.

(** The [try] body of the latest-reading loop (lines 85-88): three
    assignments in a row, then [break]. *)
Definition latest_body (row : json) : stmt solar_wind flow :=
  d ← eval (float_at row 1);
  assign (set_density (Some (round_nd d 1)));;
  s ← eval (float_at row 2);
  assign (set_speed (Some (round_nd s 0)));;
  t ← eval (subscript row 0);
  assign (set_timestamp t);;
  mret Break.

(** The [try] body of the timeseries loop (lines 95-100). *)
Definition timeseries_body (row : json) : stmt solar_wind flow :=
  spd ← eval (float_at row 2);
  if float_gt_Z spd 0 then
    t ← eval (subscript row 0);
    assign (set_timeseries
              (fun ts => ts ++ [{| ts_time := t; ts_speed := round_nd spd 0 |}]));;
    mret Next
  else mret Next.

(** [l[::step]] for [step >= 1]: the elements at positions 0, step,
    2*step, ...; [skip] counts the elements to pass over before the next
    one that is kept. *)
Fixpoint stride_from {A} (step skip : nat) (l : list A) : list A :=
  match l with
  | [] => []
  | x :: l' =>
      match skip with
      | O => x :: stride_from step (step - 1) l'
      | S k => stride_from step k l'
      end
  end.

Definition stride {A} (step : nat) (l : list A) : list A :=
  stride_from step 0 l.

(** Lines 104-106. *)
Definition thin (ts : list ts_point) : list ts_point :=
  if 60 <? length ts
  then stride (Nat.max 1 (length ts / 60)) ts
  else ts.

(** The [try] body of the magnetic-field loop (lines 111-113). *)
Definition mag_body (row : json) : stmt solar_wind flow :=
  bz ← eval (float_at row 3);
  assign (set_bz (Some (round_nd bz 1)));;
  bt ← eval (float_at row 4);
  assign (set_bt (Some (round_nd bt 1)));;
  mret Break.

(** [if plasma_raw: ...] (lines 81-106). *)
Definition plasma_block (plasma_raw : json) : stmt solar_wind unit :=
  if truthy plasma_raw then
    rows ← eval (slice_from 1 plasma_raw);
    for_try row_handler latest_body (reverse rows);;
    rows' ← eval (slice_from 1 plasma_raw);
    for_try row_handler timeseries_body rows';;
    assign (set_timeseries thin)
  else mret tt.

(** [if mag_raw: ...] (lines 108-115). *)
Definition mag_block (mag_raw : json) : stmt solar_wind unit :=
  if truthy mag_raw then
    rows ← eval (slice_from 1 mag_raw);
    for_try row_handler mag_body (reverse rows)
  else mret tt.

(** What a function whose body is the statement [m] returns when it ends
    with [return result]. *)
Definition run {S A} (m : stmt S A) (init : S) : result S :=
  match m init with
  | (s, Ok _) => Ok s
  | (_, Raise e) => Raise e
  end.

Definition parse_solar_wind (plasma_raw mag_raw : json) : result solar_wind :=
  run (plasma_block plasma_raw;; mag_block mag_raw) solar_wind_init.

(** *** Kp index *)

Record kp_reading : Type := {
  kp_time : json;
  kp_value : float;
}.

Record kp_index : Type := {
  kp_current : option float;
  kp_history : list kp_reading;
}.

Definition kp_init : kp_index := {| kp_current := None; kp_history := [] |}.

(** The [try] body of lines 135-138.  The dict display evaluates [row[0]]
    before [float(row[1])]; the reading is appended when both succeed. *)
Definition kp_body (row : json) : stmt (list kp_reading) flow :=
  t ← eval (subscript row 0);
  k ← eval (float_at row 1);
  assign (fun readings => readings ++ [{| kp_time := t; kp_value := k |}]);;
  mret Next.

(** [l[-n:]] for [n >= 1]. *)
Definition last_n {A} (n : nat) (l : list A) : list A :=
  drop (length l - n) l.

Definition parse_kp (kp_raw : json) : result kp_index :=
  if negb (truthy kp_raw) then Ok kp_init
  else
    rows ← slice_from 1 kp_raw;
    readings ← run (for_try row_handler kp_body rows) [];
    match last readings with
    | Some r =>
        Ok {| kp_current := Some (kp_value r);
              kp_history := last_n 24 readings |}
    | None => Ok kp_init
    end.

(** *** Storm scales *)

Record scale_entry : Type := {
  scale : json;
  label : json;
}.

Definition scales_init : dict scale_entry :=
  [ ("G", {| scale := JStr "G0"; label := JStr "Quiet" |});
    ("S", {| scale := JStr "S0"; label := JStr "None" |});
    ("R", {| scale := JStr "R0"; label := JStr "None" |}) ].

(** The body of the loop of lines 164-168, for one [key]. *)
Definition scale_body (current : json) (key : string)
    (res : dict scale_entry) : result (dict scale_entry) :=
  entry ← dict_get current key (JDict []);
  sc ← dict_get entry "Scale" (JStr (key +:+ "0"));
  tx ← dict_get entry "Text" (JStr "None");
  mret (dict_set key {| scale := sc; label := tx |} res).

(** [for x in xs: body] with no handler: the first exception ends it. *)
Fixpoint for_each {S A} (body : A -> S -> result S) (xs : list A) (s : S)
    : result S :=
  match xs with
  | [] => Ok s
  | x :: rest => body x s ≫= for_each body rest
  end.

Definition parse_scales (scales_raw : json)
    : result (dict scale_entry) :=
  if negb (truthy scales_raw) then Ok scales_init
  else
    current ← dict_get scales_raw "0" (JDict []);
    for_each (scale_body current) ["G"; "S"; "R"] scales_init.

(** *** Alerts *)

Record alert : Type := {
  product_id : json;
  issue_time : json;
  headline : string;
  impacts : string;
}.

Definition headline_keywords : list string :=
  ["WARNING:"; "ALERT:"; "WATCH:"; "SUMMARY:"; "CONTINUED"].

Definition header_prefixes : list string :=
  ["Space Weather"; "Serial"; "Issue Time"; "NOAA"].

Definition impacts_prefix : string := "Potential Impacts:".

(** [bool(s)] for a string. *)
Definition nonempty (s : string) : bool := negb (String.eqb s "").

(** One turn of the loop of lines 206-214 over the pair
    [(headline, impacts)]. *)
Definition scan_line (st : string * string) (raw_line : string)
    : string * string :=
  let line := str_strip raw_line in
  let headline1 :=
    if negb (nonempty (fst st)) && startswith_any line headline_keywords
    then line else fst st in
  let impacts1 :=
    if startswith line impacts_prefix
    then str_strip (str_replace line impacts_prefix "")
    else snd st in
  (headline1, impacts1).

(** The fallback loop of lines 218-225: it stops at the first line it
    takes. *)
Fixpoint fallback_headline (lines : list string) (headline0 : string)
    : string :=
  match lines with
  | [] => headline0
  | raw_line :: rest =>
      let line := str_strip raw_line in
      if nonempty line && negb (startswith_any line header_prefixes)
      then line
      else fallback_headline rest headline0
  end.

(** [raw.splitlines()]: only a string has the method. *)
Definition py_splitlines (raw : json) : result (list string) :=
  match raw with
  | JStr s => Ok (str_splitlines s)
  | _ => Raise AttributeError
  end.

(** The body of the loop of lines 198-232 for one record: the alert that is
    appended.  [raw.splitlines()] is called a second time for the fallback
    loop; it yields the same lines, [lines] below. *)
Definition alert_of (item : json) : result alert :=
  raw ← dict_get item "message" (JStr "");
  pid ← dict_get item "product_id" (JStr "");
  itime ← dict_get item "issue_datetime" (JStr "");
  lines ← py_splitlines raw;
  let '(headline1, impacts1) := fold_left scan_line lines ("", "") in
  let headline2 :=
    if nonempty headline1 then headline1
    else fallback_headline lines headline1 in
  mret {| product_id := pid; issue_time := itime;
          headline := headline2; impacts := impacts1 |}.

Definition parse_alerts (alerts_raw : json) : result (list alert) :=
  if negb (truthy alerts_raw) then Ok []
  else
    items ← slice_to 5 alerts_raw;
    for_each (fun item alerts => a ← alert_of item; mret (alerts ++ [a]))
             items [].

(** *** Aurora visibility *)

Record aurora : Type := {
  au_label : string;
  au_latitude : option Z;
}.

(** The degree sign, code point 176. *)
Definition deg : string := String (ascii_of_nat 176) EmptyString.

Definition aurora_table : list (Z * string) :=
  [ (9%Z, "Equatorial regions (< 40" +:+ deg +:+ ")");
    (8%Z, "Mid-latitudes (< 45" +:+ deg +:+ ")");
    (7%Z, "Mid-latitudes (< 50" +:+ deg +:+ ")");
    (6%Z, "Mid-latitudes (< 55" +:+ deg +:+ ")");
    (5%Z, "Mid-latitudes (< 60" +:+ deg +:+ ")");
    (4%Z, "High latitudes (< 65" +:+ deg +:+ ")");
    (3%Z, "High latitudes (< 65" +:+ deg +:+ ")");
    (2%Z, "Sub-auroral zone (> 65" +:+ deg +:+ ")");
    (1%Z, "Polar regions only (> 70" +:+ deg +:+ ")");
    (0%Z, "Not visible") ].

(** The loop of lines 257-259 with its [return], and line 260 after it. *)
Fixpoint aurora_scan (kp : float) (table : list (Z * string)) : aurora :=
  match table with
  | [] => {| au_label := "Not visible"; au_latitude := None |}
  | (threshold, lbl) :: rest =>
      if float_ge_Z kp threshold
      then {| au_label := lbl; au_latitude := Some threshold |}
      else aurora_scan kp rest
  end.

Definition aurora_visibility (kp : option float) : aurora :=
  match kp with
  | None => {| au_label := "Unknown"; au_latitude := None |}
  | Some x => aurora_scan x aurora_table
  end.

End Parsers.

(* ================================================================== *)
(** ** The aggregator *)
(* ================================================================== *)

Section Aggregator.
Context `{PyFloat}.

(** The network: what [requests.get(url, timeout=...)] followed by
    [raise_for_status()] and [resp.json()] yields for a URL, [None] when one
    of them raises a [RequestException]. *)
Variable http_get : string -> option json.

(** The clock: [datetime.now(timezone.utc).isoformat()]. *)
Variable now_iso : string.

Definition ENDPOINTS : dict string :=
    [ ("plasma", "https://services.swpc.noaa.gov/products/solar-wind/plasma-2-hour.json");
      ("mag", "https://services.swpc.noaa.gov/products/solar-wind/mag-2-hour.json");
      ("kp", "https://services.swpc.noaa.gov/products/noaa-planetary-k-index.json");
      ("scales", "https://services.swpc.noaa.gov/products/noaa-scales.json");
      ("alerts", "https://services.swpc.noaa.gov/products/alerts.json") ].

Definition fetch_json (url : string) : json :=
  match http_get url with
  | Some v => v
  | None => JNull
  end.

Record payload : Type := {
  fetched_at : string;
  p_solar_wind : solar_wind;
  p_kp : kp_index;
  p_scales : dict scale_entry;
  p_aurora : aurora;
  p_alerts : list alert;
}.

(** The last statement before [return] logs [scales["G"]["scale"]] among
    other fields; [getitem] is that lookup. *)
Definition fetch_all : result payload :=
  plasma_raw ← fetch_json <$> getitem ENDPOINTS "plasma";
  mag_raw ← fetch_json <$> getitem ENDPOINTS "mag";
  kp_raw ← fetch_json <$> getitem ENDPOINTS "kp";
  scales_raw ← fetch_json <$> getitem ENDPOINTS "scales";
  alerts_raw ← fetch_json <$> getitem ENDPOINTS "alerts";
  solar_wind ← parse_solar_wind plasma_raw mag_raw;
  kp ← parse_kp kp_raw;
  scales ← parse_scales scales_raw;
  alerts ← parse_alerts alerts_raw;
  let aurora := aurora_visibility (kp_current kp) in
  let p := {| fetched_at := now_iso; p_solar_wind := solar_wind;
              p_kp := kp; p_scales := scales; p_aurora := aurora;
              p_alerts := alerts |} in
  _ ← getitem scales "G";
  mret p.

End Aggregator.

(* ================================================================== *)
(** ** The payload as the dict it is in Python *)
(* ================================================================== *)

Section Encoding.
Context `{PyFloat}.

Definition opt_float_json (o : option float) : json :=
  match o with Some x => JFloat x | None => JNull end.

Definition opt_int_json (o : option Z) : json :=
  match o with Some z => JInt z | None => JNull end.

Definition ts_point_json (p : ts_point) : json :=
  JDict [("time", ts_time p); ("speed", JFloat (ts_speed p))].

Definition solar_wind_json (r : solar_wind) : json :=
  JDict
    [ ("speed", opt_float_json (sw_speed r));
      ("density", opt_float_json (sw_density r));
      ("bz", opt_float_json (sw_bz r));
      ("bt", opt_float_json (sw_bt r));
      ("timestamp", sw_timestamp r);
      ("timeseries", JList (ts_point_json <$> sw_timeseries r)) ].

Definition kp_reading_json (r : kp_reading) : json :=
  JDict [("time", kp_time r); ("kp", JFloat (kp_value r))].

Definition kp_index_json (k : kp_index) : json :=
  JDict
    [ ("current", opt_float_json (kp_current k));
      ("history", JList (kp_reading_json <$> kp_history k)) ].

Definition scale_entry_json (e : scale_entry) : json :=
  JDict [("scale", scale e); ("label", label e)].

Definition aurora_json (a : aurora) : json :=
  JDict
    [ ("label", JStr (au_label a));
      ("latitude", opt_int_json (au_latitude a)) ].

Definition alert_json (a : alert) : json :=
  JDict
    [ ("product_id", product_id a);
      ("issue_time", issue_time a);
      ("headline", JStr (headline a));
      ("impacts", JStr (impacts a)) ].

(** The dict display of lines 281-288. *)
Definition payload_fields (p : payload) : dict json :=
    [ ("fetched_at", JStr (fetched_at p));
      ("solar_wind", solar_wind_json (p_solar_wind p));
      ("kp", kp_index_json (p_kp p));
      ("scales", JDict (prod_map id scale_entry_json <$> p_scales p));
      ("aurora", aurora_json (p_aurora p));
      ("alerts", JList (alert_json <$> p_alerts p)) ].

Definition payload_json (p : payload) : json := JDict (payload_fields p).

End Encoding.

(* ================================================================== *)
(** ** The freshness policy of [app.py] *)
(* ================================================================== *)

(** A [datetime]: naive (no UTC offset), or aware; an aware one is held as
    its instant, in microseconds since the epoch, UTC. *)
Inductive datetime : Type :=
  | Naive (us : Z)
  | Aware (utc_us : Z).

Section Freshness.
Context `{PyFloat}.

(** [datetime.fromisoformat] on a string; [None]: ValueError. *)
Variable fromisoformat : string -> option datetime.

(** [datetime.fromisoformat(v)]: anything but a string is a TypeError. *)
Definition py_fromisoformat (v : json) : result datetime :=
  match v with
  | JStr s =>
      match fromisoformat s with
      | Some d => Ok d
      | None => Raise ValueError
      end
  | _ => Raise TypeError
  end.

(** [v[key]] for a string [key]. *)
Definition item (v : json) (key : string) : result json :=
  match v with
  | JDict d => getitem d key
  | _ => Raise TypeError
  end.

(** [now - d] for the aware [now]: the microseconds of the timedelta.  An
    aware and a naive datetime cannot be subtracted. *)
Definition since (now : Z) (d : datetime) : result Z :=
  match d with
  | Aware t => Ok (now - t)%Z
  | Naive _ => Raise TypeError
  end.

(** [except (KeyError, ValueError)]. *)
Definition stale_handler (e : exn) : bool :=
  match e with
  | KeyError | ValueError => true
  | _ => false
  end.

(** [now] is [datetime.now(timezone.utc)], in microseconds since the epoch.
    [age.total_seconds() > max_age_minutes * 60] compares the age in
    seconds; on whole microseconds that is [age > max_age_minutes * 60 *
    10^6]. *)
Definition cache_is_stale (now : Z) (payload : json) (max_age_minutes : Z)
    : result bool :=
  let body :=
    v ← item payload "fetched_at";
    fetched ← py_fromisoformat v;
    age ← since now fetched;
    mret (max_age_minutes * 60 * 1000000 <? age)%Z in
  match body with
  | Raise e => if stale_handler e then Ok true else Raise e
  | Ok b => Ok b
  end.

(** The default of the parameter [max_age_minutes]. *)
Definition default_max_age : Z := 120.

End Freshness.

(* ================================================================== *)
(** ** A concrete float model for the examples *)
(* ================================================================== *)

(** Decimal fixed point: a number is the integer count of its millionths.
    [float(s)] reads a plain decimal literal (an optional minus sign,
    digits, and at most six digits after an optional point); [round]
    rounds half to even.  On such literals and away from ties it agrees
    with binary64 up to the representation.  [float(z)] of an integer
    raises OverflowError outside the range of binary64, as in Python. *)
Module Fixed.

Definition unit_scale : Z := 1000000.

Definition digit_of (c : ascii) : option Z :=
  let n := nat_of_ascii c in
  if (48 <=? n) && (n <=? 57) then Some (Z.of_nat (n - 48)) else None.

(** The digits after the point; [weight] is the value of the next one. *)
Fixpoint read_frac (s : string) (weight acc : Z) : option Z :=
  match s with
  | EmptyString => Some acc
  | String c s' =>
      match digit_of c with
      | Some d =>
          if (weight =? 0)%Z then None
          else read_frac s' (weight / 10)%Z (acc + d * weight)%Z
      | None => None
      end
  end.

(** The digits before the point; [seen] tells whether there was one. *)
Fixpoint read_int (s : string) (acc : Z) (seen : bool) : option Z :=
  match s with
  | EmptyString => if seen then Some (acc * unit_scale)%Z else None
  | String c s' =>
      if Ascii.eqb c "."%char then
        if seen then read_frac s' (unit_scale / 10)%Z (acc * unit_scale)%Z
        else None
      else
        match digit_of c with
        | Some d => read_int s' (10 * acc + d)%Z true
        | None => None
        end
  end.

Definition of_str (s : string) : option Z :=
  match s with
  | String c s' =>
      if Ascii.eqb c "-"%char then Z.opp <$> read_int s' 0%Z false
      else read_int s 0%Z false
  | EmptyString => None
  end.

(** The largest integer that [float] converts: from 2^1024 - 2^970 on,
    the nearest binary64 is infinite and [float] raises OverflowError. *)
Definition max_int : Z := (2 ^ 1024 - 2 ^ 970 - 1)%Z.

Definition of_Z (z : Z) : option Z :=
  if (Z.abs z <=? max_int)%Z then Some (z * unit_scale)%Z else None.

(** Round to [n] decimals, half to even. *)
Definition round (x n : Z) : Z :=
  if (6 <=? n)%Z then x
  else
    let u := (10 ^ (6 - n))%Z in
    let q := (x / u)%Z in
    let r := (x mod u)%Z in
    if (2 * r <? u)%Z then (q * u)%Z
    else if (u <? 2 * r)%Z then ((q + 1) * u)%Z
    else if Z.even q then (q * u)%Z else ((q + 1) * u)%Z.

Definition ge_Z (x k : Z) : bool := (k * unit_scale <=? x)%Z.
Definition gt_Z (x k : Z) : bool := (k * unit_scale <? x)%Z.
Definition nonzero (x : Z) : bool := negb (x =? 0)%Z.

Lemma of_Z_small (z : Z) : (Z.abs z <= 2 ^ 53)%Z -> is_Some (of_Z z).
Proof.
  intros Hz. unfold of_Z.
  assert (Hmax : (2 ^ 53 <= max_int)%Z) by (apply Z.leb_le; reflexivity).
  assert ((Z.abs z <=? max_int)%Z = true) as ->
    by (apply Z.leb_le; etransitivity; eassumption).
  eauto.
Qed.

Lemma ge_Z_exact (z x k : Z) :
  (Z.abs z <= 2 ^ 53)%Z -> of_Z z = Some x -> ge_Z x k = (k <=? z)%Z.
Proof.
  intros _. unfold of_Z.
  destruct (Z.abs z <=? max_int)%Z; [|discriminate].
  intros [= <-]. unfold ge_Z, unit_scale.
  destruct (Z.leb_spec k z); [apply Z.leb_le | apply Z.leb_gt]; lia.
Qed.

Lemma ge_Z_antitone (x k1 k2 : Z) :
  (k1 <= k2)%Z -> ge_Z x k2 = true -> ge_Z x k1 = true.
Proof.
  unfold ge_Z, unit_scale. intros Hk Hge.
  apply Z.leb_le in Hge. apply Z.leb_le. lia.
Qed.

Definition model : PyFloat :=
  {| float := Z;
     float_of_str := of_str;
     float_of_Z := of_Z;
     round_nd := round;
     float_ge_Z := ge_Z;
     float_gt_Z := gt_Z;
     float_truthy := nonzero;
     float_of_Z_small := of_Z_small;
     float_ge_Z_exact := ge_Z_exact;
     float_ge_Z_antitone := ge_Z_antitone |}.

End Fixed.

Example fixed_of_str_450_3 : Fixed.of_str "450.3" = Some 450300000%Z.
Proof. reflexivity. Qed.

Example fixed_of_str_neg : Fixed.of_str "-2.25" = Some (-2250000)%Z.
Proof. reflexivity. Qed.

Example fixed_of_str_bad : Fixed.of_str "n/a" = None.
Proof. reflexivity. Qed.

Example fixed_round_1 : Fixed.round 5260000 1 = 5300000%Z.
Proof. reflexivity. Qed.

Example fixed_round_0 : Fixed.round 450300000 0 = 450000000%Z.
Proof. reflexivity. Qed.

(* ================================================================== *)
(** ** A concrete timestamp parser for the examples *)
(* ================================================================== *)

(** [fromisoformat] on the form that [isoformat()] writes for the payload:
    YYYY-MM-DDTHH:MM:SS, then optionally a point and six digits, then
    optionally an offset +HH:MM or -HH:MM.  Without the offset the
    datetime is naive.  Other strings are rejected. *)
Module Iso.

Fixpoint read_digits (n : nat) (acc : Z) (s : string) : option (Z * string) :=
  match n with
  | O => Some (acc, s)
  | S k =>
      match s with
      | String c s' =>
          match Fixed.digit_of c with
          | Some d => read_digits k (10 * acc + d)%Z s'
          | None => None
          end
      | EmptyString => None
      end
  end.

Definition expect (c : ascii) (s : string) : option string :=
  match s with
  | String c' s' => if Ascii.eqb c c' then Some s' else None
  | EmptyString => None
  end.

Definition leap (y : Z) : bool :=
  ((y mod 4 =? 0) && negb (y mod 100 =? 0) || (y mod 400 =? 0))%Z.

Definition days_in_month (y m : Z) : Z :=
  if (m =? 2)%Z then (if leap y then 29 else 28)%Z
  else if ((m =? 4) || (m =? 6) || (m =? 9) || (m =? 11))%Z then 30%Z
  else 31%Z.

(** Days from 1970-01-01 to the civil date. *)
Definition days_from_civil (y m d : Z) : Z :=
  let y' := (if m <=? 2 then y - 1 else y)%Z in
  let era := (y' / 400)%Z in
  let yoe := (y' - era * 400)%Z in
  let mp := (if 2 <? m then m - 3 else m + 9)%Z in
  let doy := ((153 * mp + 2) / 5 + d - 1)%Z in
  let doe := (yoe * 365 + yoe / 4 - yoe / 100 + doy)%Z in
  (era * 146097 + doe - 719468)%Z.

Definition in_range (lo x hi : Z) : bool := ((lo <=? x) && (x <=? hi))%Z.

(** The offset after the seconds: nothing, or a sign and HH:MM. *)
Definition read_offset (s : string) : option (option Z) :=
  match s with
  | EmptyString => Some None
  | String c s' =>
      sign ← (if Ascii.eqb c "+"%char then Some 1%Z
              else if Ascii.eqb c "-"%char then Some (-1)%Z else None);
      '(oh, s1) ← read_digits 2 0 s';
      s2 ← expect ":"%char s1;
      '(om, s3) ← read_digits 2 0 s2;
      match s3 with
      | EmptyString =>
          if in_range 0 oh 23 && in_range 0 om 59
          then Some (Some (sign * (oh * 3600 + om * 60) * 1000000)%Z)
          else None
      | _ => None
      end
  end.

Definition fromisoformat (s : string) : option datetime :=
  '(y, s) ← read_digits 4 0 s;
  s ← expect "-"%char s;
  '(m, s) ← read_digits 2 0 s;
  s ← expect "-"%char s;
  '(d, s) ← read_digits 2 0 s;
  s ← expect "T"%char s;
  '(hh, s) ← read_digits 2 0 s;
  s ← expect ":"%char s;
  '(mi, s) ← read_digits 2 0 s;
  s ← expect ":"%char s;
  '(ss, s) ← read_digits 2 0 s;
  '(us, s) ← match expect "."%char s with
             | Some s' => read_digits 6 0 s'
             | None => Some (0%Z, s)
             end;
  offset ← read_offset s;
  if in_range 1 y 9999 && in_range 1 m 12 && in_range 1 d (days_in_month y m)
     && in_range 0 hh 23 && in_range 0 mi 59 && in_range 0 ss 59
  then
    let local :=
      ((days_from_civil y m d * 86400 + hh * 3600 + mi * 60 + ss) * 1000000
       + us)%Z in
    match offset with
    | None => Some (Naive local)
    | Some off => Some (Aware (local - off))
    end
  else None.

End Iso.

Example iso_epoch :
  Iso.fromisoformat "1970-01-01T00:00:00+00:00" = Some (Aware 0).
Proof. reflexivity. Qed.

Example iso_2000 :
  Iso.fromisoformat "2000-01-01T00:00:00.000000+00:00"
  = Some (Aware 946684800000000).
Proof. reflexivity. Qed.

Example iso_offset :
  Iso.fromisoformat "2026-02-19T03:05:00+01:00"
  = Iso.fromisoformat "2026-02-19T02:05:00+00:00".
Proof. reflexivity. Qed.

Example iso_naive :
  Iso.fromisoformat "1970-01-02T00:00:00" = Some (Naive 86400000000).
Proof. reflexivity. Qed.

Example iso_rejects : Iso.fromisoformat "yesterday" = None.
Proof. reflexivity. Qed.

(* ================================================================== *)
(** ** The shape of the upstream tables, and what the parsers keep *)
(* ================================================================== *)

Section Shapes.
Context `{PyFloat}.

(** A field that [float(...)] converts or rejects with TypeError or
    ValueError: anything but an integer beyond the float range. *)
Definition float_safe (v : json) : bool :=
  match v with
  | JInt z => match float_of_Z z with Some _ => true | None => false end
  | _ => true
  end.

(** A row in the documented format: a JSON array of such fields. *)
Definition is_row (row : json) : bool :=
  match row with
  | JList fields => forallb float_safe fields
  | _ => false
  end.

(** An endpoint's response for a table: absent ([None]), or an array of
    rows. *)
Definition is_table (v : json) : bool :=
  match v with
  | JNull => true
  | JList rows => forallb is_row rows
  | _ => false
  end.

(** The data rows of a table: all but the header row. *)
Definition data_rows (v : json) : list json := drop 1 (elements_of v).

(** A Kp row is readable when it has a first field and its second field
    converts to a float. *)
Definition kp_reading_of (row : json) : option kp_reading :=
  match subscript row 0, float_at row 1 with
  | Ok t, Ok k => Some {| kp_time := t; kp_value := k |}
  | _, _ => None
  end.

(** The result for a list of readings: the Kp of the last one, and the
    last 24 of them. *)
Definition kp_index_of (readings : list kp_reading) : kp_index :=
  match last readings with
  | Some r =>
      {| kp_current := Some (kp_value r); kp_history := last_n 24 readings |}
  | None => kp_init
  end.

(** A plasma row counts for the trend chart when its speed converts to a
    float that is greater than zero. *)
Definition ts_point_of (row : json) : option ts_point :=
  match float_at row 2, subscript row 0 with
  | Ok spd, Ok t =>
      if float_gt_Z spd 0
      then Some {| ts_time := t; ts_speed := round_nd spd 0 |}
      else None
  | _, _ => None
  end.

(** Density and speed of a plasma row both convert. *)
Definition plasma_valid (row : json) : bool :=
  returns (float_at row 1) && returns (float_at row 2).

(** Bz and Bt of a magnetic-field row both convert. *)
Definition mag_valid (row : json) : bool :=
  returns (float_at row 3) && returns (float_at row 4).

(** What a plasma row without both values leaves behind in the
    latest-reading loop: its density, when that one converts. *)
Definition density_step (r : solar_wind) (row : json) : solar_wind :=
  match float_at row 1 with
  | Ok d => set_density (Some (round_nd d 1)) r
  | Raise _ => r
  end.

(** The same for bz in the magnetic-field loop. *)
Definition bz_step (r : solar_wind) (row : json) : solar_wind :=
  match float_at row 3 with
  | Ok bz => set_bz (Some (round_nd bz 1)) r
  | Raise _ => r
  end.

End Shapes.

(* ================================================================== *)
(** ** The shape of the other responses, and what their parsers keep *)
(* ================================================================== *)

Section RecordShapes.
Context `{PyFloat}.

(** A record of the alerts feed: a dict whose message, when it has one, is
    a string. *)
Definition is_alert_record (item : json) : bool :=
  match item with
  | JDict d =>
      match dict_lookup d "message" with
      | None | Some (JStr _) => true
      | Some _ => false
      end
  | _ => false
  end.

(** The alerts response: absent, or an array whose first five elements are
    such records. *)
Definition is_alerts (v : json) : bool :=
  match v with
  | JNull => true
  | JList items => forallb is_alert_record (take 5 items)
  | _ => false
  end.

(** The text of a record's message, empty when it has none. *)
Definition message_of (item : json) : string :=
  match item with
  | JDict d =>
      match dict_lookup d "message" with
      | Some (JStr s) => s
      | _ => ""
      end
  | _ => ""
  end.

(** A field of a record, the empty string when it is missing. *)
Definition field_of (item : json) (key : string) : json :=
  match item with
  | JDict d => default (JStr "") (dict_lookup d key)
  | _ => JStr ""
  end.

(** The stripped lines of a message. *)
Definition stripped_lines (message : string) : list string :=
  str_strip <$> str_splitlines message.

Definition is_keyword_line (line : string) : bool :=
  startswith_any line headline_keywords.

Definition is_plain_line (line : string) : bool :=
  nonempty line && negb (startswith_any line header_prefixes).

Definition is_impacts_line (line : string) : bool :=
  startswith line impacts_prefix.

(** The headline as the specification words it: the first keyword line,
    else the first non-empty line that is no header line, else empty. *)
Definition headline_of (message : string) : string :=
  match find is_keyword_line (stripped_lines message) with
  | Some line => line
  | None => default "" (find is_plain_line (stripped_lines message))
  end.

(** [s[n:]] for a string. *)
Fixpoint str_drop (n : nat) (s : string) : string :=
  match n, s with
  | S k, String _ s' => str_drop k s'
  | _, _ => s
  end.

(** The impacts as the specification words them: from the first line that
    begins with the prefix, the prefix taken off. *)
Definition claimed_impacts_of (message : string) : string :=
  match find is_impacts_line (stripped_lines message) with
  | Some line => str_strip (str_drop (String.length impacts_prefix) line)
  | None => ""
  end.

(** The impacts as the loop leaves them: from the last line that begins
    with the prefix, every occurrence of the prefix text removed. *)
Definition impacts_of (message : string) : string :=
  match last (filter (fun line => is_impacts_line line = true)
                (stripped_lines message)) with
  | Some line => str_strip (str_replace line impacts_prefix "")
  | None => ""
  end.

Definition alert_summary (item : json) : alert :=
  {| product_id := field_of item "product_id";
     issue_time := field_of item "issue_datetime";
     headline := headline_of (message_of item);
     impacts := impacts_of (message_of item) |}.


(** What [.get(key, {})] may find for the chain of lookups to go on:
    nothing, or a dict. *)
Definition is_entry (o : option json) : bool :=
  match o with
  | None | Some (JDict _) => true
  | Some _ => false
  end.

(** The scales response: absent, or a dict whose "0" entry and whose G, S
    and R entries inside it are dicts where they exist. *)
Definition is_scales (v : json) : bool :=
  match v with
  | JNull => true
  | JDict d =>
      match dict_lookup d "0" with
      | None => true
      | Some (JDict current) =>
          forallb (fun key => is_entry (dict_lookup current key)) ["G"; "S"; "R"]
      | Some _ => false
      end
  | _ => false
  end.

(** The "0" entry of a response, empty when there is none. *)
Definition current_scales (v : json) : dict json :=
  match v with
  | JDict d =>
      match dict_lookup d "0" with
      | Some (JDict current) => current
      | _ => []
      end
  | _ => []
  end.

(** The (Scale, Text) pair of [key] in the "0" entry, with the defaults
    for what is missing. *)
Definition scale_entry_of (current : dict json) (key : string) : scale_entry :=
  let entry :=
    match dict_lookup current key with
    | Some (JDict e) => e
    | _ => []
    end in
  {| scale := default (JStr (key +:+ "0")) (dict_lookup entry "Scale");
     label := default (JStr "None") (dict_lookup entry "Text") |}.

Definition scale_keys : list string := ["G"; "S"; "R"].

(** The dict [parse_scales] returns for a response of that shape. *)
Definition scales_of (v : json) : dict scale_entry :=
  if truthy v
  then (fun key => (key, scale_entry_of (current_scales v) key)) <$> scale_keys
  else scales_init.


(** What the mapper returns below every threshold. *)
Definition not_visible : aurora :=
  {| au_label := "Not visible"; au_latitude := None |}.

(** The order of the table's rows: by threshold, downwards. *)
Definition above (a b : Z * string) : Prop := (b.1 < a.1)%Z.

End RecordShapes.

(* ================================================================== *)
(** ** The responses of a fetch cycle *)
(* ================================================================== *)

Section Responses.
Context `{PyFloat}.

Variable http_get : string -> option json.

(** [ENDPOINTS[name]] for one of the five names. *)
Definition endpoint (name : string) : string :=
  default "" (dict_lookup ENDPOINTS name).

(** What [fetch_json(ENDPOINTS[name])] returns. *)
Definition response (name : string) : json :=
  fetch_json http_get (endpoint name).



(** A number of minutes as microseconds. *)
Definition minutes (n : Z) : Z := (n * 60 * 1000000)%Z.

End Responses.

(* ================================================================== *)
(** ** The cache file: the JSON text that [json.dump] writes and
       [json.load] reads *)
(* ================================================================== *)

(** *** Number literals *)

Definition is_digit (c : ascii) : bool :=
  let n := nat_of_ascii c in (48 <=? n) && (n <=? 57).

(** [str(n)] for a natural number, and its inverse on digit strings. *)
Definition N_repr (n : N) : string := NilZero.string_of_uint (N.to_uint n).

Definition N_parse (s : string) : option N :=
  N.of_uint <$> NilZero.uint_of_string s.

(** [int.__repr__]. *)
Definition Z_repr (z : Z) : string :=
  match z with
  | Zneg p => String "-" (N_repr (Npos p))
  | _ => N_repr (Z.to_N z)
  end.

(** The longest prefix of digits, and what follows it. *)
Fixpoint span_digits (s : string) : string * string :=
  match s with
  | String c s' =>
      if is_digit c
      then let '(ds, rest) := span_digits s' in (String c ds, rest)
      else (EmptyString, s)
  | EmptyString => (EmptyString, EmptyString)
  end.

(** A digit string with no superfluous leading zero: a single 0, or
    digits that do not start with 0. *)
Definition canonical (ds : string) : bool :=
  match N_parse ds with
  | Some n => String.eqb (N_repr n) ds
  | None => false
  end.

Definition all_digits (s : string) : bool :=
  match span_digits s with
  | (String _ _, EmptyString) => true
  | _ => false
  end.

(** The exponent of a number literal: e or E, an optional sign, and one
    digit or more. *)
Definition is_exponent (s : string) : bool :=
  match s with
  | String c s' =>
      (Ascii.eqb c "e" || Ascii.eqb c "E")%char &&
      match s' with
      | String c' s'' =>
          if (Ascii.eqb c' "+" || Ascii.eqb c' "-")%char
          then all_digits s'' else all_digits s'
      | EmptyString => false
      end
  | EmptyString => false
  end.

(** The number grammar of the JSON scanner on a whole word: an optional
    minus sign, canonical digits, then optionally a point and one digit or
    more, then optionally an exponent.  [Some false] for an integer
    literal, [Some true] for a literal with a fraction or an exponent,
    [None] for anything else. *)
Definition number_grammar (w : string) : option bool :=
  let u := match w with
           | String c w' => if Ascii.eqb c "-"%char then w' else w
           | EmptyString => w
           end in
  let '(ip, r) := span_digits u in
  if canonical ip then
    match r with
    | EmptyString => Some false
    | String c r' =>
        if Ascii.eqb c "."%char then
          match span_digits r' with
          | (String _ _, EmptyString) => Some true
          | (String _ _, r'') => if is_exponent r'' then Some true else None
          | (EmptyString, _) => None
          end
        else if is_exponent r then Some true else None
    end
  else None.

(** [p] holds of every character of [s]. *)
Fixpoint all_chars (p : ascii -> bool) (s : string) : bool :=
  match s with
  | EmptyString => true
  | String c s' => p c && all_chars p s'
  end.

(** The characters of number literals. *)
Definition is_number_char (c : ascii) : bool :=
  is_digit c
  || (Ascii.eqb c "-" || Ascii.eqb c "+" || Ascii.eqb c "."
      || Ascii.eqb c "e" || Ascii.eqb c "E")%char.

(** The shape of a word as a number literal.  The grammar admits no other
    character than those of [is_number_char]. *)
Definition number_shape (w : string) : option bool :=
  if all_chars is_number_char w then number_grammar w else None.

Example shape_int : number_shape "-120" = Some false. Proof. reflexivity. Qed.
Example shape_float : number_shape "450.0" = Some true. Proof. reflexivity. Qed.
Example shape_exp : number_shape "1e+16" = Some true. Proof. reflexivity. Qed.
Example shape_exp2 : number_shape "1.5E-07" = Some true. Proof. reflexivity. Qed.
Example shape_bad1 : number_shape "007" = None. Proof. reflexivity. Qed.
Example shape_bad2 : number_shape "2." = None. Proof. reflexivity. Qed.
Example shape_bad3 : number_shape "-" = None. Proof. reflexivity. Qed.
Example shape_bad4 : number_shape "1e" = None. Proof. reflexivity. Qed.
Example shape_bad5 : number_shape ".5" = None. Proof. reflexivity. Qed.
Example shape_neg0 : number_shape "-0" = Some false. Proof. reflexivity. Qed.

(** What can follow the digits of a number: anything but a digit. *)
Definition stops_digits (rest : string) : bool :=
  match rest with
  | String c _ => negb (is_digit c)
  | EmptyString => true
  end.

(** [int(w)] on the integer literals of JSON. *)
Definition Z_parse (w : string) : option Z :=
  match w with
  | String c u =>
      if Ascii.eqb c "-"%char then (fun n => (- Z.of_N n)%Z) <$> N_parse u
      else Z.of_N <$> N_parse w
  | EmptyString => None
  end.

(** *** The scanner *)

Definition quote : ascii := ascii_of_nat 34.
Definition backslash : ascii := ascii_of_nat 92.

(** The whitespace of JSON: space, tab, line feed, carriage return. *)
Definition is_json_ws (c : ascii) : bool :=
  let n := nat_of_ascii c in (n =? 32) || (n =? 9) || (n =? 10) || (n =? 13).

Inductive token : Type :=
  | TOpenList | TCloseList | TOpenDict | TCloseDict | TComma | TColon
  | TStr (s : string)
  | TWord (w : string).

(** The structural characters. *)
Definition punct (c : ascii) : option token :=
  let n := nat_of_ascii c in
  if n =? 91 then Some TOpenList
  else if n =? 93 then Some TCloseList
  else if n =? 123 then Some TOpenDict
  else if n =? 125 then Some TCloseDict
  else if n =? 44 then Some TComma
  else if n =? 58 then Some TColon
  else None.

(** A character that ends a word: whitespace, a structural character or a
    quote. *)
Definition is_delimiter (c : ascii) : bool :=
  is_json_ws c
  || match punct c with Some _ => true | None => false end
  || Ascii.eqb c quote.

Definition hex_value (c : ascii) : option nat :=
  let n := nat_of_ascii c in
  if (48 <=? n) && (n <=? 57) then Some (n - 48)
  else if (97 <=? n) && (n <=? 102) then Some (n - 87)
  else if (65 <=? n) && (n <=? 70) then Some (n - 55)
  else None.

(** The one-character escapes of a string literal, after the backslash. *)
Definition unescape (c : ascii) : option ascii :=
  let n := nat_of_ascii c in
  if n =? 34 then Some quote
  else if n =? 92 then Some backslash
  else if n =? 47 then Some (ascii_of_nat 47)
  else if n =? 98 then Some (ascii_of_nat 8)
  else if n =? 102 then Some (ascii_of_nat 12)
  else if n =? 110 then Some (ascii_of_nat 10)
  else if n =? 114 then Some (ascii_of_nat 13)
  else if n =? 116 then Some (ascii_of_nat 9)
  else None.

(** Where the scanner is: between tokens, inside a word, inside a string
    literal, after a backslash, or in the hexadecimal digits of a \u
    escape.  [acc] holds the characters read so far, last one first. *)
Inductive lex_state : Type :=
  | LTop
  | LWord (acc : string)
  | LStr (acc : string)
  | LEsc (acc : string)
  | LHex (acc : string) (seen value : nat).

(** [rev_onto s acc]: the characters of [s] pushed on [acc] one by one. *)
Fixpoint rev_onto (s acc : string) : string :=
  match s with
  | EmptyString => acc
  | String c s' => rev_onto s' (String c acc)
  end.

Definition rev_string (acc : string) : string := rev_onto acc EmptyString.

(** The word that ends when the scanner leaves [st]. *)
Definition flush (st : lex_state) : list token :=
  match st with
  | LWord acc => [TWord (rev_string acc)]
  | _ => []
  end.

Fixpoint lex (st : lex_state) (s : string) : option (list token) :=
  match s with
  | EmptyString =>
      match st with
      | LTop | LWord _ => Some (flush st)
      | _ => None
      end
  | String c s' =>
      match st with
      | LTop | LWord _ =>
          if is_json_ws c then (flush st ++.) <$> lex LTop s'
          else
            match punct c with
            | Some t => (fun ts => flush st ++ t :: ts) <$> lex LTop s'
            | None =>
                if Ascii.eqb c quote
                then (flush st ++.) <$> lex (LStr EmptyString) s'
                else
                  lex (LWord (String c match st with
                                       | LWord acc => acc
                                       | _ => EmptyString
                                       end)) s'
            end
      | LStr acc =>
          if Ascii.eqb c quote then (TStr (rev_string acc) ::.) <$> lex LTop s'
          else if Ascii.eqb c backslash then lex (LEsc acc) s'
          else if nat_of_ascii c <? 32 then None
          else lex (LStr (String c acc)) s'
      | LEsc acc =>
          match unescape c with
          | Some c' => lex (LStr (String c' acc)) s'
          | None =>
              if Ascii.eqb c "u"%char then lex (LHex acc 0 0) s' else None
          end
      | LHex acc seen value =>
          match hex_value c with
          | None => None
          | Some d =>
              let value' := 16 * value + d in
              if seen =? 3 then
                if value' <? 256
                then lex (LStr (String (ascii_of_nat value') acc)) s'
                else None
              else lex (LHex acc (S seen) value') s'
          end
      end
  end.


(** *** Writing a string literal *)

Definition hex_char (d : nat) : ascii :=
  ascii_of_nat (if d <? 10 then 48 + d else 87 + d).

(** One character of a string as [json.dumps] writes it with
    [ensure_ascii]: the short escapes, the printable ASCII characters as
    they are, and \u00XX for the others. *)
Definition escape_char (c : ascii) : string :=
  let n := nat_of_ascii c in
  if n =? 34 then String backslash (String quote EmptyString)
  else if n =? 92 then String backslash (String backslash EmptyString)
  else if n =? 10 then String backslash "n"
  else if n =? 13 then String backslash "r"
  else if n =? 9 then String backslash "t"
  else if n =? 8 then String backslash "b"
  else if n =? 12 then String backslash "f"
  else if (32 <=? n) && (n <=? 126) then String c EmptyString
  else String backslash
         (String "u" (String "0" (String "0"
            (String (hex_char (n / 16))
               (String (hex_char (n mod 16)) EmptyString))))).

Fixpoint escape (s : string) : string :=
  match s with
  | EmptyString => EmptyString
  | String c s' => escape_char c +:+ escape s'
  end.

Definition encode_str (s : string) : string :=
  String quote (escape s +:+ String quote EmptyString).

(** *** Words *)

Definition is_word_char (c : ascii) : bool := negb (is_delimiter c).

(** What may follow a word: the end of the text or a delimiter. *)
Definition delimited (rest : string) : bool :=
  match rest with
  | String c _ => is_delimiter c
  | EmptyString => true
  end.

(** How [json.dumps] sorts a float: finite, or one of the three special
    values it writes as NaN, Infinity and -Infinity. *)
Inductive float_class : Type :=
  | Finite | NotANumber | PlusInfinity | MinusInfinity.

(** The text of floats.  [float_repr x] is [float.__repr__(x)];
    [float_kind x] sorts [x].  The laws are those of the shortest
    round-trip repr of a finite float: it is a number literal with a
    fraction or an exponent, and [float] reads it back to the same float. *)
Class PyFloatText `{PyFloat} : Type := {
  float_repr : float -> string;
  float_kind : float -> float_class;
  float_repr_shape : forall x,
    float_kind x = Finite -> number_shape (float_repr x) = Some true;
  float_repr_inverse : forall x,
    float_kind x = Finite -> float_of_str (float_repr x) = Some x;
}.

Section Codec.
Context `{PyFloatText}.

(** *** Decoding *)

(** The value of a word: a number literal, or one of the names. *)
Definition json_word (w : string) : option json :=
  match number_shape w with
  | Some false => JInt <$> Z_parse w
  | Some true => JFloat <$> float_of_str w
  | None =>
      if String.eqb w "null" then Some JNull
      else if String.eqb w "true" then Some (JBool true)
      else if String.eqb w "false" then Some (JBool false)
      else if String.eqb w "NaN" then JFloat <$> float_of_str "nan"
      else if String.eqb w "Infinity" then JFloat <$> float_of_str "inf"
      else if String.eqb w "-Infinity" then JFloat <$> float_of_str "-inf"
      else None
  end.

(** A container being read: a list with the items read so far, or a dict
    with its items and the key that waits for its value. *)
Inductive frame : Type :=
  | FList (items : list json)
  | FDict (items : dict json) (key : option string).

(** What the parser expects next. *)
Inductive mode : Type :=
  | MValue        (* a value *)
  | MFirstItem    (* after an opening bracket: a value or the closing one *)
  | MFirstKey     (* after an opening brace: a key or the closing one *)
  | MKey          (* after a comma in a dict: a key *)
  | MColon        (* after a key: the colon *)
  | MNext.        (* after a value: a comma or the closing character *)

Inductive pstate : Type :=
  | Running (stack : list frame) (m : mode)
  | Finished (v : json).

(** A complete value goes to the container on top of the stack, or is the
    document when the stack is empty.  A key read twice keeps its place and
    takes the later value, as in a Python dict. *)
Definition deliver (v : json) (stack : list frame) : option pstate :=
  match stack with
  | [] => Some (Finished v)
  | FList items :: st => Some (Running (FList (items ++ [v]) :: st) MNext)
  | FDict items (Some k) :: st =>
      Some (Running (FDict (dict_set k v items) None :: st) MNext)
  | FDict _ None :: _ => None
  end.

Definition step (st : pstate) (t : token) : option pstate :=
  match st with
  | Finished _ => None
  | Running stack m =>
      match m, t with
      | (MValue | MFirstItem), TWord w => v ← json_word w; deliver v stack
      | (MValue | MFirstItem), TStr s => deliver (JStr s) stack
      | (MValue | MFirstItem), TOpenList =>
          Some (Running (FList [] :: stack) MFirstItem)
      | (MValue | MFirstItem), TOpenDict =>
          Some (Running (FDict [] None :: stack) MFirstKey)
      | MFirstItem, TCloseList =>
          match stack with
          | FList [] :: st => deliver (JList []) st
          | _ => None
          end
      | (MFirstKey | MKey), TStr k =>
          match stack with
          | FDict items None :: st =>
              Some (Running (FDict items (Some k) :: st) MColon)
          | _ => None
          end
      | MFirstKey, TCloseDict =>
          match stack with
          | FDict [] None :: st => deliver (JDict []) st
          | _ => None
          end
      | MColon, TColon => Some (Running stack MValue)
      | MNext, TComma =>
          match stack with
          | FList _ :: _ => Some (Running stack MValue)
          | FDict _ None :: _ => Some (Running stack MKey)
          | _ => None
          end
      | MNext, TCloseList =>
          match stack with
          | FList items :: st => deliver (JList items) st
          | _ => None
          end
      | MNext, TCloseDict =>
          match stack with
          | FDict items None :: st => deliver (JDict items) st
          | _ => None
          end
      | _, _ => None
      end
  end.

Fixpoint run_tokens (st : pstate) (ts : list token) : option pstate :=
  match ts with
  | [] => Some st
  | t :: ts' => step st t ≫= fun st' => run_tokens st' ts'
  end.

Definition parse_tokens (ts : list token) : option json :=
  match run_tokens (Running [] MValue) ts with
  | Some (Finished v) => Some v
  | _ => None
  end.

(** [json.loads]: [None] stands for JSONDecodeError.  The model is total;
    CPython's decoder is not.  Left out: RecursionError on text nested
    deeper than the interpreter's recursion limit, ValueError on an integer
    literal longer than its digit limit, and the escapes \uXXXX of code
    points from 256 on, which CPython reads and the strings of the model
    cannot hold (such text is rejected here).  None of these occurs on the
    text that [json_dumps] writes for a document of the model within those
    limits; the theorems about [json_loads] are about that text. *)
Definition json_loads (text : string) : option json :=
  lex LTop text ≫= parse_tokens.

(** *** Encoding *)

Definition LF : string := String (ascii_of_nat 10) EmptyString.

Fixpoint spaces (n : nat) : string :=
  match n with
  | O => EmptyString
  | S k => String " " (spaces k)
  end.

(** A line feed and the indentation of [level], two spaces a level. *)
Definition newline_indent (level : nat) : string := LF +:+ spaces (2 * level).

Definition float_text (x : float) : string :=
  match float_kind x with
  | Finite => float_repr x
  | NotANumber => "NaN"
  | PlusInfinity => "Infinity"
  | MinusInfinity => "-Infinity"
  end.

(** The chunks of a container joined by [sep]. *)
Fixpoint str_join (sep : string) (chunks : list string) : string :=
  match chunks with
  | [] => EmptyString
  | [chunk] => chunk
  | chunk :: rest => chunk +:+ sep +:+ str_join sep rest
  end.

(** [json.dumps(v, indent=2)] at nesting [level]. *)
Fixpoint encode (level : nat) (v : json) : string :=
  match v with
  | JNull => "null"
  | JBool true => "true"
  | JBool false => "false"
  | JInt z => Z_repr z
  | JFloat x => float_text x
  | JStr s => encode_str s
  | JList [] => "[]"
  | JList items =>
      "[" +:+ newline_indent (S level)
      +:+ str_join ("," +:+ newline_indent (S level)) (map (encode (S level)) items)
      +:+ newline_indent level +:+ "]"
  | JDict [] => "{}"
  | JDict items =>
      "{" +:+ newline_indent (S level)
      +:+ str_join ("," +:+ newline_indent (S level))
            (map (fun kv => encode_str (fst kv) +:+ ": " +:+ encode (S level) (snd kv))
                 items)
      +:+ newline_indent level +:+ "}"
  end.

Definition json_dumps (v : json) : string := encode 0 v.

End Codec.

Section JsonInduction.
Context `{PyFloat}.
Variable P : json -> Prop.
Hypothesis Hnull : P JNull.
Hypothesis Hbool : forall b, P (JBool b).
Hypothesis Hint : forall z, P (JInt z).
Hypothesis Hfloat : forall x, P (JFloat x).
Hypothesis Hstr : forall s, P (JStr s).
Hypothesis Hlist : forall items, Forall P items -> P (JList items).
Hypothesis Hdict :
  forall items, Forall (fun kv => P (snd kv)) items -> P (JDict items).

(** Induction over a document, with the property known of the elements of
    a list and of the values of a dict. *)
Fixpoint json_nested_ind (v : json) : P v :=
  match v with
  | JNull => Hnull
  | JBool b => Hbool b
  | JInt z => Hint z
  | JFloat x => Hfloat x
  | JStr s => Hstr s
  | JList items =>
      Hlist items
        ((fix go (l : list json) : Forall P l :=
            match l with
            | [] => @List.Forall_nil _ P
            | x :: l' => @List.Forall_cons _ P x l' (json_nested_ind x) (go l')
            end) items)
  | JDict items =>
      Hdict items
        ((fix go (l : dict json) : Forall (fun kv => P (snd kv)) l :=
            match l with
            | [] => @List.Forall_nil _ (fun kv => P (snd kv))
            | kv :: l' =>
                @List.Forall_cons _ (fun kv => P (snd kv)) kv l'
                  (json_nested_ind (snd kv)) (go l')
            end) items)
  end.

End JsonInduction.

Section CodecDefs.
Context `{PyFloatText}.

(** The chunks of tokens of a container with [sep] between them. *)
Fixpoint sep_concat (sep : token) (chunks : list (list token)) : list token :=
  match chunks with
  | [] => []
  | [chunk] => chunk
  | chunk :: rest => chunk ++ sep :: sep_concat sep rest
  end.

(** The tokens of the text of a document. *)
Fixpoint tokens (v : json) : list token :=
  match v with
  | JNull => [TWord "null"]
  | JBool true => [TWord "true"]
  | JBool false => [TWord "false"]
  | JInt z => [TWord (Z_repr z)]
  | JFloat x => [TWord (float_text x)]
  | JStr s => [TStr s]
  | JList [] => [TOpenList; TCloseList]
  | JList items =>
      TOpenList :: sep_concat TComma (map tokens items) ++ [TCloseList]
  | JDict [] => [TOpenDict; TCloseDict]
  | JDict items =>
      TOpenDict ::
      sep_concat TComma
        (map (fun kv => TStr (fst kv) :: TColon :: tokens (snd kv)) items)
      ++ [TCloseDict]
  end.

(** A document that JSON text represents and that Python can hold: its
    floats are finite (NaN and the infinities have no JSON text, and NaN is
    not equal to itself) and no dict holds a key twice ([dict_wf], true of
    every Python dict). *)
Fixpoint storable (v : json) : bool :=
  match v with
  | JFloat x => match float_kind x with Finite => true | _ => false end
  | JList items => forallb storable items
  | JDict items =>
      bool_decide (NoDup (fst <$> items))
      && forallb (fun kv => storable (snd kv)) items
  | _ => true
  end.

End CodecDefs.

(** *** The cache store *)

Section Cache.
Context `{PyFloatText}.

(** [CACHE_FILE]: static/data/space_weather_cache.json under the directory
    of the module, which depends on where the program is installed. *)
Variable CACHE_FILE : string.

(** The text files of the file system, by path. *)
Definition files : Type := dict string.

(** [write_cache]: the file is opened for writing, so what it held is
    replaced by the text of the payload.  The directories are not part of
    the model ([mkdir] with [exist_ok] leaves the files as they are), nor is
    an I/O error, which the function does not catch. *)
Definition write_cache (payload : json) (fs : files) : files :=
  dict_set CACHE_FILE (json_dumps payload) fs.

(** [load_cache]: Python's None ([JNull]) when the file is missing or its
    text is rejected by [json.load].  A file is held as its decoded text:
    UnicodeDecodeError on bytes that do not decode, and the exceptions of
    [json.load] that [json_loads] leaves out, none of which the handler
    [except (json.JSONDecodeError, OSError)] catches, are outside the
    model.  What is proved of [load_cache] is stated on a cache that
    [write_cache] wrote, or under a hypothesis on what it returned. *)
Definition load_cache (fs : files) : json :=
  match dict_lookup fs CACHE_FILE with
  | None => JNull
  | Some text =>
      match json_loads text with
      | Some v => v
      | None => JNull
      end
  end.

End Cache.

(** *** The text of the floats of the concrete model *)

Module FixedText.
Import Fixed.

Definition digit_char (d : Z) : ascii := ascii_of_nat (48 + Z.to_nat d).

(** [n] decimals of [r], the most significant first. *)
Fixpoint write_frac (n : nat) (r : Z) : string :=
  match n with
  | O => EmptyString
  | S n' =>
      let w := (10 ^ Z.of_nat n')%Z in
      String (digit_char (r / w)) (write_frac n' (r mod w))
  end.

(** The text of a float of the model: sign, integer part, point and all
    six decimals.  (CPython writes the shortest text that reads back as the
    same float; the model's floats need at most these six.) *)
Definition repr (x : Z) : string :=
  let a := Z.abs x in
  (if (x <? 0)%Z then "-" else "")
  +:+ N_repr (Z.to_N (a / unit_scale))
  +:+ String "." (write_frac 6 (a mod unit_scale)).

Definition kind (x : Z) : float_class := Finite.

Example repr_450_3 : repr 450300000 = "450.300000". Proof. reflexivity. Qed.
Example repr_neg : repr (-2250000) = "-2.250000". Proof. reflexivity. Qed.
Example repr_small : repr (-300000) = "-0.300000". Proof. reflexivity. Qed.
Example repr_zero : repr 0 = "0.000000". Proof. reflexivity. Qed.

(** The value of a digit string read from the left, starting from [acc]. *)
Fixpoint horner (d : Decimal.uint) (acc : Z) : Z :=
  match d with
  | Decimal.Nil => acc
  | Decimal.D0 d => horner d (10 * acc)
  | Decimal.D1 d => horner d (10 * acc + 1)
  | Decimal.D2 d => horner d (10 * acc + 2)
  | Decimal.D3 d => horner d (10 * acc + 3)
  | Decimal.D4 d => horner d (10 * acc + 4)
  | Decimal.D5 d => horner d (10 * acc + 5)
  | Decimal.D6 d => horner d (10 * acc + 6)
  | Decimal.D7 d => horner d (10 * acc + 7)
  | Decimal.D8 d => horner d (10 * acc + 8)
  | Decimal.D9 d => horner d (10 * acc + 9)
  end%Z.

End FixedText.

(* ================================================================== *)
(** ** The routes of [app.py] and the entry point of [space_weather.py] *)
(* ================================================================== *)

Section StampShapes.
Context `{PyFloat}.
Variable fromisoformat : string -> option datetime.

(** A payload for which [cache_is_stale] gives an answer: a dict without
    fetched_at, or whose fetched_at is a string that [fromisoformat]
    rejects or reads as a datetime with a UTC offset. *)
Definition stamp_usable (payload : json) : bool :=
  match payload with
  | JDict d =>
      match dict_lookup d "fetched_at" with
      | None => true
      | Some (JStr s) =>
          match fromisoformat s with
          | Some (Naive _) => false
          | _ => true
          end
      | Some _ => false
      end
  | _ => false
  end.

End StampShapes.

Section Routes.
Context `{PyFloatText}.

(** [datetime.fromisoformat], as in the freshness policy. *)
Variable fromisoformat : string -> option datetime.

(** [str(e)], the message of an exception. *)
Variable str_of_exn : exn -> string.

(** The one-character string of U+2014 (an em dash), a code point that
    the strings of the model do not reach. *)
Variable em_dash : string.

Variable CACHE_FILE : string.
Variable http_get : string -> option json.

Definition unavailable : json :=
  JDict [("scale", JStr em_dash); ("label", JStr "Unavailable")].

(** The dict of lines 47-58 of [app.py]. *)
Definition fallback : json :=
  JDict
    [ ("fetched_at", JNull);
      ("solar_wind", JDict [ ("speed", JNull); ("density", JNull);
                             ("bz", JNull); ("bt", JNull) ]);
      ("kp", JDict [("current", JNull); ("history", JList [])]);
      ("scales", JDict [ ("G", unavailable); ("S", unavailable);
                         ("R", unavailable) ]);
      ("aurora", JDict [("label", JStr "Unavailable"); ("latitude", JNull)]);
      ("alerts", JList []) ].

(** [data = fetch_all()] then [write_cache(data)]: the two statements of
    both [try] bodies of [app.py] and of the entry point of
    [space_weather.py].  [now_iso] is the clock as [fetch_all] reads it. *)
Definition fetch_and_write (now_iso : string) : stmt files json :=
  p ← eval (fetch_all http_get now_iso);
  assign (write_cache CACHE_FILE (payload_json p));;
  mret (payload_json p).

(** The entry point of [space_weather.py] (lines 321-323). *)
Definition main (now_iso : string) : stmt files unit :=
  fetch_and_write now_iso;; mret tt.

(** [data is None or cache_is_stale(data)]; [now] is the clock as
    [cache_is_stale] reads it. *)
Definition needs_refresh (now : Z) (data : json) : result bool :=
  match data with
  | JNull => Ok true
  | _ => cache_is_stale fromisoformat now data default_max_age
  end.

(** The route /space (lines 30-60), up to the rendering: the value it hands
    to the template as [sw].  No handler surrounds the test of line 40; the
    [try] of lines 41-58 catches every exception of the model. *)
Definition space (now : Z) (now_iso : string) : stmt files json :=
  fun fs =>
    let data := load_cache CACHE_FILE fs in
    match needs_refresh now data with
    | Raise e => (fs, Raise e)
    | Ok false => (fs, Ok data)
    | Ok true =>
        match fetch_and_write now_iso fs with
        | (fs', Ok data') => (fs', Ok data')
        | (fs', Raise _) => (fs', Ok fallback)
        end
    end.

(** The [try] body of the route /space/refresh (lines 74-83). *)
Definition refresh_body (now_iso : string) : stmt files json :=
  data ← fetch_and_write now_iso;
  fetched ← eval (item data "fetched_at");
  sw ← eval (item data "solar_wind");
  speed ← eval (dict_get sw "speed" JNull);
  sw' ← eval (item data "solar_wind");
  bz ← eval (dict_get sw' "bz" JNull);
  kp ← eval (item data "kp");
  current ← eval (dict_get kp "current" JNull);
  scales ← eval (item data "scales");
  g ← eval (item scales "G");
  g_scale ← eval (dict_get g "scale" JNull);
  mret (JDict [ ("ok", JBool true); ("fetched_at", fetched);
                ("solar_wind_speed", speed); ("bz", bz);
                ("kp", current); ("g_scale", g_scale) ]).

(** The route /space/refresh (lines 66-86): the body of the response and
    its status. *)
Definition space_refresh (now_iso : string) (fs : files)
    : files * (json * Z) :=
  match refresh_body now_iso fs with
  | (fs', Ok body) => (fs', (body, 200%Z))
  | (fs', Raise e) =>
      (fs', (JDict [("ok", JBool false); ("error", JStr (str_of_exn e))],
             500%Z))
  end.

End Routes.

(* ================================================================== *)
(** ** The text of the cache file *)
(* ================================================================== *)

(** A line feed or a printable ASCII character. *)
Definition is_text_char (c : ascii) : bool :=
  let n := nat_of_ascii c in (n =? 10) || ((32 <=? n) && (n <=? 126)).

(* ================================================================== *)
(** ** Inputs for the examples *)
(* ================================================================== *)

Definition ex_plasma_header : @json Fixed.model :=
  JList [JStr "time_tag"; JStr "density"; JStr "speed"; JStr "temperature"].

Definition ex_plasma_row (t density speed : string) : @json Fixed.model :=
  JList [JStr t; JStr density; JStr speed; JStr "100000"].

(** A plasma table whose newest row has no values. *)
Definition ex_plasma : @json Fixed.model :=
  JList [ ex_plasma_header;
          ex_plasma_row "2026-02-19 00:00:00" "4.10" "398.2";
          ex_plasma_row "2026-02-19 00:01:00" "5.26" "450.3";
          JList [JStr "2026-02-19 00:02:00"; JNull; JNull; JNull] ].

(** Rows that never have both values. *)
Definition ex_plasma_partial : @json Fixed.model :=
  JList [ ex_plasma_header;
          JList [JStr "2026-02-19 00:00:00"; JStr "4.10"; JNull; JNull];
          JList [JStr "2026-02-19 00:01:00"; JNull; JStr "450.3"; JNull] ].

Definition ex_mag_partial : @json Fixed.model :=
  JList [ JList [JStr "time_tag"; JStr "bx"; JStr "by"; JStr "bz"; JStr "bt"];
          JList [JStr "2026-02-19 00:00:00"; JStr "1.0"; JStr "2.0"; JStr "-3.21"; JNull] ].

(** A Kp table with a row that does not convert and a short row. *)
Definition ex_kp : @json Fixed.model :=
  JList [ JList [JStr "time_tag"; JStr "Kp"];
          JList [JStr "2026-02-19 00:00:00"; JStr "3.33"];
          JList [JStr "2026-02-19 03:00:00"; JNull];
          JList [JStr "2026-02-19 06:00:00"; JStr "4.00"];
          JList [JStr "2026-02-19 09:00:00"] ].

(** An alert whose bulletin has two impacts lines. *)
Definition ex_message : string :=
  "Space Weather Message Code: WARK04" +:+ LF +:+
  "Serial Number: 5262" +:+ LF +:+
  "Issue Time: 2026 Feb 19 0205 UTC" +:+ LF +:+ LF +:+
  "WARNING: Geomagnetic K-index of 4 expected" +:+ LF +:+
  "Potential Impacts: Area of impact primarily poleward of 65 degrees." +:+ LF +:+
  "Potential Impacts: Weak power grid fluctuations can occur.".

Definition ex_alerts : @json Fixed.model :=
  JList [ JDict [ ("product_id", JStr "K04W");
                  ("issue_datetime", JStr "2026-02-19 02:05:12.113");
                  ("message", JStr ex_message) ] ].

Definition ex_scales : @json Fixed.model :=
  JDict [ ("0", JDict [ ("DateStamp", JStr "2026-02-19");
                        ("G", JDict [("Scale", JStr "2"); ("Text", JStr "moderate")]);
                        ("S", JDict [("Scale", JNull)]) ]);
          ("1", JDict []) ].

(** The freshness policy on timestamps the aggregator writes. *)
Definition ex_now : Z := 1771466700000000.

(** The aggregator with the plasma and Kp endpoints up and the others
    down. *)
Definition ex_http (url : string) : option (@json Fixed.model) :=
  if String.eqb url "https://services.swpc.noaa.gov/products/solar-wind/plasma-2-hour.json"
  then Some ex_plasma
  else if String.eqb url "https://services.swpc.noaa.gov/products/noaa-planetary-k-index.json"
  then Some ex_kp
  else None.

(** Sixty-one valid rows after the header. *)
Definition ex_plasma_61 : @json Fixed.model :=
  JList (ex_plasma_header ::
         replicate 61 (ex_plasma_row "2026-02-19 00:00:00" "5.0" "400.0")).

(* ================================================================== *)
(** * Properties *)
(* ================================================================== *)

Ltac stmt_unfold :=
  unfold mbind, stmt_bind, eval, assign, mret, stmt_ret in *.

(** ** Loops over rows *)

Section RowLoops.
Context `{PyFloat}.

(** The outcome of a fallible step is one the row loops survive. *)
Definition handled {A} (m : result A) : Prop :=
  match m with
  | Ok _ => True
  | Raise e => row_handler e = true
  end.

Lemma subscript_handled (row : json) (i : nat) :
  is_row row = true -> handled (subscript row i).
Proof.
  destruct row; try discriminate. intros _. simpl.
  destruct (l !! i); simpl; auto.
Qed.

Lemma subscript_safe (fields : list json) (i : nat) (v : json) :
  forallb float_safe fields = true ->
  subscript (JList fields) i = Ok v -> float_safe v = true.
Proof.
  intros Hall. simpl. destruct (fields !! i) as [x|] eqn:Hx; [|discriminate].
  intros [= <-]. rewrite forallb_forall in Hall. apply Hall.
  apply list_elem_of_In. eapply list_elem_of_lookup_2; eauto.
Qed.

Lemma py_float_handled (v : json) :
  float_safe v = true -> handled (py_float v).
Proof.
  destruct v as [|b|z|x|s|l|d]; simpl; intros Hsafe; try reflexivity; try exact I.
  - destruct (float_of_Z_small (if b then 1 else 0)%Z) as [x ->];
      [destruct b; simpl; lia | exact I].
  - destruct (float_of_Z z); [exact I | discriminate].
  - destruct (float_of_str s); simpl; auto.
Qed.

Lemma float_at_handled (row : json) (i : nat) :
  is_row row = true -> handled (float_at row i).
Proof.
  intros Hrow. unfold float_at.
  pose proof (subscript_handled row i Hrow) as Hs.
  destruct (subscript row i) as [v|e] eqn:Hv; simpl; [|exact Hs].
  apply py_float_handled. destruct row; try discriminate.
  eapply subscript_safe; eauto.
Qed.

End RowLoops.

(** ** The Kp index parser *)

Section KpProofs.
Context `{PyFloat}.

Lemma kp_body_eq (row : json) (acc : list kp_reading) :
  kp_body row acc =
  match subscript row 0 with
  | Ok t => match float_at row 1 with
            | Ok k => (acc ++ [{| kp_time := t; kp_value := k |}], Ok Next)
            | Raise e => (acc, Raise e)
            end
  | Raise e => (acc, Raise e)
  end.
Proof.
  unfold kp_body. stmt_unfold.
  destruct (subscript row 0); [|reflexivity].
  destruct (float_at row 1); reflexivity.
Qed.

Lemma kp_loop (rows : list json) (acc : list kp_reading) :
  forallb is_row rows = true ->
  for_try row_handler kp_body rows acc = (acc ++ omap kp_reading_of rows, Ok tt).
Proof.
  revert acc. induction rows as [|row rows IH]; intros acc Hrows; simpl.
  - by rewrite app_nil_r.
  - apply andb_prop in Hrows as [Hrow Hrows].
    rewrite kp_body_eq. unfold kp_reading_of.
    pose proof (subscript_handled row 0 Hrow) as H0.
    pose proof (float_at_handled row 1 Hrow) as H1.
    destruct (subscript row 0) as [t|e0]; simpl in H0.
    + destruct (float_at row 1) as [k|e1]; simpl in H1.
      * rewrite IH by done. by rewrite <- app_assoc.
      * rewrite H1. by apply IH.
    + rewrite H0. by apply IH.
Qed.

Lemma last_n_length {A} (n : nat) (l : list A) : length (last_n n l) <= n.
Proof. unfold last_n. rewrite length_drop. lia. Qed.

Lemma last_n_suffix {A} (n : nat) (l : list A) : last_n n l `suffix_of` l.
Proof. unfold last_n. apply suffix_drop. Qed.

Lemma last_last_n {A} (n : nat) (l : list A) :
  0 < n -> last (last_n n l) = last l.
Proof.
  intros Hn. unfold last_n. rewrite !last_lookup, lookup_drop, length_drop.
  destruct (decide (length l = 0)) as [->%nil_length_inv|Hne]; [done|].
  f_equal. lia.
Qed.

(** What [parse_kp] builds from the readable readings. *)
Lemma parse_kp_readings (kp_raw : json) :
  is_table kp_raw = true ->
  parse_kp kp_raw = Ok (kp_index_of (omap kp_reading_of (data_rows kp_raw))).
Proof.
  intros Htab.
  destruct kp_raw as [| | | | |rows|]; try discriminate; [reflexivity|].
  destruct rows as [|hdr rows]; [reflexivity|].
  simpl in Htab. apply andb_prop in Htab as [_ Hrows].
  unfold parse_kp, data_rows, kp_index_of. simpl. unfold run. rewrite drop_0.
  rewrite kp_loop by done. simpl.
  by destruct (last (omap kp_reading_of rows)).
Qed.

(** X20.  On a Kp table of the documented shape (absent, or an array
    whose rows are arrays in which every integer converts to a float),
    [parse_kp] returns; its history is the last 24 of the readable
    readings, in their order, so it has at most 24 elements; rows of that
    shape that do not convert are left out one by one ([omap]); the current
    value is the Kp of the last readable reading, which is the last element
    of the history whenever the history is not empty. *)
Theorem parse_kp_history (kp_raw : json) :
  is_table kp_raw = true ->
  exists r, parse_kp kp_raw = Ok r /\
    let readings := omap kp_reading_of (data_rows kp_raw) in
    kp_history r = last_n 24 readings /\
    length (kp_history r) <= 24 /\
    kp_history r `suffix_of` readings /\
    kp_current r = kp_value <$> last readings /\
    (kp_history r <> [] -> kp_current r = kp_value <$> last (kp_history r)).
Proof.
  intros Htab. rewrite parse_kp_readings by done.
  eexists. split; [reflexivity|]. cbv zeta.
  generalize (omap kp_reading_of (data_rows kp_raw)). intros readings.
  unfold kp_index_of.
  destruct (last readings) as [x|] eqn:Hlast; simpl.
  - repeat split; auto using last_n_length, last_n_suffix.
    intros _. rewrite last_last_n by lia. by rewrite Hlast.
  - apply last_None in Hlast as ->. simpl. split; [done|]. split; [lia|].
    split; [done|]. split; [done|]. intros []; done.
Qed.

End KpProofs.

(** ** The solar wind parser *)

Section SolarWindProofs.
Context `{PyFloat}.

Lemma latest_body_eq (row : json) (r : solar_wind) :
  latest_body row r =
  match float_at row 1 with
  | Raise e => (r, Raise e)
  | Ok d =>
      let r1 := set_density (Some (round_nd d 1)) r in
      match float_at row 2 with
      | Raise e => (r1, Raise e)
      | Ok s =>
          let r2 := set_speed (Some (round_nd s 0)) r1 in
          match subscript row 0 with
          | Raise e => (r2, Raise e)
          | Ok t => (set_timestamp t r2, Ok Break)
          end
      end
  end.
Proof.
  unfold latest_body. stmt_unfold.
  destruct (float_at row 1); [|reflexivity].
  destruct (float_at row 2); [|reflexivity].
  destruct (subscript row 0); reflexivity.
Qed.

Lemma mag_body_eq (row : json) (r : solar_wind) :
  mag_body row r =
  match float_at row 3 with
  | Raise e => (r, Raise e)
  | Ok bz =>
      let r1 := set_bz (Some (round_nd bz 1)) r in
      match float_at row 4 with
      | Raise e => (r1, Raise e)
      | Ok bt => (set_bt (Some (round_nd bt 1)) r1, Ok Break)
      end
  end.
Proof.
  unfold mag_body. stmt_unfold.
  destruct (float_at row 3); [|reflexivity].
  destruct (float_at row 4); reflexivity.
Qed.

Lemma timeseries_body_eq (row : json) (r : solar_wind) :
  timeseries_body row r =
  match float_at row 2 with
  | Raise e => (r, Raise e)
  | Ok spd =>
      if float_gt_Z spd 0 then
        match subscript row 0 with
        | Raise e => (r, Raise e)
        | Ok t =>
            (set_timeseries
               (fun ts => ts ++ [{| ts_time := t; ts_speed := round_nd spd 0 |}]) r,
             Ok Next)
        end
      else (r, Ok Next)
  end.
Proof.
  unfold timeseries_body. stmt_unfold.
  destruct (float_at row 2) as [spd|]; [|reflexivity].
  destruct (float_gt_Z spd 0); [|reflexivity].
  destruct (subscript row 0); reflexivity.
Qed.

(** A row whose field [i] can be read has every field before it. *)
Lemma subscript_before (row : json) (i j : nat) :
  j <= i -> returns (subscript row i) = true -> returns (subscript row j) = true.
Proof.
  intros Hji. destruct row as [| | | |s|l|]; simpl; try discriminate.
  - destruct (chars s !! i) eqn:Hi; [|discriminate]. intros _.
    apply lookup_lt_Some in Hi.
    destruct (lookup_lt_is_Some_2 (chars s) j) as [c ->]; [lia|done].
  - destruct (l !! i) eqn:Hi; [|discriminate]. intros _.
    apply lookup_lt_Some in Hi.
    destruct (lookup_lt_is_Some_2 l j) as [c ->]; [lia|done].
Qed.

Lemma float_at_subscript (row : json) (i : nat) (x : float) :
  float_at row i = Ok x -> exists t, subscript row 0 = Ok t.
Proof.
  unfold float_at. intros Hx.
  assert (Hi : returns (subscript row i) = true).
  { destruct (subscript row i); [done|discriminate]. }
  apply (subscript_before row i 0) in Hi; [|lia].
  destruct (subscript row 0); [eauto|discriminate].
Qed.


Lemma density_step_eq (r : solar_wind) (row : json) :
  density_step r row =
  match float_at row 1 with
  | Ok d => set_density (Some (round_nd d 1)) r
  | Raise _ => r
  end.
Proof. reflexivity. Qed.

Lemma bz_step_eq (r : solar_wind) (row : json) :
  bz_step r row =
  match float_at row 3 with
  | Ok bz => set_bz (Some (round_nd bz 1)) r
  | Raise _ => r
  end.
Proof. reflexivity. Qed.

Lemma latest_loop_miss (rows : list json) (r : solar_wind) :
  forallb is_row rows = true ->
  forallb (fun row => negb (plasma_valid row)) rows = true ->
  for_try row_handler latest_body rows r = (foldl density_step r rows, Ok tt).
Proof.
  revert r. induction rows as [|row rows IH]; intros r Hrows Hinv; [done|].
  simpl in *. apply andb_prop in Hrows as [Hrow Hrows].
  apply andb_prop in Hinv as [Hbad Hinv].
  rewrite latest_body_eq, density_step_eq. unfold plasma_valid in *.
  pose proof (float_at_handled row 1 Hrow) as H1.
  pose proof (float_at_handled row 2 Hrow) as H2.
  destruct (float_at row 1) as [d|e1]; simpl in *.
  - destruct (float_at row 2) as [s|e2]; simpl in *; [discriminate|].
    rewrite H2. by apply IH.
  - rewrite H1. by apply IH.
Qed.

Lemma latest_loop_hit (before after : list json) (row : json)
    (d s : float) (t : json) (r : solar_wind) :
  forallb is_row before = true ->
  forallb (fun row => negb (plasma_valid row)) before = true ->
  float_at row 1 = Ok d -> float_at row 2 = Ok s -> subscript row 0 = Ok t ->
  for_try row_handler latest_body (before ++ row :: after) r =
    (set_timestamp t (set_speed (Some (round_nd s 0))
       (set_density (Some (round_nd d 1)) (foldl density_step r before))),
     Ok tt).
Proof.
  revert r. induction before as [|row' before IH]; intros r Hrows Hinv Hd Hs Ht.
  - simpl. rewrite latest_body_eq, Hd, Hs, Ht. reflexivity.
  - simpl in *. apply andb_prop in Hrows as [Hrow Hrows].
    apply andb_prop in Hinv as [Hbad Hinv].
    rewrite latest_body_eq, density_step_eq. unfold plasma_valid in *.
    pose proof (float_at_handled row' 1 Hrow) as H1.
    pose proof (float_at_handled row' 2 Hrow) as H2.
    destruct (float_at row' 1) as [d'|e1]; simpl in *.
    + destruct (float_at row' 2) as [s'|e2]; simpl in *; [discriminate|].
      rewrite H2. by apply IH.
    + rewrite H1. by apply IH.
Qed.

Lemma mag_loop_miss (rows : list json) (r : solar_wind) :
  forallb is_row rows = true ->
  forallb (fun row => negb (mag_valid row)) rows = true ->
  for_try row_handler mag_body rows r = (foldl bz_step r rows, Ok tt).
Proof.
  revert r. induction rows as [|row rows IH]; intros r Hrows Hinv; [done|].
  simpl in *. apply andb_prop in Hrows as [Hrow Hrows].
  apply andb_prop in Hinv as [Hbad Hinv].
  rewrite mag_body_eq, bz_step_eq. unfold mag_valid in *.
  pose proof (float_at_handled row 3 Hrow) as H1.
  pose proof (float_at_handled row 4 Hrow) as H2.
  destruct (float_at row 3) as [d|e1]; simpl in *.
  - destruct (float_at row 4) as [s|e2]; simpl in *; [discriminate|].
    rewrite H2. by apply IH.
  - rewrite H1. by apply IH.
Qed.

(** The magnetic-field loop returns on rows of the documented shape, and
    touches nothing but bz and bt. *)
Lemma mag_loop_frame (rows : list json) (r : solar_wind) :
  forallb is_row rows = true ->
  exists r', for_try row_handler mag_body rows r = (r', Ok tt) /\
    sw_speed r' = sw_speed r /\ sw_density r' = sw_density r /\
    sw_timestamp r' = sw_timestamp r /\ sw_timeseries r' = sw_timeseries r.
Proof.
  revert r. induction rows as [|row rows IH]; intros r Hrows.
  - exists r. done.
  - simpl in *. apply andb_prop in Hrows as [Hrow Hrows].
    rewrite mag_body_eq.
    pose proof (float_at_handled row 3 Hrow) as H1.
    pose proof (float_at_handled row 4 Hrow) as H2.
    destruct (float_at row 3) as [d|e1]; simpl in *.
    + destruct (float_at row 4) as [s|e2]; simpl in *.
      * eexists. split; [reflexivity|]. done.
      * rewrite H2. destruct (IH (set_bz (Some (round_nd d 1)) r) Hrows)
          as (r' & -> & ? & ? & ? & ?). exists r'. done.
    + rewrite H1. by apply IH.
Qed.

Lemma timeseries_loop (rows : list json) (r : solar_wind) :
  forallb is_row rows = true ->
  for_try row_handler timeseries_body rows r =
    (set_timeseries (fun ts => ts ++ omap ts_point_of rows) r, Ok tt).
Proof.
  revert r. induction rows as [|row rows IH]; intros r Hrows.
  - simpl. unfold set_timeseries. rewrite app_nil_r. by destruct r.
  - simpl in *. apply andb_prop in Hrows as [Hrow Hrows].
    rewrite timeseries_body_eq. unfold ts_point_of.
    pose proof (float_at_handled row 2 Hrow) as H2.
    pose proof (subscript_handled row 0 Hrow) as H0.
    destruct (float_at row 2) as [spd|e] eqn:Hspd; simpl in *.
    + destruct (float_at_subscript _ _ _ Hspd) as [t Ht]. rewrite Ht.
      destruct (float_gt_Z spd 0).
      * rewrite IH by done. unfold set_timeseries. simpl.
        by rewrite <- app_assoc.
      * by apply IH.
    + rewrite H2. by apply IH.
Qed.


Lemma latest_loop_frame (rows : list json) (r : solar_wind) :
  forallb is_row rows = true ->
  exists r', for_try row_handler latest_body rows r = (r', Ok tt) /\
    sw_bz r' = sw_bz r /\ sw_bt r' = sw_bt r /\
    sw_timeseries r' = sw_timeseries r.
Proof.
  revert r. induction rows as [|row rows IH]; intros r Hrows.
  - exists r. done.
  - simpl in *. apply andb_prop in Hrows as [Hrow Hrows].
    rewrite latest_body_eq.
    pose proof (float_at_handled row 1 Hrow) as H1.
    pose proof (float_at_handled row 2 Hrow) as H2.
    destruct (float_at row 1) as [d|e1]; simpl in *.
    + destruct (float_at row 2) as [s|e2] eqn:Hs; simpl in *.
      * destruct (float_at_subscript _ _ _ Hs) as [t ->].
        eexists. split; [reflexivity|]. done.
      * rewrite H2. destruct (IH (set_density (Some (round_nd d 1)) r) Hrows)
          as (r' & -> & ? & ? & ?). exists r'. done.
    + rewrite H1. by apply IH.
Qed.

Lemma is_table_rows (v : json) :
  is_table v = true -> forallb is_row (data_rows v) = true.
Proof.
  destruct v as [| | | | |rows|]; try discriminate; [done|].
  unfold data_rows. simpl. destruct rows as [|hdr rows]; [done|].
  simpl. rewrite drop_0. by intros [_ ?]%andb_prop.
Qed.

Lemma forallb_reverse {A} (p : A -> bool) (l : list A) :
  forallb p (reverse l) = forallb p l.
Proof.
  induction l as [|x l IH]; [done|].
  rewrite reverse_cons, forallb_app, IH. simpl. 
  destruct (p x), (forallb p l); done.
Qed.

(** The run of [parse_solar_wind] on tables: the latest-reading loop, the
    trend chart, then the magnetic-field loop, none of which raises. *)
Lemma parse_solar_wind_table (plasma_raw mag_raw : json) :
  is_table plasma_raw = true -> is_table mag_raw = true ->
  exists r1 r2,
    for_try row_handler latest_body (reverse (data_rows plasma_raw))
      solar_wind_init = (r1, Ok tt) /\
    for_try row_handler mag_body (reverse (data_rows mag_raw))
      (set_timeseries (fun _ => thin (omap ts_point_of (data_rows plasma_raw))) r1)
      = (r2, Ok tt) /\
    parse_solar_wind plasma_raw mag_raw = Ok r2.
Proof.
  intros Hp Hm.
  pose proof (is_table_rows _ Hp) as Hprows.
  pose proof (is_table_rows _ Hm) as Hmrows.
  destruct (latest_loop_frame (reverse (data_rows plasma_raw)) solar_wind_init)
    as (r1 & Hr1 & Hbz & Hbt & Hts); [by rewrite forallb_reverse|].
  destruct (mag_loop_frame (reverse (data_rows mag_raw))
    (set_timeseries (fun _ => thin (omap ts_point_of (data_rows plasma_raw))) r1))
    as (r2 & Hr2 & _); [by rewrite forallb_reverse|].
  exists r1, r2. split; [done|]. split; [done|].
  assert (Hplasma : plasma_block plasma_raw solar_wind_init =
    (set_timeseries (fun _ => thin (omap ts_point_of (data_rows plasma_raw))) r1,
     Ok tt)).
  { unfold plasma_block.
    destruct plasma_raw as [| | | | |rows|]; try discriminate.
    - simpl in *. injection Hr1 as <-. reflexivity.
    - destruct rows as [|hdr rows].
      + simpl in *. injection Hr1 as <-. reflexivity.
      + unfold data_rows in *. simpl in *. rewrite drop_0 in *.
        stmt_unfold. rewrite Hr1, timeseries_loop by done.
        unfold set_timeseries; simpl. rewrite Hts. reflexivity. }
  assert (Hmag : forall r, mag_block mag_raw r =
    for_try row_handler mag_body (reverse (data_rows mag_raw)) r).
  { intros r. unfold mag_block.
    destruct mag_raw as [| | | | |rows|]; try discriminate; [done|].
    destruct rows as [|hdr rows]; [done|].
    unfold data_rows. simpl. rewrite drop_0. reflexivity. }
  unfold parse_solar_wind, run. stmt_unfold.
  rewrite Hplasma, Hmag, Hr2. reflexivity.
Qed.


(** The trend chart of a table: the points of its valid rows in their
    order, thinned. *)
Lemma parse_solar_wind_timeseries (plasma_raw mag_raw : json) :
  is_table plasma_raw = true -> is_table mag_raw = true ->
  exists r, parse_solar_wind plasma_raw mag_raw = Ok r /\
    sw_timeseries r = thin (omap ts_point_of (data_rows plasma_raw)).
Proof.
  intros Hp Hm.
  destruct (parse_solar_wind_table _ _ Hp Hm) as (r1 & r2 & Hr1 & Hr2 & Hrun).
  exists r2. split; [exact Hrun|].
  destruct (mag_loop_frame (reverse (data_rows mag_raw))
    (set_timeseries (fun _ => thin (omap ts_point_of (data_rows plasma_raw))) r1))
    as (r2' & Hr2' & _ & _ & _ & Hts).
  { rewrite forallb_reverse. by apply is_table_rows. }
  rewrite Hr2 in Hr2'. injection Hr2' as <-. by rewrite Hts.
Qed.

Lemma density_scan (rows : list json) (r : solar_wind) :
  let r' := foldl density_step r rows in
  sw_speed r' = sw_speed r /\ sw_timestamp r' = sw_timestamp r /\
  ((sw_density r' = sw_density r /\
    forallb (fun row => negb (returns (float_at row 1))) rows = true) \/
   exists row d, row ∈ rows /\ float_at row 1 = Ok d /\
     sw_density r' = Some (round_nd d 1)).
Proof.
  revert r. induction rows as [|row rows IH]; intros r; simpl.
  - split; [done|]. split; [done|]. by left.
  - destruct (IH (density_step r row)) as (Hs & Ht & Hd).
    rewrite Hs, Ht. rewrite density_step_eq in *.
    destruct (float_at row 1) as [d|e] eqn:Hrow; simpl.
    + split; [done|]. split; [done|]. right.
      destruct Hd as [[Hd _]|(row' & d' & Hin & Hrow' & Hd)].
      * exists row, d. split; [apply list_elem_of_here|]. by rewrite Hd.
      * exists row', d'. split; [by apply list_elem_of_further|]. done.
    + split; [done|]. split; [done|].
      destruct Hd as [[Hd Hall]|(row' & d' & Hin & Hrow' & Hd)].
      * by left.
      * right. exists row', d'. split; [by apply list_elem_of_further|]. done.
Qed.

Lemma bz_scan (rows : list json) (r : solar_wind) :
  let r' := foldl bz_step r rows in
  sw_bt r' = sw_bt r /\
  ((sw_bz r' = sw_bz r /\
    forallb (fun row => negb (returns (float_at row 3))) rows = true) \/
   exists row bz, row ∈ rows /\ float_at row 3 = Ok bz /\
     sw_bz r' = Some (round_nd bz 1)).
Proof.
  revert r. induction rows as [|row rows IH]; intros r; simpl.
  - split; [done|]. by left.
  - destruct (IH (bz_step r row)) as (Ht & Hd).
    rewrite Ht. rewrite bz_step_eq in *.
    destruct (float_at row 3) as [d|e] eqn:Hrow; simpl.
    + split; [done|]. right.
      destruct Hd as [[Hd _]|(row' & d' & Hin & Hrow' & Hd)].
      * exists row, d. split; [apply list_elem_of_here|]. by rewrite Hd.
      * exists row', d'. split; [by apply list_elem_of_further|]. done.
    + split; [done|].
      destruct Hd as [[Hd Hall]|(row' & d' & Hin & Hrow' & Hd)].
      * by left.
      * right. exists row', d'. split; [by apply list_elem_of_further|]. done.
Qed.

Lemma forallb_existsb_false {A} (p : A -> bool) (l : list A) :
  forallb (fun x => negb (p x)) l = true -> existsb p l = true -> False.
Proof.
  induction l as [|x l IH]; simpl; [discriminate|].
  destruct (p x); simpl; [discriminate|]. exact IH.
Qed.

Lemma forallb_elem_of {A} (p : A -> bool) (l : list A) (x : A) :
  forallb p l = true -> x ∈ l -> p x = true.
Proof.
  rewrite forallb_forall. intros Hall Hin. apply Hall.
  by apply list_elem_of_In.
Qed.

(** X19.  On tables of the documented shape (absent, or an array whose
    rows are arrays in which every integer converts to a float), when
    [row] is the most recent data row whose density and speed both convert
    to floats (every row after it fails to give both), [parse_solar_wind]
    returns, and its density is that row's density rounded to 1 decimal,
    its speed that row's speed rounded to 0 decimals, and its timestamp
    that row's first field; the rows after it are skipped. *)
Theorem latest_reading_most_recent_valid
    (hdr : json) (older newer : list json) (row mag_raw : json)
    (d s : float) :
  is_table (JList (hdr :: older ++ row :: newer)) = true ->
  is_table mag_raw = true ->
  float_at row 1 = Ok d -> float_at row 2 = Ok s ->
  forallb (fun r => negb (plasma_valid r)) newer = true ->
  exists r,
    parse_solar_wind (JList (hdr :: older ++ row :: newer)) mag_raw = Ok r /\
    sw_density r = Some (round_nd d 1) /\
    sw_speed r = Some (round_nd s 0) /\
    subscript row 0 = Ok (sw_timestamp r).
Proof.
  intros Hp Hm Hd Hs Hnewer.
  destruct (parse_solar_wind_table _ _ Hp Hm) as (r1 & r2 & Hr1 & Hr2 & Hrun).
  exists r2. split; [exact Hrun|].
  destruct (float_at_subscript _ _ _ Hs) as [t Ht].
  pose proof (is_table_rows _ Hp) as Hrows.
  unfold data_rows in Hr1, Hrows. simpl in Hr1, Hrows.
  rewrite drop_0 in Hr1, Hrows.
  rewrite forallb_app in Hrows. apply andb_prop in Hrows as [_ Hrows].
  simpl in Hrows. apply andb_prop in Hrows as [_ Hrows].
  rewrite reverse_app, reverse_cons, <- app_assoc in Hr1. simpl in Hr1.
  rewrite (latest_loop_hit _ _ _ d s t) in Hr1;
    [|by rewrite forallb_reverse|by rewrite forallb_reverse|done..].
  injection Hr1 as <-.
  destruct (mag_loop_frame (reverse (data_rows mag_raw))
    (set_timeseries
       (fun _ => thin (omap ts_point_of
                         (data_rows (JList (hdr :: older ++ row :: newer)))))
       (set_timestamp t (set_speed (Some (round_nd s 0))
          (set_density (Some (round_nd d 1))
             (foldl density_step solar_wind_init (reverse newer)))))))
    as (r2' & Hr2' & Hspeed & Hdens & Htime & _).
  { rewrite forallb_reverse. by apply is_table_rows. }
  rewrite Hr2 in Hr2'. injection Hr2' as <-.
  rewrite Hspeed, Hdens, Htime, Ht. done.
Qed.

(** X21.  The latest-reading loop is not atomic per row.  On tables of
    the documented shape (absent, or an array whose rows are arrays in
    which every integer converts to a float), when no data row of the
    plasma table has both density and speed convertible while some row has
    a convertible density, the result has speed None and timestamp None,
    and a density that is not None: it is the rounded density of a row
    whose speed did not convert.  The same holds for bz without bt in the
    magnetic-field loop. *)
Theorem latest_reading_partial_update (plasma_raw mag_raw : json) :
  is_table plasma_raw = true -> is_table mag_raw = true ->
  exists r, parse_solar_wind plasma_raw mag_raw = Ok r /\
    (forallb (fun row => negb (plasma_valid row)) (data_rows plasma_raw) = true ->
     existsb (fun row => returns (float_at row 1)) (data_rows plasma_raw) = true ->
     sw_speed r = None /\ sw_timestamp r = JNull /\
     exists row d, row ∈ data_rows plasma_raw /\
       float_at row 1 = Ok d /\ returns (float_at row 2) = false /\
       sw_density r = Some (round_nd d 1)) /\
    (forallb (fun row => negb (mag_valid row)) (data_rows mag_raw) = true ->
     existsb (fun row => returns (float_at row 3)) (data_rows mag_raw) = true ->
     sw_bt r = None /\
     exists row bz, row ∈ data_rows mag_raw /\
       float_at row 3 = Ok bz /\ returns (float_at row 4) = false /\
       sw_bz r = Some (round_nd bz 1)).
Proof.
  intros Hp Hm.
  destruct (parse_solar_wind_table _ _ Hp Hm) as (r1 & r2 & Hr1 & Hr2 & Hrun).
  exists r2. split; [exact Hrun|].
  pose proof (is_table_rows _ Hp) as Hprows.
  pose proof (is_table_rows _ Hm) as Hmrows.
  destruct (latest_loop_frame (reverse (data_rows plasma_raw)) solar_wind_init)
    as (r1' & Hr1' & Hbz1 & Hbt1 & _); [by rewrite forallb_reverse|].
  rewrite Hr1 in Hr1'. injection Hr1' as <-.
  destruct (mag_loop_frame (reverse (data_rows mag_raw))
    (set_timeseries (fun _ => thin (omap ts_point_of (data_rows plasma_raw))) r1))
    as (r2' & Hr2' & Hspeed & Hdens & Htime & _); [by rewrite forallb_reverse|].
  rewrite Hr2 in Hr2'. injection Hr2' as <-.
  split.
  - intros Hnone Hsome.
    rewrite latest_loop_miss in Hr1 by (by rewrite forallb_reverse).
    injection Hr1 as <-.
    destruct (density_scan (reverse (data_rows plasma_raw)) solar_wind_init)
      as (Hs & Ht & Hd).
    rewrite Hspeed, Hdens, Htime. simpl. rewrite Hs, Ht.
    split; [done|]. split; [done|].
    destruct Hd as [[_ Hall]|(row & d & Hin & Hrow & Hd)].
    + rewrite forallb_reverse in Hall.
      destruct (forallb_existsb_false _ _ Hall Hsome).
    + rewrite elem_of_reverse in Hin. exists row, d.
      split; [done|]. split; [done|]. split; [|done].
      pose proof (forallb_elem_of _ _ _ Hnone Hin) as Hbad.
      unfold plasma_valid in Hbad. rewrite Hrow in Hbad. simpl in Hbad.
      by destruct (returns (float_at row 2)).
  - intros Hnone Hsome.
    rewrite mag_loop_miss in Hr2 by (by rewrite forallb_reverse).
    injection Hr2 as <-.
    destruct (bz_scan (reverse (data_rows mag_raw))
      (set_timeseries (fun _ => thin (omap ts_point_of (data_rows plasma_raw))) r1))
      as (Ht & Hd).
    rewrite Ht. simpl. rewrite Hbt1. split; [done|].
    destruct Hd as [[_ Hall]|(row & d & Hin & Hrow & Hd)].
    + rewrite forallb_reverse in Hall.
      destruct (forallb_existsb_false _ _ Hall Hsome).
    + rewrite elem_of_reverse in Hin. exists row, d.
      split; [done|]. split; [done|]. split; [|done].
      pose proof (forallb_elem_of _ _ _ Hnone Hin) as Hbad.
      unfold mag_valid in Hbad. rewrite Hrow in Hbad. simpl in Hbad.
      by destruct (returns (float_at row 4)).
Qed.


Lemma stride_from_sublist {A} (step skip : nat) (l : list A) :
  stride_from step skip l `sublist_of` l.
Proof.
  revert skip. induction l as [|x l IH]; intros skip; simpl; [done|].
  destruct skip; [by apply sublist_skip | by apply sublist_cons].
Qed.

Lemma stride_from_length {A} (step skip : nat) (l : list A) :
  0 < step -> skip < step ->
  length (stride_from step skip l) * step <= length l + (step - 1 - skip).
Proof.
  intros Hstep. revert skip.
  induction l as [|x l IH]; intros skip Hskip; simpl; [lia|].
  destruct skip as [|k]; simpl.
  - specialize (IH (step - 1)). lia.
  - specialize (IH k). lia.
Qed.

Lemma thin_sublist (ts : list ts_point) : thin ts `sublist_of` ts.
Proof.
  unfold thin. destruct (60 <? length ts); [|done].
  apply stride_from_sublist.
Qed.

Lemma thin_short (ts : list ts_point) : length ts <= 60 -> thin ts = ts.
Proof.
  intros Hlen. unfold thin.
  destruct (Nat.ltb_spec 60 (length ts)); [lia|done].
Qed.

Lemma thin_length (ts : list ts_point) : length (thin ts) < 120.
Proof.
  unfold thin. destruct (Nat.ltb_spec 60 (length ts)) as [Hlong|Hshort]; [|lia].
  set (n := length ts) in *. set (k := n / 60).
  assert (1 <= k) by (apply Nat.div_le_lower_bound; lia).
  assert (n < 60 * (k + 1)).
  { pose proof (Nat.div_mod n 60). pose proof (Nat.mod_upper_bound n 60).
    unfold k. lia. }
  replace (Nat.max 1 k) with k by lia.
  pose proof (stride_from_length k 0 ts) as Hlen. fold n in Hlen.
  unfold stride. nia.
Qed.
End SolarWindProofs.

(** ** The alerts parser *)

Section AlertProofs.
Context `{PyFloat}.

Lemma keyword_line_nonempty (line : string) :
  is_keyword_line line = true -> nonempty line = true.
Proof. by destruct line. Qed.

Lemma scan_line_eq (h i raw : string) :
  scan_line (h, i) raw =
  ( if negb (nonempty h) && is_keyword_line (str_strip raw)
    then str_strip raw else h,
    if is_impacts_line (str_strip raw)
    then str_strip (str_replace (str_strip raw) impacts_prefix "")
    else i ).
Proof. reflexivity. Qed.

Lemma scan_lines (lines : list string) (h i : string) :
  fold_left scan_line lines (h, i) =
  ( if nonempty h then h
    else default "" (find is_keyword_line (str_strip <$> lines)),
    match last (filter (fun line => is_impacts_line line = true)
                  (str_strip <$> lines)) with
    | Some line => str_strip (str_replace line impacts_prefix "")
    | None => i
    end ).
Proof.
  revert h i. induction lines as [|raw lines IH]; intros h i.
  - simpl. destruct (nonempty h) eqn:Hh; [done|].
    apply negb_false_iff, String.eqb_eq in Hh. by subst.
  - change (fold_left scan_line (raw :: lines) (h, i))
      with (fold_left scan_line lines (scan_line (h, i) raw)).
    rewrite scan_line_eq, IH. rewrite fmap_cons. cbn [find].
    f_equal.
    + destruct (nonempty h) eqn:Hh; simpl; [by rewrite Hh|].
      destruct (is_keyword_line (str_strip raw)) eqn:Hkw; simpl.
      * by rewrite keyword_line_nonempty.
      * by rewrite Hh.
    + rewrite filter_cons.
      destruct (decide (is_impacts_line (str_strip raw) = true)) as [Himp|Himp].
      * rewrite Himp. rewrite last_cons.
        by destruct (last (filter _ _)).
      * apply not_true_is_false in Himp. rewrite Himp. done.
Qed.

Lemma fallback_headline_find (lines : list string) :
  fallback_headline lines "" =
  default "" (find is_plain_line (str_strip <$> lines)).
Proof.
  induction lines as [|raw lines IH]; [done|].
  change (fallback_headline (raw :: lines) "")
    with (if is_plain_line (str_strip raw) then str_strip raw
          else fallback_headline lines "").
  rewrite fmap_cons. cbn [find].
  by destruct (is_plain_line (str_strip raw)).
Qed.

Lemma find_keyword_nonempty (lines : list string) (line : string) :
  find is_keyword_line lines = Some line -> nonempty line = true.
Proof.
  induction lines as [|l lines IH]; simpl; [done|].
  destruct (is_keyword_line l) eqn:Hkw; [|done].
  intros [= <-]. by apply keyword_line_nonempty.
Qed.

Lemma alert_of_record (item : json) :
  is_alert_record item = true -> alert_of item = Ok (alert_summary item).
Proof.
  destruct item as [| | | | | |d]; try discriminate. simpl.
  unfold alert_of, alert_summary, headline_of, impacts_of, stripped_lines. simpl.
  destruct (dict_lookup d "message") as [[| | | |s| |]|]; try discriminate;
    intros _; simpl.
  - rewrite scan_lines. simpl.
    destruct (find is_keyword_line (str_strip <$> str_splitlines s))
      as [line|] eqn:Hfind; simpl.
    + rewrite (find_keyword_nonempty _ _ Hfind). done.
    + rewrite fallback_headline_find. done.
  - reflexivity.
Qed.

Lemma alerts_loop (items : list json) (acc : list alert) :
  forallb is_alert_record items = true ->
  for_each (fun item alerts => a ← alert_of item; mret (alerts ++ [a]))
    items acc = Ok (acc ++ (alert_summary <$> items)).
Proof.
  revert acc. induction items as [|item items IH]; intros acc Hall; simpl.
  - by rewrite app_nil_r.
  - apply andb_prop in Hall as [Hitem Hall].
    rewrite alert_of_record by done. simpl.
    rewrite IH by done. by rewrite <- app_assoc.
Qed.

Lemma parse_alerts_records (alerts_raw : json) :
  is_alerts alerts_raw = true ->
  parse_alerts alerts_raw =
    Ok (alert_summary <$> take 5 (elements_of alerts_raw)).
Proof.
  intros Hshape.
  destruct alerts_raw as [| | | | |items|]; try discriminate; [done|].
  unfold parse_alerts. destruct items as [|item items]; [done|].
  simpl in *. apply andb_prop in Hshape as [Hitem Hall].
  rewrite alert_of_record by done. simpl.
  by rewrite alerts_loop.
Qed.

(** C2, as amended.  For every alerts response (absent, or an array whose
    first five elements are records with a textual message), [parse_alerts]
    returns and never raises; it summarises the first five records and no
    more.  The headline of a record is the first stripped line of its
    message that begins with one of the keywords; when there is none, the
    first non-empty stripped line that begins with none of the header
    prefixes; when there is none either, the empty string.  The impacts
    field comes from the last stripped line that begins with "Potential
    Impacts:", with every occurrence of that text removed and the rest
    stripped, and is empty when no line begins so. *)
Theorem parse_alerts_summaries (alerts_raw : json) :
  is_alerts alerts_raw = true ->
  exists alerts, parse_alerts alerts_raw = Ok alerts /\
    alerts = alert_summary <$> take 5 (elements_of alerts_raw) /\
    length alerts <= 5 /\
    Forall (fun a => exists item, item ∈ take 5 (elements_of alerts_raw) /\
       headline a = headline_of (message_of item) /\
       impacts a = impacts_of (message_of item)) alerts.
Proof.
  intros Hshape. rewrite parse_alerts_records by done.
  eexists. split; [reflexivity|]. split; [reflexivity|]. split.
  - rewrite length_fmap, length_take. lia.
  - apply Forall_forall. intros a [item [-> Hitem]]%list_elem_of_fmap.
    exists item. done.
Qed.

End AlertProofs.

(** ** The storm scales parser *)

Section ScaleProofs.
Context `{PyFloat}.

Lemma scale_body_entry (current : dict json) (key : string)
    (res : dict scale_entry) :
  is_entry (dict_lookup current key) = true ->
  scale_body (JDict current) key res =
    Ok (dict_set key (scale_entry_of current key) res).
Proof.
  unfold scale_body, scale_entry_of. simpl.
  destruct (dict_lookup current key) as [[| | | | | |e]|]; try discriminate;
    reflexivity.
Qed.

Lemma for_each_cons {S A} (body : A -> S -> result S) (x : A)
    (rest : list A) (s : S) :
  for_each body (x :: rest) s = body x s ≫= for_each body rest.
Proof. reflexivity. Qed.

Lemma bind_Ok {A B} (a : A) (k : A -> result B) : Ok a ≫= k = k a.
Proof. reflexivity. Qed.

Lemma parse_scales_present (d : dict json) :
  is_scales (JDict d) = true -> d <> [] ->
  parse_scales (JDict d) =
    Ok ((fun key => (key, scale_entry_of (current_scales (JDict d)) key))
          <$> scale_keys).
Proof.
  intros Hshape Hne. unfold parse_scales.
  destruct d as [|kv d]; [done|]. cbn [truthy negb].
  unfold is_scales, current_scales in *. cbn [dict_get mbind result_bind].
  destruct (dict_lookup (kv :: d) "0") as [[| | | | | |current]|];
    try discriminate; cbn [default].
  - cbn [forallb] in Hshape.
    apply andb_prop in Hshape as [HG Hshape].
    apply andb_prop in Hshape as [HS Hshape].
    apply andb_prop in Hshape as [HR _].
    unfold id.
    rewrite for_each_cons, scale_body_entry, bind_Ok by done.
    rewrite for_each_cons, scale_body_entry, bind_Ok by done.
    rewrite for_each_cons, scale_body_entry, bind_Ok by done.
    reflexivity.
  - reflexivity.
Qed.

Lemma parse_scales_result (scales_raw : json) :
  is_scales scales_raw = true ->
  parse_scales scales_raw = Ok (scales_of scales_raw).
Proof.
  intros Hshape. unfold scales_of.
  destruct scales_raw as [| | | | | |d]; try discriminate; [reflexivity|].
  destruct d as [|kv d]; [reflexivity|].
  by rewrite parse_scales_present.
Qed.

Lemma scales_of_keys (scales_raw : json) :
  dict_keys (scales_of scales_raw) = scale_keys.
Proof. unfold scales_of. by destruct (truthy scales_raw). Qed.

(** C5, as amended.  For every scales response (absent, or a dict whose
    "0" entry and G, S, R entries are dicts where they exist),
    [parse_scales] returns a dict with exactly the keys G, S, R, in that
    order.  An absent or empty response yields G0/Quiet, S0/None, R0/None.
    For a response that is not empty, each key holds the Scale and Text of
    its entry under "0", and a key missing from the "0" entry holds
    ("<Key>0", "None"). *)
Theorem parse_scales_keys (scales_raw : json) :
  is_scales scales_raw = true ->
  exists r, parse_scales scales_raw = Ok r /\
    dict_keys r = scale_keys /\
    (truthy scales_raw = false -> r = scales_init) /\
    (truthy scales_raw = true ->
     forall key, key ∈ scale_keys ->
       dict_lookup r key = Some (scale_entry_of (current_scales scales_raw) key) /\
       (dict_lookup (current_scales scales_raw) key = None ->
        dict_lookup r key =
          Some {| scale := JStr (key +:+ "0"); label := JStr "None" |})).
Proof.
  intros Hshape. rewrite parse_scales_result by done.
  eexists. split; [reflexivity|]. split; [apply scales_of_keys|].
  unfold scales_of. destruct (truthy scales_raw); (split; [done|]); [|done].
  intros _ key Hkey.
  assert (Hlookup : dict_lookup
      ((fun key => (key, scale_entry_of (current_scales scales_raw) key))
         <$> scale_keys) key =
      Some (scale_entry_of (current_scales scales_raw) key)).
  { unfold scale_keys in *.
    repeat (apply elem_of_cons in Hkey as [->|Hkey]); try reflexivity.
    by apply elem_of_nil in Hkey. }
  split; [exact Hlookup|]. intros Hmiss. rewrite Hlookup.
  unfold scale_entry_of. by rewrite Hmiss.
Qed.

End ScaleProofs.

(** ** The aurora mapper *)

Section AuroraProofs.
Context `{PyFloat}.


Lemma aurora_scan_first (x : float) (pre post : list (Z * string))
    (t : Z) (lbl : string) :
  (forall p, p ∈ pre -> float_ge_Z x p.1 = false) ->
  float_ge_Z x t = true ->
  aurora_scan x (pre ++ (t, lbl) :: post) =
    {| au_label := lbl; au_latitude := Some t |}.
Proof.
  intros Hpre Ht. induction pre as [|[t' l'] pre IH]; simpl.
  - by rewrite Ht.
  - pose proof (Hpre (t', l') (list_elem_of_here _ _)) as Hlow.
    simpl in Hlow. rewrite Hlow.
    apply IH. intros p Hp. apply Hpre. by apply list_elem_of_further.
Qed.

Lemma aurora_scan_none (x : float) (table : list (Z * string)) :
  (forall p, p ∈ table -> float_ge_Z x p.1 = false) ->
  aurora_scan x table = not_visible.
Proof.
  intros Hall. induction table as [|[t l] table IH]; simpl; [done|].
  pose proof (Hall (t, l) (list_elem_of_here _ _)) as Hlow.
  simpl in Hlow. rewrite Hlow.
  apply IH. intros p Hp. apply Hall. by apply list_elem_of_further.
Qed.


(** The thresholds of the table go down strictly. *)
Lemma aurora_table_descending : StronglySorted above aurora_table.
Proof.
  unfold aurora_table. repeat constructor; unfold above; simpl; lia.
Qed.

Lemma aurora_table_nonnegative (p : Z * string) :
  p ∈ aurora_table -> (0 <= p.1)%Z.
Proof.
  unfold aurora_table. intros Hp.
  repeat (apply elem_of_cons in Hp as [->|Hp]; [simpl; lia|]).
  by apply elem_of_nil in Hp.
Qed.

Lemma sorted_split_above (table pre post : list (Z * string)) (p : Z * string) :
  StronglySorted above table -> table = pre ++ p :: post ->
  forall q, q ∈ pre -> (p.1 < q.1)%Z.
Proof.
  intros Hsorted -> q Hq.
  revert Hsorted. induction pre as [|a pre IH]; [by apply elem_of_nil in Hq|].
  simpl. intros Hs. apply StronglySorted_inv in Hs as [Hs Hall].
  apply elem_of_cons in Hq as [->|Hq].
  - rewrite Forall_forall in Hall. apply Hall.
    apply elem_of_app. right. apply list_elem_of_here.
  - by apply IH.
Qed.

(** C7.  [aurora_visibility] is a function, total on [None] and on every
    float.  An absent Kp gives "Unknown" with latitude None; the float 7
    gives the label of the row 7 with latitude 7; a Kp below 0 (below all
    thresholds) gives "Not visible" with latitude None; and in general the
    result is the row of the highest threshold of the table that is at most
    the Kp value. *)
Theorem aurora_visibility_table :
  aurora_visibility None = {| au_label := "Unknown"; au_latitude := None |} /\
  (forall x, float_of_Z 7 = Some x ->
     aurora_visibility (Some x) =
       {| au_label := "Mid-latitudes (< 50" +:+ deg +:+ ")";
          au_latitude := Some 7%Z |}) /\
  (forall x, float_ge_Z x 0 = false ->
     aurora_visibility (Some x) = not_visible) /\
  (forall x t lbl,
     (t, lbl) ∈ aurora_table -> float_ge_Z x t = true ->
     (forall t' lbl', (t', lbl') ∈ aurora_table -> (t < t')%Z ->
        float_ge_Z x t' = false) ->
     aurora_visibility (Some x) = {| au_label := lbl; au_latitude := Some t |}).
Proof.
  split; [reflexivity|]. split; [|split].
  - intros x Hx. unfold aurora_visibility, aurora_table. simpl.
    rewrite !(float_ge_Z_exact 7 x) by (done || lia). reflexivity.
  - intros x Hneg. apply aurora_scan_none. intros p Hp.
    destruct (float_ge_Z x p.1) eqn:Hge; [|done].
    rewrite (float_ge_Z_antitone x 0 p.1) in Hneg;
      [done | by apply aurora_table_nonnegative | done].
  - intros x t lbl Hin Ht Hhigher.
    apply list_elem_of_split in Hin as (pre & post & Htable).
    unfold aurora_visibility. rewrite Htable.
    apply aurora_scan_first; [|done].
    intros [t' l'] Hq. apply (Hhigher t' l').
    + rewrite Htable. apply elem_of_app. by left.
    + apply (sorted_split_above _ _ _ _ aurora_table_descending Htable _ Hq).
Qed.

End AuroraProofs.

(** ** The freshness policy *)

Section FreshnessProofs.
Context `{PyFloat}.
Variable fromisoformat : string -> option datetime.

(** X18.  What the code of [cache_is_stale] does, case by case, with the
    default threshold of 120 minutes: True for a payload whose fetched_at
    is a timestamp with a UTC offset 121 minutes before the current time,
    False for one 119 minutes before it; True, without raising, for every
    dict payload without a fetched_at key and for every payload whose
    fetched_at is a string that [fromisoformat] rejects; and TypeError,
    which the handler does not name, for a fetched_at that is not a
    string. *)
Theorem cache_is_stale_policy (now : Z) (payload : json) :
  (forall s t,
     item payload "fetched_at" = Ok (JStr s) ->
     fromisoformat s = Some (Aware t) ->
     (now - t = minutes 121)%Z ->
     cache_is_stale fromisoformat now payload default_max_age = Ok true) /\
  (forall s t,
     item payload "fetched_at" = Ok (JStr s) ->
     fromisoformat s = Some (Aware t) ->
     (now - t = minutes 119)%Z ->
     cache_is_stale fromisoformat now payload default_max_age = Ok false) /\
  (forall d,
     payload = JDict d -> dict_lookup d "fetched_at" = None ->
     cache_is_stale fromisoformat now payload default_max_age = Ok true) /\
  (forall s,
     item payload "fetched_at" = Ok (JStr s) ->
     fromisoformat s = None ->
     cache_is_stale fromisoformat now payload default_max_age = Ok true) /\
  (forall v,
     item payload "fetched_at" = Ok v ->
     (forall s, v <> JStr s) ->
     cache_is_stale fromisoformat now payload default_max_age = Raise TypeError).
Proof.
  unfold cache_is_stale, default_max_age, minutes.
  repeat split.
  - intros s t -> Hs Hage. simpl. rewrite Hs. simpl. rewrite Hage. reflexivity.
  - intros s t -> Hs Hage. simpl. rewrite Hs. simpl. rewrite Hage. reflexivity.
  - intros d -> Hmiss. simpl. unfold getitem. rewrite Hmiss. reflexivity.
  - intros s -> Hs. simpl. rewrite Hs. reflexivity.
  - intros v -> Hv. destruct v; try reflexivity. by destruct (Hv s).
Qed.

End FreshnessProofs.

(** ** The aggregator *)

Section AggregatorProofs.
Context `{PyFloat}.
Variable http_get : string -> option json.
Variable now_iso : string.





End AggregatorProofs.

(** ** Number literals *)

Lemma N_to_uint_nonnil (n : N) : N.to_uint n <> Decimal.Nil.
Proof.
  destruct n as [|p]; [discriminate|].
  apply DecimalPos.Unsigned.to_uint_nonnil.
Qed.

Lemma N_parse_repr (n : N) : N_parse (N_repr n) = Some n.
Proof.
  unfold N_parse, N_repr.
  rewrite NilZero.usu by apply N_to_uint_nonnil.
  simpl. f_equal. apply DecimalN.Unsigned.of_to.
Qed.

Lemma canonical_repr (n : N) : canonical (N_repr n) = true.
Proof. unfold canonical. rewrite N_parse_repr. apply String.eqb_refl. Qed.

(** A string that parses as a number holds digits only, one at least. *)
Lemma uint_of_string_digits (s : string) (d : Decimal.uint) :
  NilEmpty.uint_of_string s = Some d -> span_digits s = (s, EmptyString).
Proof.
  revert d. induction s as [|c s IH]; intros d; simpl; [done|].
  destruct (NilEmpty.uint_of_string s) as [d'|] eqn:Hs; simpl.
  - intros Hc. rewrite (IH d' eq_refl).
    assert (Hdig : is_digit c = true).
    { destruct c as [[] [] [] [] [] [] [] []]; try discriminate; reflexivity. }
    by rewrite Hdig.
  - intros Hc. destruct c as [[] [] [] [] [] [] [] []]; discriminate.
Qed.

Lemma N_repr_digits (n : N) :
  span_digits (N_repr n) = (N_repr n, EmptyString) /\
  N_repr n <> EmptyString.
Proof.
  pose proof (N_parse_repr n) as Hp. unfold N_parse in Hp.
  destruct (NilZero.uint_of_string (N_repr n)) as [d|] eqn:Hd; [|discriminate].
  unfold NilZero.uint_of_string in Hd.
  destruct (N_repr n) as [|c s] eqn:Hs; [discriminate|].
  split; [|discriminate]. by apply (uint_of_string_digits _ d).
Qed.

(** What stops a run of digits: the end, or a character that is no digit. *)
Lemma span_digits_app (ds rest : string) :
  span_digits ds = (ds, EmptyString) -> stops_digits rest = true ->
  span_digits (ds +:+ rest) = (ds, rest).
Proof.
  revert rest. induction ds as [|c ds IH]; intros rest Hds Hrest; simpl in *.
  - destruct rest as [|c rest]; [done|]. simpl in *.
    destruct (is_digit c); [discriminate|done].
  - destruct (is_digit c); [|discriminate].
    destruct (span_digits ds) as [ds' r] eqn:Hspan.
    injection Hds as -> ->. by rewrite (IH rest).
Qed.

(** [int(w)] on an integer literal. *)
Lemma N_repr_head (n : N) :
  exists c s, N_repr n = String c s /\ is_digit c = true.
Proof.
  destruct (N_repr_digits n) as [Hspan Hne].
  destruct (N_repr n) as [|c s]; [done|]. exists c, s. split; [done|].
  simpl in Hspan. destruct (is_digit c); [done|discriminate].
Qed.

Lemma Z_parse_repr (z : Z) : Z_parse (Z_repr z) = Some z.
Proof.
  destruct z as [|p|p]; simpl.
  - reflexivity.
  - destruct (N_repr_head (N.pos p)) as (c & s & Hc & Hdig).
    unfold Z_parse. rewrite Hc.
    assert (Ascii.eqb c "-" = false) as ->.
    { destruct (Ascii.eqb_spec c "-"%char) as [->|]; [discriminate|done]. }
    rewrite <- Hc, N_parse_repr. reflexivity.
  - by rewrite N_parse_repr.
Qed.

Lemma number_grammar_unsigned (n : N) (rest : string) :
  stops_digits rest = true ->
  number_grammar (N_repr n +:+ rest) =
  match rest with
  | EmptyString => Some false
  | String c r' =>
      if Ascii.eqb c "."%char then
        match span_digits r' with
        | (String _ _, EmptyString) => Some true
        | (String _ _, r'') => if is_exponent r'' then Some true else None
        | (EmptyString, _) => None
        end
      else if is_exponent rest then Some true else None
  end.
Proof.
  intros Hrest. unfold number_grammar.
  destruct (N_repr_head n) as (c & s & Hc & Hdig).
  destruct (N_repr_digits n) as [Hspan _].
  assert (Hw : N_repr n +:+ rest = String c (s +:+ rest)) by by rewrite Hc.
  rewrite Hw.
  assert (Ascii.eqb c "-" = false) as ->.
  { destruct (Ascii.eqb_spec c "-"%char) as [->|]; [discriminate|done]. }
  rewrite <- Hw, (span_digits_app _ _ Hspan Hrest), canonical_repr.
  reflexivity.
Qed.

Lemma number_grammar_signed (z : Z) (rest : string) :
  stops_digits rest = true ->
  number_grammar (Z_repr z +:+ rest) =
  match rest with
  | EmptyString => Some false
  | String c r' =>
      if Ascii.eqb c "."%char then
        match span_digits r' with
        | (String _ _, EmptyString) => Some true
        | (String _ _, r'') => if is_exponent r'' then Some true else None
        | (EmptyString, _) => None
        end
      else if is_exponent rest then Some true else None
  end.
Proof.
  intros Hrest. destruct z as [|p|p].
  - change (Z_repr 0) with (N_repr 0). by apply number_grammar_unsigned.
  - change (Z_repr (Z.pos p)) with (N_repr (N.pos p)).
    by apply number_grammar_unsigned.
  - destruct (N_repr_digits (N.pos p)) as [Hspan _].
    change (Z_repr (Z.neg p) +:+ rest)
      with (String "-" (N_repr (N.pos p) +:+ rest)).
    unfold number_grammar. cbv beta iota. rewrite Ascii.eqb_refl.
    rewrite (span_digits_app _ _ Hspan Hrest), canonical_repr. reflexivity.
Qed.

Lemma append_cons (c : ascii) (s t : string) :
  String c s +:+ t = String c (s +:+ t).
Proof. reflexivity. Qed.

Lemma string_app_nil (s : string) : s +:+ "" = s.
Proof.
  induction s as [|c s IH]; [done|]. by rewrite append_cons, IH.
Qed.

Lemma all_chars_app (p : ascii -> bool) (s t : string) :
  all_chars p (s +:+ t) = all_chars p s && all_chars p t.
Proof.
  induction s as [|c s IH]; [done|].
  rewrite append_cons. simpl. by rewrite IH, andb_assoc.
Qed.

Lemma all_chars_impl (p q : ascii -> bool) (s : string) :
  (forall c, p c = true -> q c = true) ->
  all_chars p s = true -> all_chars q s = true.
Proof.
  intros Hpq. induction s as [|c s IH]; [done|]. simpl.
  intros [Hc Hs]%andb_prop. by rewrite (Hpq c Hc), IH.
Qed.

Lemma span_digits_all (s : string) :
  span_digits s = (s, EmptyString) -> all_chars is_digit s = true.
Proof.
  induction s as [|c s IH]; [done|]. simpl.
  destruct (is_digit c); [|discriminate].
  destruct (span_digits s) as [ds r]. intros [= -> ->]. by apply IH.
Qed.

Lemma N_repr_number_chars (n : N) : all_chars is_number_char (N_repr n) = true.
Proof.
  apply (all_chars_impl is_digit).
  - intros c Hc. unfold is_number_char. by rewrite Hc.
  - apply span_digits_all, N_repr_digits.
Qed.

Lemma Z_repr_number_chars (z : Z) : all_chars is_number_char (Z_repr z) = true.
Proof.
  destruct z as [|p|p]; [done|apply N_repr_number_chars|].
  change (Z_repr (Z.neg p)) with (String "-" (N_repr (N.pos p))).
  simpl. apply N_repr_number_chars.
Qed.

Lemma number_shape_int (z : Z) : number_shape (Z_repr z) = Some false.
Proof.
  unfold number_shape. rewrite Z_repr_number_chars.
  rewrite <- (string_app_nil (Z_repr z)).
  by rewrite number_grammar_signed.
Qed.

Lemma number_shape_chars (w : string) (b : bool) :
  number_shape w = Some b ->
  all_chars is_number_char w = true /\ w <> EmptyString.
Proof.
  unfold number_shape. destruct (all_chars is_number_char w); [|discriminate].
  intros Hg. split; [done|]. by intros ->.
Qed.

(** ** The scanner on what the encoder writes *)

Lemma lex_escape_char (c : ascii) (acc rest : string) :
  lex (LStr acc) (escape_char c +:+ rest) = lex (LStr (String c acc)) rest.
Proof. destruct c as [[] [] [] [] [] [] [] []]; reflexivity. Qed.

Lemma append_assoc (s t u : string) : (s +:+ t) +:+ u = s +:+ (t +:+ u).
Proof.
  induction s as [|c s IH]; [done|]. by rewrite !append_cons, IH.
Qed.

Lemma rev_onto_rev_onto (s acc t : string) :
  rev_onto (rev_onto s acc) t = rev_onto acc (s +:+ t).
Proof.
  revert acc. induction s as [|c s IH]; intros acc; [done|].
  simpl. by rewrite IH.
Qed.

Lemma rev_string_rev_onto (s : string) :
  rev_string (rev_onto s EmptyString) = s.
Proof.
  unfold rev_string. rewrite rev_onto_rev_onto. simpl. apply string_app_nil.
Qed.

Lemma lex_escape (s acc rest : string) :
  lex (LStr acc) (escape s +:+ String quote rest) =
    (TStr (rev_string (rev_onto s acc)) ::.) <$> lex LTop rest.
Proof.
  revert acc. induction s as [|c s IH]; intros acc.
  - reflexivity.
  - cbn [escape rev_onto]. rewrite append_assoc, lex_escape_char. apply IH.
Qed.

Lemma lex_open_quote (s : string) :
  lex LTop (String quote s) = lex (LStr EmptyString) s.
Proof.
  change (lex LTop (String quote s))
    with ((flush LTop ++.) <$> lex (LStr EmptyString) s).
  by destruct (lex (LStr EmptyString) s).
Qed.

Lemma lex_encode_str (s rest : string) :
  lex LTop (encode_str s +:+ rest) = (TStr s ::.) <$> lex LTop rest.
Proof.
  unfold encode_str. rewrite append_cons, append_assoc, lex_open_quote.
  change (String quote EmptyString +:+ rest) with (String quote rest).
  by rewrite lex_escape, rev_string_rev_onto.
Qed.

Lemma word_char_inv (c : ascii) :
  is_word_char c = true ->
  is_json_ws c = false /\ punct c = None /\ Ascii.eqb c quote = false.
Proof.
  unfold is_word_char, is_delimiter. intros Hc.
  apply negb_true_iff in Hc.
  apply orb_false_elim in Hc as [Hc Hq].
  apply orb_false_elim in Hc as [Hw Hp].
  repeat split; [done| |done]. by destruct (punct c).
Qed.

Lemma lex_word_step (st : lex_state) (c : ascii) (s : string) :
  is_word_char c = true ->
  lex (LWord match st with LWord acc => acc | _ => EmptyString end)
      (String c s) =
  lex (LWord (String c match st with LWord acc => acc | _ => EmptyString end)) s.
Proof.
  intros (Hw & Hp & Hq)%word_char_inv. cbn [lex]. by rewrite Hw, Hp, Hq.
Qed.

Lemma lex_word_chars (w acc rest : string) :
  all_chars is_word_char w = true ->
  lex (LWord acc) (w +:+ rest) = lex (LWord (rev_onto w acc)) rest.
Proof.
  revert acc. induction w as [|c w IH]; intros acc Hw; [done|].
  simpl in Hw. apply andb_prop in Hw as [Hc Hw].
  rewrite append_cons. rewrite (lex_word_step (LWord acc)) by done.
  by apply IH.
Qed.

Lemma lex_top_word (c : ascii) (s : string) :
  is_word_char c = true ->
  lex LTop (String c s) = lex (LWord (String c EmptyString)) s.
Proof.
  intros (Hw & Hp & Hq)%word_char_inv. cbn [lex]. by rewrite Hw, Hp, Hq.
Qed.

Lemma lex_word_end (acc rest : string) :
  delimited rest = true ->
  lex (LWord acc) rest = (TWord (rev_string acc) ::.) <$> lex LTop rest.
Proof.
  destruct rest as [|c rest]; [done|]. simpl. unfold is_delimiter.
  intros Hc. cbn [lex flush].
  destruct (is_json_ws c); [by destruct (lex LTop rest)|].
  destruct (punct c); [by destruct (lex LTop rest)|].
  simpl in Hc. rewrite Hc. by destruct (lex (LStr EmptyString) rest).
Qed.

Lemma lex_word (w rest : string) :
  w <> EmptyString ->
  all_chars is_word_char w = true ->
  delimited rest = true ->
  lex LTop (w +:+ rest) = (TWord w ::.) <$> lex LTop rest.
Proof.
  intros Hne Hw Hrest. destruct w as [|c w]; [done|].
  simpl in Hw. apply andb_prop in Hw as [Hc Hw].
  rewrite append_cons, lex_top_word, lex_word_chars, lex_word_end by done.
  unfold rev_string. rewrite rev_onto_rev_onto.
  change (rev_onto (String c EmptyString) (w +:+ EmptyString))
    with (String c (w +:+ EmptyString)).
  by rewrite string_app_nil.
Qed.

Section LexEncode.
Context `{PyFloatText}.

Lemma number_char_word_char (c : ascii) :
  is_number_char c = true -> is_word_char c = true.
Proof. destruct c as [[] [] [] [] [] [] [] []]; try discriminate; reflexivity. Qed.

Lemma float_text_word (x : float) :
  float_text x <> EmptyString /\ all_chars is_word_char (float_text x) = true.
Proof.
  unfold float_text. destruct (float_kind x) eqn:Hk; try (split; [discriminate|reflexivity]).
  destruct (number_shape_chars _ _ (float_repr_shape x Hk)) as [Hc Hne].
  split; [done|]. eapply all_chars_impl; [apply number_char_word_char|done].
Qed.

Lemma Z_repr_word (z : Z) :
  Z_repr z <> EmptyString /\ all_chars is_word_char (Z_repr z) = true.
Proof.
  destruct (number_shape_chars _ _ (number_shape_int z)) as [Hc Hne].
  split; [done|]. eapply all_chars_impl; [apply number_char_word_char|done].
Qed.

Lemma lex_spaces (n : nat) (s : string) : lex LTop (spaces n +:+ s) = lex LTop s.
Proof.
  induction n as [|n IH]; [done|].
  cbn [spaces]. rewrite append_cons.
  change (lex LTop (String " " (spaces n +:+ s)))
    with ((flush LTop ++.) <$> lex LTop (spaces n +:+ s)).
  rewrite IH. by destruct (lex LTop s).
Qed.

Lemma lex_newline_indent (level : nat) (s : string) :
  lex LTop (newline_indent level +:+ s) = lex LTop s.
Proof.
  unfold newline_indent, LF. rewrite append_assoc, append_cons.
  change (EmptyString +:+ (spaces (2 * level) +:+ s))
    with (spaces (2 * level) +:+ s).
  change (lex LTop (String (ascii_of_nat 10) (spaces (2 * level) +:+ s)))
    with ((flush LTop ++.) <$> lex LTop (spaces (2 * level) +:+ s)).
  rewrite lex_spaces. by destruct (lex LTop s).
Qed.

Lemma lex_punct (c : ascii) (t : token) (s : string) :
  punct c = Some t -> is_json_ws c = false ->
  lex LTop (String c s) = (t ::.) <$> lex LTop s.
Proof.
  intros Hp Hw. cbn [lex]. rewrite Hw, Hp. by destruct (lex LTop s).
Qed.

Lemma delimited_newline (level : nat) (s : string) :
  delimited (newline_indent level +:+ s) = true.
Proof. reflexivity. Qed.

Lemma fmap_fmap_tokens (f g : list token -> list token) (o : option (list token)) :
  f <$> (g <$> o) = (fun ts => f (g ts)) <$> o.
Proof. by destruct o. Qed.

Lemma fmap_ext_tokens (f g : list token -> list token) (o : option (list token)) :
  (forall ts, f ts = g ts) -> f <$> o = g <$> o.
Proof. intros Hfg. destruct o; simpl; [by rewrite Hfg|done]. Qed.

(** The text of the items of a list, up to the closing bracket. *)
Lemma lex_items (level : nat) (items : list json) (rest : string) :
  Forall (fun v => forall level rest, delimited rest = true ->
            lex LTop (encode level v +:+ rest) = (tokens v ++.) <$> lex LTop rest)
         items ->
  items <> [] ->
  lex LTop (str_join ("," +:+ newline_indent (S level)) (map (encode (S level)) items)
            +:+ newline_indent level +:+ "]" +:+ rest) =
  (fun ts => sep_concat TComma (map tokens items) ++ TCloseList :: ts)
    <$> lex LTop rest.
Proof.
  intros Hall. induction Hall as [|v items Hv Hall IH]; [done|]. intros _.
  destruct items as [|v' items].
  - cbn [map str_join sep_concat]. rewrite Hv by apply delimited_newline.
    rewrite lex_newline_indent.
    change ("]" +:+ rest) with (String "]" rest).
    rewrite (lex_punct "]" TCloseList) by reflexivity.
    rewrite fmap_fmap_tokens. reflexivity.
  - change (str_join ("," +:+ newline_indent (S level))
              (map (encode (S level)) (v :: v' :: items)))
      with (encode (S level) v +:+ ("," +:+ newline_indent (S level))
            +:+ str_join ("," +:+ newline_indent (S level))
                  (map (encode (S level)) (v' :: items))).
    rewrite !append_assoc. rewrite Hv by reflexivity.
    rewrite append_cons.
    rewrite (lex_punct "," TComma) by reflexivity.
    change (EmptyString +:+ ?x) with x.
    rewrite lex_newline_indent.
    rewrite <- !append_assoc in IH. rewrite <- !append_assoc.
    rewrite IH by discriminate.
    rewrite !fmap_fmap_tokens. apply fmap_ext_tokens. intros ts.
    change (sep_concat TComma (map tokens (v :: v' :: items)))
      with (tokens v ++ TComma :: sep_concat TComma (map tokens (v' :: items))).
    by rewrite <- app_assoc.
Qed.

Lemma lex_key (k s : string) :
  lex LTop (encode_str k +:+ ": " +:+ s) =
    (fun ts => TStr k :: TColon :: ts) <$> lex LTop s.
Proof.
  rewrite lex_encode_str.
  change (": " +:+ s) with (String ":" (String " " s)).
  rewrite (lex_punct ":" TColon) by reflexivity.
  change (lex LTop (String " " s)) with ((flush LTop ++.) <$> lex LTop s).
  by destruct (lex LTop s).
Qed.

(** The text of the items of a dict, up to the closing brace. *)
Lemma lex_members (level : nat) (items : dict json) (rest : string) :
  Forall (fun kv => forall level rest, delimited rest = true ->
            lex LTop (encode level (snd kv) +:+ rest) =
              (tokens (snd kv) ++.) <$> lex LTop rest)
         items ->
  items <> [] ->
  lex LTop (str_join ("," +:+ newline_indent (S level))
              (map (fun kv => encode_str (fst kv) +:+ ": "
                              +:+ encode (S level) (snd kv)) items)
            +:+ newline_indent level +:+ "}" +:+ rest) =
  (fun ts => sep_concat TComma
               (map (fun kv => TStr (fst kv) :: TColon :: tokens (snd kv)) items)
             ++ TCloseDict :: ts)
    <$> lex LTop rest.
Proof.
  intros Hall. induction Hall as [|[k v] items Hv Hall IH]; [done|]. intros _.
  simpl in Hv.
  destruct items as [|kv' items].
  - cbn [map str_join sep_concat fst snd]. rewrite !append_assoc, lex_key.
    rewrite Hv by apply delimited_newline.
    rewrite lex_newline_indent.
    change ("}" +:+ rest) with (String "}" rest).
    rewrite (lex_punct "}" TCloseDict) by reflexivity.
    rewrite !fmap_fmap_tokens. apply fmap_ext_tokens. intros ts.
    reflexivity.
  - change (str_join ("," +:+ newline_indent (S level))
              (map (fun kv => encode_str (fst kv) +:+ ": "
                              +:+ encode (S level) (snd kv))
                   ((k, v) :: kv' :: items)))
      with ((encode_str k +:+ ": " +:+ encode (S level) v)
            +:+ ("," +:+ newline_indent (S level))
            +:+ str_join ("," +:+ newline_indent (S level))
                  (map (fun kv => encode_str (fst kv) +:+ ": "
                                  +:+ encode (S level) (snd kv))
                       (kv' :: items))).
    rewrite !append_assoc, lex_key. rewrite Hv by reflexivity.
    rewrite append_cons.
    rewrite (lex_punct "," TComma) by reflexivity.
    change (EmptyString +:+ ?x) with x.
    rewrite lex_newline_indent.
    rewrite <- !append_assoc in IH. rewrite <- !append_assoc.
    rewrite IH by discriminate.
    rewrite !fmap_fmap_tokens. apply fmap_ext_tokens. intros ts.
    change (sep_concat TComma
              (map (fun kv => TStr (fst kv) :: TColon :: tokens (snd kv))
                   ((k, v) :: kv' :: items)))
      with ((TStr k :: TColon :: tokens v) ++ TComma ::
            sep_concat TComma
              (map (fun kv => TStr (fst kv) :: TColon :: tokens (snd kv))
                   (kv' :: items))).
    by rewrite <- !app_assoc.
Qed.

Lemma lex_word_token (w rest : string) :
  w <> EmptyString /\ all_chars is_word_char w = true ->
  delimited rest = true ->
  lex LTop (w +:+ rest) = ([TWord w] ++.) <$> lex LTop rest.
Proof. intros [Hne Hw] Hrest. by apply lex_word. Qed.

(** The scanner reads the text of a document as its tokens. *)
Lemma lex_encode (v : json) :
  forall level rest, delimited rest = true ->
    lex LTop (encode level v +:+ rest) = (tokens v ++.) <$> lex LTop rest.
Proof.
  induction v as [|b|z|x|s|items IH|items IH] using json_nested_ind;
    intros level rest Hrest.
  - by apply (lex_word_token "null").
  - destruct b; [by apply (lex_word_token "true")|by apply (lex_word_token "false")].
  - apply lex_word_token; [apply Z_repr_word|done].
  - apply lex_word_token; [apply float_text_word|done].
  - apply lex_encode_str.
  - destruct items as [|v items].
    + change (encode level (JList []) +:+ rest)
        with (String "[" (String "]" rest)).
      rewrite (lex_punct "[" TOpenList), (lex_punct "]" TCloseList) by reflexivity.
      by destruct (lex LTop rest).
    + change (encode level (JList (v :: items)))
        with ("[" +:+ newline_indent (S level)
              +:+ str_join ("," +:+ newline_indent (S level))
                    (map (encode (S level)) (v :: items))
              +:+ newline_indent level +:+ "]").
      rewrite !append_assoc.
      change ("[" +:+ ?x) with (String "[" x).
      rewrite (lex_punct "[" TOpenList) by reflexivity.
      rewrite lex_newline_indent, lex_items by done.
      rewrite fmap_fmap_tokens. apply fmap_ext_tokens. intros ts.
      change (tokens (JList (v :: items)))
        with (TOpenList :: sep_concat TComma (map tokens (v :: items))
              ++ [TCloseList]).
      rewrite <- app_comm_cons, <- app_assoc. reflexivity.
  - destruct items as [|kv items].
    + change (encode level (JDict []) +:+ rest)
        with (String "{" (String "}" rest)).
      rewrite (lex_punct "{" TOpenDict), (lex_punct "}" TCloseDict) by reflexivity.
      by destruct (lex LTop rest).
    + change (encode level (JDict (kv :: items)))
        with ("{" +:+ newline_indent (S level)
              +:+ str_join ("," +:+ newline_indent (S level))
                    (map (fun kv => encode_str (fst kv) +:+ ": "
                                    +:+ encode (S level) (snd kv))
                         (kv :: items))
              +:+ newline_indent level +:+ "}").
      rewrite !append_assoc.
      change ("{" +:+ ?x) with (String "{" x).
      rewrite (lex_punct "{" TOpenDict) by reflexivity.
      rewrite lex_newline_indent, lex_members by done.
      rewrite fmap_fmap_tokens. apply fmap_ext_tokens. intros ts.
      change (tokens (JDict (kv :: items)))
        with (TOpenDict ::
              sep_concat TComma
                (map (fun kv => TStr (fst kv) :: TColon :: tokens (snd kv))
                     (kv :: items))
              ++ [TCloseDict]).
      rewrite <- app_comm_cons, <- app_assoc. reflexivity.
Qed.

End LexEncode.

(** ** The parser on the tokens of a document *)

Section DictFacts.
Context {V : Type}.

Lemma dict_set_fresh (k : string) (v : V) (d : dict V) :
  k ∉ dict_keys d -> dict_set k v d = d ++ [(k, v)].
Proof.
  induction d as [|[k' w] d IH]; intros Hk; [done|].
  unfold dict_keys in *. simpl in *.
  apply not_elem_of_cons in Hk as [Hne Hk].
  destruct (String.eqb_spec k' k) as [->|_]; [done|].
  by rewrite IH.
Qed.

Lemma dict_lookup_set (k : string) (v : V) (d : dict V) :
  dict_lookup (dict_set k v d) k = Some v.
Proof.
  induction d as [|[k' w] d IH]; simpl.
  - by rewrite String.eqb_refl.
  - destruct (String.eqb_spec k' k) as [->|Hne]; simpl.
    + by rewrite String.eqb_refl.
    + destruct (String.eqb_spec k' k); [done|]. exact IH.
Qed.

Lemma dict_set_all (items acc : dict V) :
  NoDup (dict_keys (acc ++ items)) ->
  foldl (fun d kv => dict_set (fst kv) (snd kv) d) acc items = acc ++ items.
Proof.
  revert acc. induction items as [|[k v] items IH]; intros acc Hnd; simpl.
  - by rewrite app_nil_r.
  - rewrite dict_set_fresh.
    + rewrite IH; [by rewrite <- app_assoc|]. by rewrite <- app_assoc.
    + unfold dict_keys in *. rewrite fmap_app in Hnd.
      apply NoDup_app in Hnd as (_ & Hdis & _). intros Hin.
      apply (Hdis k Hin). simpl. apply list_elem_of_here.
Qed.

End DictFacts.

Section ParseTokens.
Context `{PyFloatText}.

Lemma run_app (st : pstate) (ts1 ts2 : list token) :
  run_tokens st (ts1 ++ ts2) = run_tokens st ts1 ≫= fun st' => run_tokens st' ts2.
Proof.
  revert st. induction ts1 as [|t ts1 IH]; intros st; [done|].
  simpl. destruct (step st t) as [st'|]; simpl; [apply IH|done].
Qed.

Definition wants_value (m : mode) : Prop := m = MValue \/ m = MFirstItem.

Lemma step_word (stack : list frame) (m : mode) (w : string) :
  wants_value m ->
  step (Running stack m) (TWord w) = json_word w ≫= fun v => deliver v stack.
Proof. by intros [-> | ->]. Qed.

Lemma step_str (stack : list frame) (m : mode) (s : string) :
  wants_value m -> step (Running stack m) (TStr s) = deliver (JStr s) stack.
Proof. by intros [-> | ->]. Qed.

Lemma step_open_list (stack : list frame) (m : mode) :
  wants_value m ->
  step (Running stack m) TOpenList = Some (Running (FList [] :: stack) MFirstItem).
Proof. by intros [-> | ->]. Qed.

Lemma step_open_dict (stack : list frame) (m : mode) :
  wants_value m ->
  step (Running stack m) TOpenDict =
    Some (Running (FDict [] None :: stack) MFirstKey).
Proof. by intros [-> | ->]. Qed.

Lemma json_word_int (z : Z) : json_word (Z_repr z) = Some (JInt z).
Proof. unfold json_word. by rewrite number_shape_int, Z_parse_repr. Qed.

Lemma json_word_float (x : float) :
  float_kind x = Finite -> json_word (float_text x) = Some (JFloat x).
Proof.
  intros Hk. unfold json_word, float_text. rewrite Hk.
  by rewrite float_repr_shape, float_repr_inverse.
Qed.

(** The parser over the tokens of one value, in terms of what follows it. *)
Definition reads (v : json) : Prop :=
  forall stack m ts, wants_value m ->
    run_tokens (Running stack m) (tokens v ++ ts) =
      deliver v stack ≫= fun st => run_tokens st ts.

Lemma run_items (items acc : list json) (stack : list frame) (m : mode)
    (ts : list token) :
  Forall reads items -> items <> [] -> wants_value m ->
  run_tokens (Running (FList acc :: stack) m)
      (sep_concat TComma (map tokens items) ++ TCloseList :: ts) =
    deliver (JList (acc ++ items)) stack ≫= fun st => run_tokens st ts.
Proof.
  intros Hall. revert acc m.
  induction Hall as [|v items Hv Hall IH]; [done|]. intros acc m _ Hm.
  destruct items as [|v' items].
  - cbn [map sep_concat]. rewrite Hv by done. reflexivity.
  - change (sep_concat TComma (map tokens (v :: v' :: items)))
      with (tokens v ++ TComma :: sep_concat TComma (map tokens (v' :: items))).
    rewrite <- app_assoc, Hv by done. cbn [deliver mbind option_bind].
    rewrite <- app_comm_cons. cbn [run_tokens step mbind option_bind].
    rewrite IH; [by rewrite <- app_assoc|discriminate|by left].
Qed.

Lemma run_members (items acc : dict json) (stack : list frame) (m : mode)
    (ts : list token) :
  Forall (fun kv => reads (snd kv)) items -> items <> [] ->
  m = MFirstKey \/ m = MKey ->
  run_tokens (Running (FDict acc None :: stack) m)
      (sep_concat TComma
         (map (fun kv => TStr (fst kv) :: TColon :: tokens (snd kv)) items)
       ++ TCloseDict :: ts) =
    deliver (JDict (foldl (fun d kv => dict_set (fst kv) (snd kv) d) acc items))
      stack ≫= fun st => run_tokens st ts.
Proof.
  intros Hall. revert acc m.
  induction Hall as [|[k v] items Hv Hall IH]; [done|]. intros acc m _ Hm.
  simpl in Hv.
  assert (Hkey : forall rest,
    run_tokens (Running (FDict acc None :: stack) m)
        ((TStr k :: TColon :: tokens v) ++ rest) =
    run_tokens (Running (FDict (dict_set k v acc) None :: stack) MNext) rest).
  { intros rest. rewrite <- !app_comm_cons.
    destruct Hm as [-> | ->]; cbn [run_tokens step mbind option_bind];
      rewrite Hv by (by left); reflexivity. }
  destruct items as [|kv' items].
  - change (sep_concat TComma
              (map (fun kv => TStr (fst kv) :: TColon :: tokens (snd kv))
                   [(k, v)]))
      with (TStr k :: TColon :: tokens v).
    rewrite Hkey. reflexivity.
  - change (sep_concat TComma
              (map (fun kv => TStr (fst kv) :: TColon :: tokens (snd kv))
                   ((k, v) :: kv' :: items)))
      with ((TStr k :: TColon :: tokens v) ++ TComma ::
            sep_concat TComma
              (map (fun kv => TStr (fst kv) :: TColon :: tokens (snd kv))
                   (kv' :: items))).
    rewrite <- app_assoc, Hkey.
    rewrite <- app_comm_cons. cbn [run_tokens step mbind option_bind].
    rewrite IH; [reflexivity|discriminate|by right].
Qed.

Lemma storable_reads (v : json) : storable v = true -> reads v.
Proof.
  induction v as [|b|z|x|s|items IH|items IH] using json_nested_ind;
    intros Hst stack m ts Hm.
  - cbn [tokens app run_tokens]. by rewrite step_word.
  - destruct b; cbn [tokens app run_tokens]; by rewrite step_word.
  - cbn [tokens app run_tokens]. by rewrite step_word, json_word_int.
  - assert (Hk : float_kind x = Finite).
    { simpl in Hst. by destruct (float_kind x). }
    cbn [tokens app run_tokens]. rewrite step_word by done.
    rewrite json_word_float by done. reflexivity.
  - cbn [tokens app run_tokens]. by rewrite step_str.
  - destruct items as [|v items].
    + cbn [tokens app run_tokens]. rewrite step_open_list by done. reflexivity.
    + change (tokens (JList (v :: items)))
        with (TOpenList :: sep_concat TComma (map tokens (v :: items))
              ++ [TCloseList]).
      rewrite <- app_comm_cons, <- app_assoc.
      cbn [run_tokens]. rewrite step_open_list by done. cbn [mbind option_bind].
      change ([TCloseList] ++ ts) with (TCloseList :: ts).
      rewrite run_items; [done| |done|by right].
      change (storable (JList (v :: items)))
        with (forallb storable (v :: items)) in Hst.
      rewrite forallb_forall in Hst.
      rewrite Forall_forall in IH. apply Forall_forall. intros x Hx.
      apply IH; [done|]. apply Hst. by apply list_elem_of_In.
  - destruct items as [|kv items].
    + cbn [tokens app run_tokens]. rewrite step_open_dict by done. reflexivity.
    + change (tokens (JDict (kv :: items)))
        with (TOpenDict ::
              sep_concat TComma
                (map (fun kv => TStr (fst kv) :: TColon :: tokens (snd kv))
                     (kv :: items))
              ++ [TCloseDict]).
      rewrite <- app_comm_cons, <- app_assoc.
      cbn [run_tokens]. rewrite step_open_dict by done. cbn [mbind option_bind].
      change ([TCloseDict] ++ ts) with (TCloseDict :: ts).
      change (storable (JDict (kv :: items)))
        with (bool_decide (NoDup (fst <$> kv :: items))
              && forallb (fun kv => storable (snd kv)) (kv :: items)) in Hst.
      apply andb_prop in Hst as [Hnd Hst]. apply bool_decide_eq_true in Hnd.
      rewrite run_members; [|  |done|by left].
      * by rewrite (dict_set_all (kv :: items) []).
      * rewrite forallb_forall in Hst.
        rewrite Forall_forall in IH. apply Forall_forall. intros x Hx.
        apply IH; [done|]. apply Hst. by apply list_elem_of_In.
Qed.

(** The round trip of the text: what [json.dumps] writes for a storable
    document, [json.loads] reads back as the same document. *)
Lemma json_loads_dumps (v : json) :
  storable v = true -> json_loads (json_dumps v) = Some v.
Proof.
  intros Hst. unfold json_loads, json_dumps.
  rewrite <- (string_app_nil (encode 0 v)), lex_encode by reflexivity.
  cbn [lex flush fmap option_fmap option_map mbind option_bind].
  unfold parse_tokens. rewrite (storable_reads v Hst) by (by left).
  reflexivity.
Qed.

End ParseTokens.

(** ** The text of the floats of the concrete model *)

Module FixedTextProofs.
Import Fixed FixedText.

Lemma horner_of_uint_acc (d : Decimal.uint) (p : positive) :
  Z.pos (Pos.of_uint_acc d p) = horner d (Z.pos p).
Proof.
  revert p. induction d; intros p; simpl; [reflexivity|..];
    rewrite IHd; f_equal; lia.
Qed.

Lemma horner_of_uint (d : Decimal.uint) : Z.of_N (N.of_uint d) = horner d 0.
Proof.
  unfold N.of_uint. induction d; simpl; try exact IHd; try reflexivity;
    apply horner_of_uint_acc.
Qed.

Lemma read_int_uint (d : Decimal.uint) (rest : string) (acc : Z) (seen : bool) :
  d <> Decimal.Nil ->
  read_int (NilEmpty.string_of_uint d +:+ rest) acc seen =
    read_int rest (horner d acc) true.
Proof.
  assert (Hgen : forall d acc seen,
    read_int (NilEmpty.string_of_uint d +:+ rest) acc seen =
      read_int rest (horner d acc)
        (match d with Decimal.Nil => seen | _ => true end)).
  { clear. induction d; intros acc seen; [reflexivity|..];
      cbn [NilEmpty.string_of_uint horner]; rewrite append_cons;
      cbn [read_int]; cbv [Ascii.eqb Bool.eqb digit_of nat_of_ascii N_of_ascii N_of_digits]; simpl; rewrite ?Z.add_0_r;
      rewrite IHd; by destruct d. }
  intros Hd. rewrite Hgen. by destruct d.
Qed.

Lemma read_int_repr (n : N) (rest : string) :
  read_int (N_repr n +:+ rest) 0 false = read_int rest (Z.of_N n) true.
Proof.
  unfold N_repr.
  pose proof (N_to_uint_nonnil n) as Hd.
  assert (NilZero.string_of_uint (N.to_uint n)
          = NilEmpty.string_of_uint (N.to_uint n)) as ->.
  { by destruct (N.to_uint n). }
  rewrite read_int_uint by done.
  by rewrite <- horner_of_uint, DecimalN.Unsigned.of_to.
Qed.

Lemma digit_of_char (d : Z) :
  (0 <= d < 10)%Z -> digit_of (digit_char d) = Some d /\
                     is_digit (digit_char d) = true.
Proof.
  intros Hd. unfold digit_of, is_digit, digit_char.
  rewrite nat_ascii_embedding by lia.
  assert ((48 <=? 48 + Z.to_nat d) = true) as -> by (apply Nat.leb_le; lia).
  assert ((48 + Z.to_nat d <=? 57) = true) as -> by (apply Nat.leb_le; lia).
  split; [|done]. simpl. f_equal. lia.
Qed.

Lemma frac_digit (n : nat) (r : Z) :
  (0 <= r < 10 ^ Z.of_nat (S n))%Z ->
  (0 <= r / 10 ^ Z.of_nat n < 10)%Z /\
  (0 <= r mod 10 ^ Z.of_nat n < 10 ^ Z.of_nat n)%Z.
Proof.
  intros Hr. rewrite Nat2Z.inj_succ, Z.pow_succ_r in Hr by lia.
  assert (0 < 10 ^ Z.of_nat n)%Z by (apply Z.pow_pos_nonneg; lia).
  split; [|by apply Z.mod_pos_bound].
  split; [apply Z.div_pos; lia|apply Z.div_lt_upper_bound; lia].
Qed.

Lemma read_write_frac (n : nat) (r acc : Z) :
  (0 <= r < 10 ^ Z.of_nat n)%Z ->
  read_frac (write_frac n r) (10 ^ Z.of_nat n / 10) acc = Some (acc + r)%Z.
Proof.
  revert r acc. induction n as [|n IH]; intros r acc Hr.
  - simpl in *. f_equal. lia.
  - destruct (frac_digit n r Hr) as [Hd Hm].
    cbn [write_frac read_frac].
    destruct (digit_of_char _ Hd) as [-> _].
    assert (Hw : (10 ^ Z.of_nat (S n) / 10 = 10 ^ Z.of_nat n)%Z).
    { rewrite Nat2Z.inj_succ, Z.pow_succ_r by lia.
      rewrite Z.mul_comm, Z.div_mul by lia. reflexivity. }
    rewrite Hw.
    assert (0 < 10 ^ Z.of_nat n)%Z by (apply Z.pow_pos_nonneg; lia).
    assert ((10 ^ Z.of_nat n =? 0)%Z = false) as -> by (apply Z.eqb_neq; lia).
    rewrite IH by done. f_equal.
    pose proof (Z.div_mod r (10 ^ Z.of_nat n)). lia.
Qed.

Lemma write_frac_digits (n : nat) (r : Z) :
  (0 <= r < 10 ^ Z.of_nat n)%Z -> all_chars is_digit (write_frac n r) = true.
Proof.
  revert r. induction n as [|n IH]; intros r Hr; [done|].
  destruct (frac_digit n r Hr) as [Hd Hm].
  cbn [write_frac all_chars].
  destruct (digit_of_char _ Hd) as [_ ->]. by apply IH.
Qed.

Lemma all_digits_span (s : string) :
  all_chars is_digit s = true -> span_digits s = (s, EmptyString).
Proof.
  induction s as [|c s IH]; [done|]. simpl.
  intros [-> Hs]%andb_prop. by rewrite IH.
Qed.

Lemma abs_parts (x : Z) :
  (0 <= Z.abs x / unit_scale)%Z /\
  (0 <= Z.abs x mod unit_scale < 10 ^ Z.of_nat 6)%Z /\
  (Z.abs x / unit_scale * unit_scale + Z.abs x mod unit_scale = Z.abs x)%Z.
Proof.
  unfold unit_scale. change (10 ^ Z.of_nat 6)%Z with 1000000%Z.
  pose proof (Z.div_mod (Z.abs x) 1000000).
  pose proof (Z.mod_pos_bound (Z.abs x) 1000000).
  assert (0 <= Z.abs x / 1000000)%Z by (apply Z.div_pos; lia).
  lia.
Qed.

Lemma read_int_parts (x : Z) :
  read_int (N_repr (Z.to_N (Z.abs x / unit_scale))
            +:+ String "." (write_frac 6 (Z.abs x mod unit_scale))) 0 false
  = Some (Z.abs x).
Proof.
  destruct (abs_parts x) as (Hq & Hr & Hx).
  rewrite read_int_repr. cbn [read_int].
  change (Ascii.eqb "." ".") with true. cbv iota.
  change (unit_scale / 10)%Z with (10 ^ Z.of_nat 6 / 10)%Z.
  rewrite read_write_frac by done. f_equal. rewrite Z2N.id by done. exact Hx.
Qed.

Lemma of_str_repr (x : Z) : of_str (repr x) = Some x.
Proof.
  unfold repr. destruct (Z.ltb_spec x 0) as [Hneg|Hpos].
  - change ("-" +:+ ?s) with (String "-" s). unfold of_str.
    change (Ascii.eqb "-" "-") with true. cbv iota.
    rewrite read_int_parts. simpl. f_equal. lia.
  - change ("" +:+ ?s) with s.
    destruct (N_repr_head (Z.to_N (Z.abs x / unit_scale))) as (c & s & Hc & Hdig).
    pose proof (read_int_parts x) as Hread. rewrite Hc in *.
    rewrite append_cons in *. unfold of_str.
    assert (Ascii.eqb c "-" = false) as ->.
    { destruct (Ascii.eqb_spec c "-"%char) as [->|]; [discriminate|done]. }
    rewrite Hread. f_equal. lia.
Qed.

Lemma number_grammar_minus (n : N) (rest : string) :
  stops_digits rest = true ->
  number_grammar (String "-" (N_repr n +:+ rest)) =
    number_grammar (N_repr n +:+ rest).
Proof.
  intros Hrest. destruct (N_repr_digits n) as [Hspan _].
  rewrite number_grammar_unsigned by done.
  unfold number_grammar. cbv beta iota. rewrite Ascii.eqb_refl.
  rewrite (span_digits_app _ _ Hspan Hrest), canonical_repr. reflexivity.
Qed.

Lemma repr_shape (x : Z) : number_shape (repr x) = Some true.
Proof.
  destruct (abs_parts x) as (Hq & Hr & Hx).
  pose proof (write_frac_digits 6 _ Hr) as Hdig.
  set (n := Z.to_N (Z.abs x / unit_scale)) in *.
  set (frac := write_frac 6 (Z.abs x mod unit_scale)) in *.
  assert (Hne : exists c s, frac = String c s).
  { subst frac. cbn [write_frac]. eauto. }
  assert (Hg : number_grammar (N_repr n +:+ String "." frac) = Some true).
  { rewrite number_grammar_unsigned by reflexivity.
    change (Ascii.eqb "." ".") with true. cbv iota.
    rewrite (all_digits_span _ Hdig). by destruct Hne as (c & s & ->). }
  assert (Hc : all_chars is_number_char (N_repr n +:+ String "." frac) = true).
  { rewrite all_chars_app, N_repr_number_chars. cbn [all_chars andb].
    change (is_number_char ".") with true. cbv iota.
    apply (all_chars_impl is_digit); [|done].
    intros c Hcd. unfold is_number_char. by rewrite Hcd. }
  unfold repr. fold n frac. unfold number_shape.
  destruct (x <? 0)%Z.
  - change ("-" +:+ ?s) with (String "-" s).
    cbn [all_chars]. change (is_number_char "-") with true. cbv iota.
    rewrite Hc, number_grammar_minus by reflexivity. exact Hg.
  - change ("" +:+ ?s) with s. by rewrite Hc.
Qed.

End FixedTextProofs.

(** ** The cache store *)

Section CacheProofs.
Context `{PyFloatText}.
Variable CACHE_FILE : string.

(** C9. The cache round trip is lossless: a JSON-representable payload
    (None, booleans, integers, finite floats, strings, lists, dicts with
    distinct string keys), written by [write_cache] and read back by
    [load_cache], is the same payload, with the same values and the same
    keys in the same order, whatever the file system held before. *)
Theorem cache_round_trip (payload : json) (fs : files) :
  storable payload = true ->
  load_cache CACHE_FILE (write_cache CACHE_FILE payload fs) = payload.
Proof.
  intros Hst. unfold load_cache, write_cache.
  by rewrite dict_lookup_set, json_loads_dumps.
Qed.

Lemma load_cache_missing (fs : files) :
  dict_lookup fs CACHE_FILE = None -> load_cache CACHE_FILE fs = JNull.
Proof. intros Hm. unfold load_cache. by rewrite Hm. Qed.

End CacheProofs.

(** ** The size of the trend chart *)

Section TimeseriesBounds.
Context `{PyFloat}.

Lemma stride_from_covers {A} (step skip : nat) (l : list A) :
  0 < step -> skip < step ->
  length l <= length (stride_from step skip l) * step + skip.
Proof.
  intros Hstep. revert skip.
  induction l as [|x l IH]; intros skip Hskip; simpl; [lia|].
  destruct skip as [|k]; simpl.
  - specialize (IH (step - 1)). lia.
  - specialize (IH k). lia.
Qed.

Lemma thin_floor (ts : list ts_point) :
  60 < length ts -> 60 <= length (thin ts).
Proof.
  intros Hlong. unfold thin.
  destruct (Nat.ltb_spec 60 (length ts)) as [_|]; [|lia].
  set (n := length ts) in *. set (k := n / 60).
  assert (1 <= k) by (apply Nat.div_le_lower_bound; lia).
  assert (60 * k <= n) by (unfold k; apply Nat.Div0.mul_div_le).
  replace (Nat.max 1 k) with k by lia.
  pose proof (stride_from_covers k 0 ts) as Hlen. fold n in Hlen.
  unfold stride. nia.
Qed.

Lemma thin_head (ts : list ts_point) : head (thin ts) = head ts.
Proof.
  unfold thin. destruct (60 <? length ts); [|done]. by destruct ts.
Qed.

(** X1.  For plasma and magnetic-field tables of the documented shape, the
    trend chart that [parse_solar_wind] returns is a sub-sequence of the
    points of the valid rows, in their order, that begins with the first of
    them; it has fewer than 120 points; up to 60 points all are kept, and
    when there are more than 60 the thinning leaves at least 60. *)
Theorem timeseries_bounds (plasma_raw mag_raw : json) :
  is_table plasma_raw = true -> is_table mag_raw = true ->
  exists r, parse_solar_wind plasma_raw mag_raw = Ok r /\
    let points := omap ts_point_of (data_rows plasma_raw) in
    sw_timeseries r `sublist_of` points /\
    head (sw_timeseries r) = head points /\
    length (sw_timeseries r) < 120 /\
    (length points <= 60 -> sw_timeseries r = points) /\
    (60 < length points -> 60 <= length (sw_timeseries r)).
Proof.
  intros Hp Hm.
  destruct (parse_solar_wind_timeseries _ _ Hp Hm) as (r & Hr & Hts).
  exists r. split; [exact Hr|]. cbv zeta. rewrite Hts.
  split; [apply thin_sublist|]. split; [apply thin_head|].
  split; [apply thin_length|]. split; [apply thin_short|apply thin_floor].
Qed.

End TimeseriesBounds.

(** ** The two blocks of the solar wind parser *)

Section SolarWindFrames.
Context `{PyFloat}.

(** The fields of [r] with the bz and bt of [rm]. *)
Definition with_mag (rm r : solar_wind) : solar_wind :=
  set_bt (sw_bt rm) (set_bz (sw_bz rm) r).

Definition same_mag (r r0 : solar_wind) : Prop :=
  sw_bz r = sw_bz r0 /\ sw_bt r = sw_bt r0.

Lemma with_mag_same (r r0 : solar_wind) :
  same_mag r r0 -> with_mag r0 r = r.
Proof. intros [Hbz Hbt]. unfold with_mag. destruct r; simpl in *. by subst. Qed.

(** The magnetic-field loop reads and writes bz and bt only: on any rows,
    its run from [r] is its run from [r0] with the other fields of [r]. *)
Lemma mag_loop_state (rows : list json) (r r0 : solar_wind) :
  same_mag r r0 ->
  for_try row_handler mag_body rows r =
    (with_mag (for_try row_handler mag_body rows r0).1 r,
     (for_try row_handler mag_body rows r0).2).
Proof.
  revert r r0. induction rows as [|row rows IH]; intros r r0 Hsame.
  - simpl. by rewrite with_mag_same.
  - cbn [for_try]. rewrite !mag_body_eq.
    destruct (float_at row 3) as [bz|e3]; cbv zeta.
    + destruct (float_at row 4) as [bt|e4].
      * reflexivity.
      * destruct (row_handler e4).
        -- rewrite (IH _ (set_bz (Some (round_nd bz 1)) r0))
             by (destruct Hsame; split; simpl; done).
           reflexivity.
        -- simpl. unfold with_mag. destruct Hsame as [_ Hbt].
           destruct r, r0; simpl in *. by subst.
    + destruct (row_handler e3).
      * by apply IH.
      * simpl. by rewrite with_mag_same.
Qed.

Lemma latest_loop_mag (rows : list json) (r : solar_wind) :
  same_mag (for_try row_handler latest_body rows r).1 r.
Proof.
  revert r. induction rows as [|row rows IH]; intros r; [done|].
  cbn [for_try]. rewrite latest_body_eq.
  destruct (float_at row 1) as [d|e1]; cbv zeta.
  - destruct (float_at row 2) as [s|e2].
    + destruct (subscript row 0) as [t|e0]; [done|].
      destruct (row_handler e0); [|done].
      by destruct (IH (set_speed (Some (round_nd s 0))
                         (set_density (Some (round_nd d 1)) r))).
    + destruct (row_handler e2); [|done].
      by destruct (IH (set_density (Some (round_nd d 1)) r)).
  - destruct (row_handler e1); [apply IH|done].
Qed.

Lemma timeseries_loop_mag (rows : list json) (r : solar_wind) :
  same_mag (for_try row_handler timeseries_body rows r).1 r.
Proof.
  revert r. induction rows as [|row rows IH]; intros r; [done|].
  cbn [for_try]. rewrite timeseries_body_eq.
  destruct (float_at row 2) as [spd|e2].
  - destruct (float_gt_Z spd 0); [|apply IH].
    destruct (subscript row 0) as [t|e0].
    + by destruct (IH (set_timeseries
        (fun ts => ts ++ [{| ts_time := t; ts_speed := round_nd spd 0 |}]) r)).
    + destruct (row_handler e0); [apply IH|done].
  - destruct (row_handler e2); [apply IH|done].
Qed.

(** The plasma block leaves bz and bt as they are, whatever the rows. *)
Lemma plasma_block_mag (plasma_raw : json) (r : solar_wind) :
  same_mag (plasma_block plasma_raw r).1 r.
Proof.
  unfold plasma_block. destruct (truthy plasma_raw); [|done].
  stmt_unfold. destruct (slice_from 1 plasma_raw) as [rows|e]; [|done].
  pose proof (latest_loop_mag (reverse rows) r) as [Hbz Hbt].
  destruct (for_try row_handler latest_body (reverse rows) r) as [r1 [[]|e1]];
    [|done].
  pose proof (timeseries_loop_mag rows r1) as [Hbz2 Hbt2].
  destruct (for_try row_handler timeseries_body rows r1) as [r2 [[]|e2]];
    split; simpl in *; congruence.
Qed.

Lemma mag_block_state (mag_raw : json) (r r0 : solar_wind) :
  same_mag r r0 ->
  mag_block mag_raw r =
    (with_mag (mag_block mag_raw r0).1 r, (mag_block mag_raw r0).2).
Proof.
  intros Hsame. unfold mag_block. destruct (truthy mag_raw).
  - stmt_unfold. destruct (slice_from 1 mag_raw) as [rows|e].
    + by apply mag_loop_state.
    + simpl. by rewrite with_mag_same.
  - simpl. unfold mret, stmt_ret. simpl. by rewrite with_mag_same.
Qed.

Lemma parse_plasma_only (plasma_raw : json) :
  parse_solar_wind plasma_raw JNull =
    match plasma_block plasma_raw solar_wind_init with
    | (r, Ok _) => Ok r
    | (_, Raise e) => Raise e
    end.
Proof.
  unfold parse_solar_wind, run. stmt_unfold.
  by destruct (plasma_block plasma_raw solar_wind_init) as [r [[]|e]].
Qed.

(** X2.  The two tables are parsed independently of each other: the result
    of [parse_solar_wind] on a plasma table and a magnetic-field table has
    the speed, density, timestamp and trend chart of the call on the plasma
    table alone, and the bz and bt of the call on the magnetic-field table
    alone; it raises what the plasma table alone raises, else what the
    magnetic-field table alone raises. *)
Theorem parse_solar_wind_splits (plasma_raw mag_raw : json) :
  parse_solar_wind plasma_raw mag_raw =
    rp ← parse_solar_wind plasma_raw JNull;
    rm ← parse_solar_wind JNull mag_raw;
    mret {| sw_speed := sw_speed rp; sw_density := sw_density rp;
            sw_bz := sw_bz rm; sw_bt := sw_bt rm;
            sw_timestamp := sw_timestamp rp;
            sw_timeseries := sw_timeseries rp |}.
Proof.
  rewrite parse_plasma_only.
  change (parse_solar_wind JNull mag_raw)
    with (match mag_block mag_raw solar_wind_init with
          | (r, Ok _) => Ok r
          | (_, Raise e) => Raise e
          end).
  unfold parse_solar_wind, run. stmt_unfold.
  pose proof (plasma_block_mag plasma_raw solar_wind_init) as Hsame.
  destruct (plasma_block plasma_raw solar_wind_init) as [r1 [[]|e1]];
    [|reflexivity].
  simpl in Hsame. rewrite (mag_block_state mag_raw r1 solar_wind_init Hsame).
  destruct (mag_block mag_raw solar_wind_init) as [rm [[]|e2]]; reflexivity.
Qed.

(** Once a row with both bz and bt is met, the loop stops: what follows it
    in the order of the visit is not read. *)
Lemma mag_loop_stops (pre post post' : list json) (row : json)
    (r : solar_wind) :
  mag_valid row = true ->
  for_try row_handler mag_body (pre ++ row :: post) r =
  for_try row_handler mag_body (pre ++ row :: post') r.
Proof.
  intros Hvalid. revert r. induction pre as [|x pre IH]; intros r.
  - cbn [app for_try]. rewrite mag_body_eq. unfold mag_valid in Hvalid.
    destruct (float_at row 3); [|discriminate].
    destruct (float_at row 4); [|discriminate]. reflexivity.
  - cbn [app for_try].
    destruct (mag_body x r) as [r' [[]|e]]; [apply IH|reflexivity|].
    destruct (row_handler e); [apply IH|reflexivity].
Qed.

(** X3.  The magnetic-field loop goes from the newest row back and stops
    at the first row whose bz and bt both convert.  The header and the rows
    older than that row are never read: whatever they are, malformed ones
    included, the result and the exception are the same. *)
Theorem mag_older_rows_unread
    (plasma_raw hdr hdr' row : json) (older older' newer : list json) :
  mag_valid row = true ->
  parse_solar_wind plasma_raw (JList (hdr :: older ++ row :: newer)) =
  parse_solar_wind plasma_raw (JList (hdr' :: older' ++ row :: newer)).
Proof.
  intros Hvalid. unfold parse_solar_wind, run. stmt_unfold.
  destruct (plasma_block plasma_raw solar_wind_init) as [r1 [[]|e1]];
    [|reflexivity].
  unfold mag_block. cbn [truthy slice_from elements_of]. stmt_unfold.
  rewrite !skipn_cons, !drop_0.
  rewrite !reverse_app, !reverse_cons, <- !app_assoc. cbn [app].
  by rewrite (mag_loop_stops (reverse newer) (reverse older) (reverse older')).
Qed.

End SolarWindFrames.

(** ** Rows that are JSON objects *)

Section ObjectRows.
Context `{PyFloat}.

Lemma kp_loop_object (before after : list json) (d : dict json)
    (acc : list kp_reading) :
  forallb is_row before = true ->
  (for_try row_handler kp_body (before ++ JDict d :: after) acc).2
    = Raise KeyError.
Proof.
  intros Hrows. revert acc.
  induction before as [|row before IH]; intros acc.
  - cbn [app for_try]. rewrite kp_body_eq. reflexivity.
  - cbn [app for_try]. simpl in Hrows. apply andb_prop in Hrows as [Hrow Hrows].
    rewrite kp_body_eq.
    pose proof (subscript_handled row 0 Hrow) as H0.
    pose proof (float_at_handled row 1 Hrow) as H1.
    destruct (subscript row 0) as [t|e0]; simpl in H0.
    + destruct (float_at row 1) as [k|e1]; simpl in H1.
      * by apply IH.
      * rewrite H1. by apply IH.
    + rewrite H0. by apply IH.
Qed.

Lemma timeseries_loop_object (before after : list json) (d : dict json)
    (r : solar_wind) :
  forallb is_row before = true ->
  (for_try row_handler timeseries_body (before ++ JDict d :: after) r).2
    = Raise KeyError.
Proof.
  intros Hrows. revert r.
  induction before as [|row before IH]; intros r.
  - cbn [app for_try]. rewrite timeseries_body_eq. reflexivity.
  - cbn [app for_try]. simpl in Hrows. apply andb_prop in Hrows as [Hrow Hrows].
    rewrite timeseries_body_eq.
    pose proof (float_at_handled row 2 Hrow) as H2.
    pose proof (subscript_handled row 0 Hrow) as H0.
    destruct (float_at row 2) as [spd|e2]; simpl in H2.
    + destruct (float_gt_Z spd 0); [|by apply IH].
      destruct (subscript row 0) as [t|e0]; simpl in H0; [by apply IH|].
      rewrite H0. by apply IH.
    + rewrite H2. by apply IH.
Qed.

(** The latest-reading loop ends before the object, at a valid row, or
    raises at the object. *)
Lemma latest_loop_object (pre post : list json) (d : dict json)
    (r : solar_wind) :
  forallb is_row pre = true ->
  (for_try row_handler latest_body (pre ++ JDict d :: post) r).2 = Ok tt \/
  (for_try row_handler latest_body (pre ++ JDict d :: post) r).2
    = Raise KeyError.
Proof.
  intros Hrows. revert r.
  induction pre as [|row pre IH]; intros r.
  - right. cbn [app for_try]. rewrite latest_body_eq. reflexivity.
  - cbn [app for_try]. simpl in Hrows. apply andb_prop in Hrows as [Hrow Hrows].
    rewrite latest_body_eq.
    pose proof (float_at_handled row 1 Hrow) as H1.
    pose proof (float_at_handled row 2 Hrow) as H2.
    pose proof (subscript_handled row 0 Hrow) as H0.
    destruct (float_at row 1) as [x|e1]; simpl in H1; cbv zeta.
    + destruct (float_at row 2) as [s|e2]; simpl in H2.
      * destruct (subscript row 0) as [t|e0]; simpl in H0; [by left|].
        rewrite H0. by apply IH.
      * rewrite H2. by apply IH.
    + rewrite H1. by apply IH.
Qed.

(** X4.  A data row that is a JSON object instead of an array makes
    [parse_kp] and [parse_solar_wind] raise KeyError, which the handler of
    the row loops does not catch: one such row among rows of the documented
    shape, wherever it stands, and the whole table is lost. *)
Theorem object_row_raises (hdr mag_raw : json) (before after : list json)
    (d : dict json) :
  forallb is_row before = true -> forallb is_row after = true ->
  parse_kp (JList (hdr :: before ++ JDict d :: after)) = Raise KeyError /\
  parse_solar_wind (JList (hdr :: before ++ JDict d :: after)) mag_raw
    = Raise KeyError.
Proof.
  intros Hbefore Hafter. split.
  - unfold parse_kp. cbn [truthy negb slice_from elements_of mbind result_bind].
    rewrite skipn_cons, drop_0. unfold run.
    pose proof (kp_loop_object before after d [] Hbefore) as Hloop.
    by destruct (for_try row_handler kp_body _ []) as [s [[]|e]];
      simpl in Hloop; [|injection Hloop as ->].
  - unfold parse_solar_wind, run. stmt_unfold.
    unfold plasma_block. cbn [truthy slice_from elements_of]. stmt_unfold.
    rewrite skipn_cons, drop_0.
    rewrite reverse_app, reverse_cons, <- app_assoc. cbn [app].
    assert (Hrev : forallb is_row (reverse after) = true)
      by by rewrite forallb_reverse.
    pose proof (latest_loop_object (reverse after) (reverse before) d
                  solar_wind_init Hrev) as Hlatest.
    destruct (for_try row_handler latest_body _ solar_wind_init)
      as [r1 [[]|e1]]; simpl in Hlatest.
    + pose proof (timeseries_loop_object before after d r1 Hbefore) as Hts.
      by destruct (for_try row_handler timeseries_body _ r1) as [r2 [[]|e2]];
        simpl in Hts; [|injection Hts as ->].
    + by destruct Hlatest as [|[= ->]].
Qed.

End ObjectRows.

(** ** What the alerts and scales parsers raise *)

Section AlertErrors.
Context `{PyFloat}.

Lemma alert_of_malformed (item : json) :
  is_alert_record item = false -> alert_of item = Raise AttributeError.
Proof.
  destruct item as [| | | | | |d]; try reflexivity.
  unfold is_alert_record, alert_of. cbn [dict_get mbind result_bind].
  destruct (dict_lookup d "message") as [[| | | |s| |]|]; try discriminate;
    reflexivity.
Qed.

(** The loop over the records, whatever they are. *)
Lemma alerts_loop_total (items : list json) (acc : list alert) :
  for_each (fun item alerts => a ← alert_of item; mret (alerts ++ [a]))
    items acc =
  if forallb is_alert_record items
  then Ok (acc ++ (alert_summary <$> items))
  else Raise AttributeError.
Proof.
  revert acc. induction items as [|item items IH]; intros acc.
  - simpl. by rewrite app_nil_r.
  - rewrite for_each_cons. cbn [forallb].
    destruct (is_alert_record item) eqn:Hitem.
    + rewrite alert_of_record by done. cbn [mbind result_bind mret result_ret].
      rewrite IH. cbn [andb]. destruct (forallb is_alert_record items); [|done].
      by rewrite <- app_assoc.
    + by rewrite alert_of_malformed.
Qed.

Lemma parse_alerts_malformed (items : list json) :
  is_alerts (JList items) = false ->
  parse_alerts (JList items) = Raise AttributeError.
Proof.
  unfold parse_alerts, is_alerts. destruct items as [|item items]; [done|].
  intros Hbad. cbn [truthy negb slice_to elements_of mbind result_bind].
  by rewrite alerts_loop_total, Hbad.
Qed.

(** X5.  On a JSON array, [parse_alerts] either returns the summaries of
    the first five elements or raises AttributeError, and it raises exactly
    when one of the first five elements is not an object or has a message
    that is not a string (null included): the [get] and [splitlines] calls
    of the loop have no handler.  Elements after the fifth never matter. *)
Theorem parse_alerts_total (items : list json) :
  parse_alerts (JList items) =
    if is_alerts (JList items)
    then Ok (alert_summary <$> take 5 items)
    else Raise AttributeError.
Proof.
  unfold parse_alerts, is_alerts. destruct items as [|item items]; [done|].
  cbn [truthy negb slice_to elements_of mbind result_bind].
  by rewrite alerts_loop_total.
Qed.

End AlertErrors.

Section ScaleErrors.
Context `{PyFloat}.

Lemma scale_body_malformed (current : dict json) (key : string)
    (res : dict scale_entry) :
  is_entry (dict_lookup current key) = false ->
  scale_body (JDict current) key res = Raise AttributeError.
Proof.
  unfold scale_body. cbn [dict_get mbind result_bind].
  destruct (dict_lookup current key) as [[| | | | | |e]|]; try discriminate;
    reflexivity.
Qed.

(** X6.  [parse_scales] is decided by the shape of its argument alone: on a
    falsy argument (None, an empty dict) and on a dict whose "0", G, S and R
    entries are dicts where they exist, it returns the three scales; on
    every other argument (a non-empty list, a "0" entry or a scale entry
    that is null or a string) it raises AttributeError, from a [get] call
    that no handler surrounds. *)
Theorem parse_scales_total (scales_raw : json) :
  parse_scales scales_raw =
    if truthy scales_raw && negb (is_scales scales_raw)
    then Raise AttributeError
    else Ok (scales_of scales_raw).
Proof.
  destruct (truthy scales_raw) eqn:Htruthy; cbn [andb].
  2: { unfold parse_scales, scales_of. by rewrite Htruthy. }
  destruct (is_scales scales_raw) eqn:Hshape; cbn [negb].
  { by apply parse_scales_result. }
  unfold parse_scales. rewrite Htruthy. cbn [negb].
  destruct scales_raw as [| | | | | |d]; try reflexivity.
  cbn [dict_get mbind result_bind]. unfold is_scales in Hshape.
  destruct (dict_lookup d "0") as [[| | | | | |current]|]; try discriminate;
    try reflexivity.
  cbn [default forallb] in *. unfold id.
  destruct (is_entry (dict_lookup current "G")) eqn:HG.
  2: { by rewrite for_each_cons, scale_body_malformed. }
  rewrite for_each_cons, scale_body_entry, bind_Ok by done.
  destruct (is_entry (dict_lookup current "S")) eqn:HS.
  2: { by rewrite for_each_cons, scale_body_malformed. }
  rewrite for_each_cons, scale_body_entry, bind_Ok by done.
  destruct (is_entry (dict_lookup current "R")) eqn:HR; [discriminate|].
  by rewrite for_each_cons, scale_body_malformed.
Qed.

Lemma dict_keys_set {V} (key : string) (v : V) (d : dict V) :
  key ∈ dict_keys d -> dict_keys (dict_set key v d) = dict_keys d.
Proof.
  unfold dict_keys. induction d as [|[k w] d IH]; intros Hin.
  - by apply elem_of_nil in Hin.
  - cbn [dict_set]. destruct (String.eqb_spec k key) as [->|Hne]; [done|].
    rewrite !fmap_cons. cbn [fst]. f_equal. apply IH.
    rewrite fmap_cons in Hin. apply elem_of_cons in Hin as [Heq|Hin]; [|done].
    simpl in Heq. congruence.
Qed.

Lemma dict_lookup_key {V} (key : string) (d : dict V) :
  key ∈ dict_keys d -> is_Some (dict_lookup d key).
Proof.
  unfold dict_keys. induction d as [|[k w] d IH]; intros Hin.
  - by apply elem_of_nil in Hin.
  - cbn [dict_lookup]. destruct (String.eqb_spec k key) as [->|Hne]; [eauto|].
    apply IH. rewrite fmap_cons in Hin.
    apply elem_of_cons in Hin as [Heq|Hin]; [|done]. simpl in Heq. congruence.
Qed.

Lemma scale_body_keys (current : json) (key : string)
    (res res' : dict scale_entry) :
  key ∈ dict_keys res -> scale_body current key res = Ok res' ->
  dict_keys res' = dict_keys res.
Proof.
  intros Hin. unfold scale_body.
  destruct (dict_get current key (JDict [])) as [entry|]; [|discriminate].
  cbn [mbind result_bind].
  destruct (dict_get entry "Scale" _) as [sc|]; [|discriminate].
  cbn [mbind result_bind].
  destruct (dict_get entry "Text" _) as [tx|]; [|discriminate].
  cbn [mbind result_bind mret result_ret]. intros [= <-].
  by apply dict_keys_set.
Qed.

(** Whatever the response, a result of [parse_scales] has the keys G, S
    and R. *)
Lemma parse_scales_has_keys (scales_raw : json) (r : dict scale_entry) :
  parse_scales scales_raw = Ok r -> dict_keys r = scale_keys.
Proof.
  unfold parse_scales. destruct (truthy scales_raw); cbn [negb].
  2: { by intros [= <-]. }
  destruct (dict_get scales_raw "0" (JDict [])) as [current|]; [|discriminate].
  cbn [mbind result_bind]. rewrite for_each_cons.
  destruct (scale_body current "G" scales_init) as [r1|] eqn:H1; [|discriminate].
  rewrite bind_Ok, for_each_cons.
  apply scale_body_keys in H1; [|repeat constructor].
  destruct (scale_body current "S" r1) as [r2|] eqn:H2; [|discriminate].
  rewrite bind_Ok, for_each_cons.
  apply scale_body_keys in H2;
    [|rewrite H1; apply list_elem_of_further, list_elem_of_here].
  destruct (scale_body current "R" r2) as [r3|] eqn:H3; [|discriminate].
  rewrite bind_Ok. cbn [for_each].
  apply scale_body_keys in H3;
    [|rewrite H2, H1; do 2 apply list_elem_of_further; apply list_elem_of_here].
  intros [= <-]. by rewrite H3, H2, H1.
Qed.

End ScaleErrors.

(** ** The aurora mapper on whole Kp values *)

Section AuroraIntegers.
Context `{PyFloat}.

Ltac settle_threshold z k :=
  cbn [au_latitude au_label]; replace (Z.min z 9) with k by lia;
  destruct (Z.ltb_spec z 0); [lia|];
  split; [done|]; split; [intros _; repeat constructor|lia].

(** X7.  On a Kp value that is a whole number, [aurora_visibility] returns
    that number as the latitude threshold, capped at 9, with the label of
    its row; a negative one gives "Not visible" with latitude None.  (The
    label "Not visible" thus comes with latitude 0 for Kp 0 and with None
    below 0.) *)
Theorem aurora_integer_kp (z : Z) (x : float) :
  (Z.abs z <= 2 ^ 53)%Z -> float_of_Z z = Some x ->
  au_latitude (aurora_visibility (Some x)) =
    (if (z <? 0)%Z then None else Some (Z.min z 9)) /\
  ((0 <= z)%Z ->
   (Z.min z 9, au_label (aurora_visibility (Some x))) ∈ aurora_table) /\
  ((z < 0)%Z -> au_label (aurora_visibility (Some x)) = "Not visible").
Proof.
  intros Hsmall Hx.
  unfold aurora_visibility, aurora_table. cbn [aurora_scan].
  rewrite !(float_ge_Z_exact z x) by done.
  destruct (Z.leb_spec 9 z); [settle_threshold z 9%Z|].
  destruct (Z.leb_spec 8 z); [settle_threshold z 8%Z|].
  destruct (Z.leb_spec 7 z); [settle_threshold z 7%Z|].
  destruct (Z.leb_spec 6 z); [settle_threshold z 6%Z|].
  destruct (Z.leb_spec 5 z); [settle_threshold z 5%Z|].
  destruct (Z.leb_spec 4 z); [settle_threshold z 4%Z|].
  destruct (Z.leb_spec 3 z); [settle_threshold z 3%Z|].
  destruct (Z.leb_spec 2 z); [settle_threshold z 2%Z|].
  destruct (Z.leb_spec 1 z); [settle_threshold z 1%Z|].
  destruct (Z.leb_spec 0 z); [settle_threshold z 0%Z|].
  cbn [au_latitude au_label]. destruct (Z.ltb_spec z 0); [|lia].
  split; [done|]. split; [lia|done].
Qed.

End AuroraIntegers.

(** ** The freshness policy on any payload *)

Section StampProofs.
Context `{PyFloat}.
Variable fromisoformat : string -> option datetime.

Lemma stale_outcome (now : Z) (payload : json) (max_age : Z) :
  if stamp_usable fromisoformat payload
  then returns (cache_is_stale fromisoformat now payload max_age) = true
  else cache_is_stale fromisoformat now payload max_age = Raise TypeError.
Proof.
  unfold stamp_usable, cache_is_stale.
  destruct payload as [| | | | | |d]; try reflexivity.
  cbn [item mbind result_bind]. unfold getitem.
  destruct (dict_lookup d "fetched_at") as [v|]; [|reflexivity].
  destruct v as [| | | |s| |]; try reflexivity.
  cbn [py_fromisoformat mbind result_bind].
  destruct (fromisoformat s) as [[t|t]|]; reflexivity.
Qed.

(** X8.  Staleness is monotone: a payload that [cache_is_stale] finds stale
    stays stale at every later time and under every smaller threshold. *)
Theorem cache_is_stale_monotone (now now' : Z) (payload : json)
    (max_age max_age' : Z) :
  (now <= now')%Z -> (max_age' <= max_age)%Z ->
  cache_is_stale fromisoformat now payload max_age = Ok true ->
  cache_is_stale fromisoformat now' payload max_age' = Ok true.
Proof.
  intros Hnow Hage. unfold cache_is_stale.
  destruct payload as [| | | | | |d]; try discriminate.
  cbn [item mbind result_bind]. unfold getitem.
  destruct (dict_lookup d "fetched_at") as [v|]; [|done].
  destruct v as [| | | |s| |]; try discriminate.
  cbn [py_fromisoformat mbind result_bind].
  destruct (fromisoformat s) as [[t|t]|]; [discriminate| |done].
  cbn [since mbind result_bind mret result_ret].
  intros [= Hstale]. f_equal. apply Z.ltb_lt in Hstale. apply Z.ltb_lt. lia.
Qed.

(** X9.  Whether [cache_is_stale] raises depends on the payload alone, not
    on the clock or the threshold, and TypeError is all it raises.  It
    returns for a dict without fetched_at or whose fetched_at is a string
    that [fromisoformat] rejects or reads with a UTC offset; it raises
    TypeError for everything else: a payload that is not a dict, a
    fetched_at that is not a string, and a timestamp without UTC offset
    (the subtraction from the aware current time). *)
Theorem cache_is_stale_raises (payload : json) :
  (stamp_usable fromisoformat payload = true ->
   forall now max_age,
     returns (cache_is_stale fromisoformat now payload max_age) = true) /\
  (stamp_usable fromisoformat payload = false ->
   forall now max_age,
     cache_is_stale fromisoformat now payload max_age = Raise TypeError).
Proof.
  split; intros Hshape now max_age;
    pose proof (stale_outcome now payload max_age) as Hout;
    rewrite Hshape in Hout; exact Hout.
Qed.

End StampProofs.

(** ** The aggregator on any responses *)

Section FetchFacts.
Context `{PyFloat}.
Variable http_get : string -> option json.
Variable now_iso : string.

Lemma fetch_all_responses :
  fetch_all http_get now_iso =
    solar_wind ← parse_solar_wind (response http_get "plasma")
                                  (response http_get "mag");
    kp ← parse_kp (response http_get "kp");
    scales ← parse_scales (response http_get "scales");
    alerts ← parse_alerts (response http_get "alerts");
    _ ← getitem scales "G";
    mret {| fetched_at := now_iso; p_solar_wind := solar_wind; p_kp := kp;
            p_scales := scales;
            p_aurora := aurora_visibility (kp_current kp);
            p_alerts := alerts |}.
Proof. reflexivity. Qed.

(** What a payload that [fetch_all] returned is made of. *)
Lemma fetch_all_inv (p : payload) :
  fetch_all http_get now_iso = Ok p ->
  fetched_at p = now_iso /\
  parse_alerts (response http_get "alerts") = Ok (p_alerts p) /\
  is_Some (dict_lookup (p_scales p) "G").
Proof.
  rewrite fetch_all_responses.
  destruct (parse_solar_wind _ _) as [sw|]; [|discriminate].
  cbn [mbind result_bind].
  destruct (parse_kp _) as [kp|]; [|discriminate]. cbn [mbind result_bind].
  destruct (parse_scales _) as [sc|]; [|discriminate]. cbn [mbind result_bind].
  destruct (parse_alerts _) as [al|]; [|discriminate]. cbn [mbind result_bind].
  unfold getitem. destruct (dict_lookup sc "G") as [g|] eqn:HG; [|discriminate].
  cbn [mbind result_bind mret result_ret]. intros [= <-].
  cbn [fetched_at p_scales p_alerts]. rewrite HG. eauto.
Qed.

(** X10.  [fetch_all] returns exactly when its four parsers return, with
    the payload of their results, the aurora of the parsed Kp and the time
    of the fetch; otherwise it raises what the first parser to fail raises,
    in the order solar wind, Kp, scales, alerts.  Nothing else in it can
    raise: the lookup [scales["G"]] of the log line always succeeds. *)
Theorem fetch_all_parsers :
  fetch_all http_get now_iso =
    solar_wind ← parse_solar_wind (response http_get "plasma")
                                  (response http_get "mag");
    kp ← parse_kp (response http_get "kp");
    scales ← parse_scales (response http_get "scales");
    alerts ← parse_alerts (response http_get "alerts");
    mret {| fetched_at := now_iso; p_solar_wind := solar_wind; p_kp := kp;
            p_scales := scales;
            p_aurora := aurora_visibility (kp_current kp);
            p_alerts := alerts |}.
Proof.
  rewrite fetch_all_responses.
  destruct (parse_solar_wind _ _) as [sw|]; [|reflexivity].
  cbn [mbind result_bind].
  destruct (parse_kp _) as [kp|]; [|reflexivity]. cbn [mbind result_bind].
  destruct (parse_scales _) as [sc|] eqn:Hsc; [|reflexivity].
  cbn [mbind result_bind].
  destruct (parse_alerts _) as [al|]; [|reflexivity]. cbn [mbind result_bind].
  destruct (dict_lookup_key "G" sc) as [g Hg].
  { rewrite (parse_scales_has_keys _ _ Hsc). apply list_elem_of_here. }
  unfold getitem. rewrite Hg. reflexivity.
Qed.

End FetchFacts.

(** ** The routes *)

Section RouteProofs.
Context `{PyFloatText}.
Variable fromisoformat : string -> option datetime.
Variable str_of_exn : exn -> string.
Variable em_dash : string.
Variable CACHE_FILE : string.

Lemma dict_lookup_fmap {V W} (f : V -> W) (d : dict V) (key : string) :
  dict_lookup (prod_map id f <$> d) key = f <$> dict_lookup d key.
Proof.
  induction d as [|[k v] d IH]; [done|].
  rewrite fmap_cons. cbn [prod_map dict_lookup fst snd id].
  by destruct (String.eqb k key).
Qed.

Lemma fetch_and_write_eq (http_get : string -> option json)
    (now_iso : string) (fs : files) :
  fetch_and_write CACHE_FILE http_get now_iso fs =
    match fetch_all http_get now_iso with
    | Ok p => (write_cache CACHE_FILE (payload_json p) fs, Ok (payload_json p))
    | Raise e => (fs, Raise e)
    end.
Proof.
  unfold fetch_and_write. stmt_unfold.
  by destruct (fetch_all http_get now_iso).
Qed.

(** X12.  A cache file that holds a document other than null for which
    [cache_is_stale] raises (a list, a fetched_at that is null, a timestamp
    without UTC offset) makes the route /space raise TypeError before any
    fetch, at every time and whatever the network answers; the files are
    left as they are, so the next request fails the same way. *)
Theorem space_poisoned_cache (http_get : string -> option json)
    (now : Z) (now_iso : string) (fs : files) :
  load_cache CACHE_FILE fs <> JNull ->
  stamp_usable fromisoformat (load_cache CACHE_FILE fs) = false ->
  space fromisoformat em_dash CACHE_FILE http_get now now_iso fs
    = (fs, Raise TypeError).
Proof.
  intros Hsome Hbad. unfold space, needs_refresh.
  pose proof (stale_outcome fromisoformat now
                (load_cache CACHE_FILE fs) default_max_age) as Hraise.
  rewrite Hbad in Hraise.
  destruct (load_cache CACHE_FILE fs); [done|by rewrite Hraise..].
Qed.

(** The [try] body of /space/refresh after a fetch that returned: none of
    its lookups raises. *)
Lemma refresh_body_ok (http_get : string -> option json)
    (now_iso : string) (fs : files) (p : payload) :
  fetch_all http_get now_iso = Ok p ->
  exists g, dict_lookup (p_scales p) "G" = Some g /\
    refresh_body CACHE_FILE http_get now_iso fs =
      (write_cache CACHE_FILE (payload_json p) fs,
       Ok (JDict [ ("ok", JBool true);
                   ("fetched_at", JStr now_iso);
                   ("solar_wind_speed",
                      opt_float_json (sw_speed (p_solar_wind p)));
                   ("bz", opt_float_json (sw_bz (p_solar_wind p)));
                   ("kp", opt_float_json (kp_current (p_kp p)));
                   ("g_scale", scale g) ])).
Proof.
  intros Hfetch.
  destruct (fetch_all_inv _ _ _ Hfetch) as (Hat & _ & [g HG]).
  exists g. split; [exact HG|]. unfold refresh_body.
  unfold mbind at 1. unfold stmt_bind at 1.
  rewrite fetch_and_write_eq, Hfetch.
  assert (Hscales : item (payload_json p) "scales" =
    Ok (JDict (prod_map id scale_entry_json <$> p_scales p))) by reflexivity.
  assert (Hg : item (JDict (prod_map id scale_entry_json <$> p_scales p)) "G"
    = Ok (scale_entry_json g)).
  { cbn [item]. unfold getitem. by rewrite dict_lookup_fmap, HG. }
  stmt_unfold.
  change (item (payload_json p) "fetched_at") with (Ok (JStr (fetched_at p))).
  change (item (payload_json p) "solar_wind")
    with (Ok (solar_wind_json (p_solar_wind p))).
  change (item (payload_json p) "kp") with (Ok (kp_index_json (p_kp p))).
  rewrite Hscales, Hg, Hat. reflexivity.
Qed.

(** X13.  The route /space/refresh answers 200 exactly when [fetch_all]
    returns: the cache file then holds the payload, and the body carries
    ok = true, the time of the fetch, and the speed, bz, Kp and G scale of
    that payload.  When [fetch_all] raises it answers 500 with ok = false
    and the text of the exception, and the files are as before.  It never
    answers 500 after having written the cache. *)
Theorem space_refresh_response (http_get : string -> option json)
    (now_iso : string) (fs : files) :
  match fetch_all http_get now_iso with
  | Ok p =>
      exists g, dict_lookup (p_scales p) "G" = Some g /\
        space_refresh str_of_exn CACHE_FILE http_get now_iso fs =
          (write_cache CACHE_FILE (payload_json p) fs,
           (JDict [ ("ok", JBool true);
                    ("fetched_at", JStr now_iso);
                    ("solar_wind_speed",
                       opt_float_json (sw_speed (p_solar_wind p)));
                    ("bz", opt_float_json (sw_bz (p_solar_wind p)));
                    ("kp", opt_float_json (kp_current (p_kp p)));
                    ("g_scale", scale g) ],
            200%Z))
  | Raise e =>
      space_refresh str_of_exn CACHE_FILE http_get now_iso fs =
        (fs, (JDict [("ok", JBool false); ("error", JStr (str_of_exn e))],
              500%Z))
  end.
Proof.
  unfold space_refresh.
  destruct (fetch_all http_get now_iso) as [p|e] eqn:Hfetch.
  - destruct (refresh_body_ok http_get now_iso fs p Hfetch) as (g & HG & ->).
    by exists g.
  - unfold refresh_body. unfold mbind at 1. unfold stmt_bind at 1.
    by rewrite fetch_and_write_eq, Hfetch.
Qed.

(** X14.  What the scheduled job or the refresh route fetched is what the
    dashboard shows for the next two hours: after [main] (or
    /space/refresh, which leaves the same files) has stored a payload with
    finite floats, a request to /space within 120 minutes of the fetch
    serves exactly that payload, without fetching and without writing,
    whatever the network would answer. *)
Theorem cached_payload_served (http_get http_get' : string -> option json)
    (now_iso now_iso' : string) (now t : Z) (p : payload) (fs : files) :
  fetch_all http_get now_iso = Ok p ->
  storable (payload_json p) = true ->
  fromisoformat now_iso = Some (Aware t) ->
  (now - t <= minutes default_max_age)%Z ->
  let fs' := (main CACHE_FILE http_get now_iso fs).1 in
  fs' = (space_refresh str_of_exn CACHE_FILE http_get now_iso fs).1 /\
  space fromisoformat em_dash CACHE_FILE http_get' now now_iso' fs'
    = (fs', Ok (payload_json p)).
Proof.
  intros Hfetch Hst Hiso Hage.
  assert (Hmain : (main CACHE_FILE http_get now_iso fs).1 =
                  write_cache CACHE_FILE (payload_json p) fs).
  { unfold main. unfold mbind, stmt_bind.
    by rewrite fetch_and_write_eq, Hfetch. }
  cbv zeta. rewrite Hmain. split.
  - unfold space_refresh.
    by destruct (refresh_body_ok http_get now_iso fs p Hfetch) as (g & _ & ->).
  - unfold space.
    assert (Hload : load_cache CACHE_FILE
              (write_cache CACHE_FILE (payload_json p) fs) = payload_json p).
    { unfold load_cache, write_cache.
      by rewrite dict_lookup_set, json_loads_dumps. }
    rewrite Hload.
    destruct (fetch_all_inv _ _ _ Hfetch) as (Hat & _).
    unfold needs_refresh, payload_json, cache_is_stale.
    change (item (JDict (payload_fields p)) "fetched_at")
      with (Ok (JStr (fetched_at p))).
    rewrite Hat. cbn [mbind result_bind py_fromisoformat]. rewrite Hiso.
    cbn [mbind result_bind since mret result_ret].
    unfold minutes in Hage.
    assert ((default_max_age * 60 * 1000000 <? now - t)%Z = false) as ->
      by (apply Z.ltb_ge; lia).
    reflexivity.
Qed.

(** X15.  One malformed record blanks the dashboard: when the cache file
    is missing and one of the first five elements of the alerts response is
    not an object or has a null message, [fetch_all] raises, whatever the
    other four endpoints answer, and the route /space serves the fallback
    dict ("Unavailable" everywhere) and writes no cache. *)
Theorem malformed_alert_blanks_dashboard
    (http_get : string -> option json) (items : list json)
    (now : Z) (now_iso : string) (fs : files) :
  http_get (endpoint "alerts") = Some (JList items) ->
  is_alerts (JList items) = false ->
  load_cache CACHE_FILE fs = JNull ->
  (exists e, fetch_all http_get now_iso = Raise e) /\
  space fromisoformat em_dash CACHE_FILE http_get now now_iso fs
    = (fs, Ok (fallback em_dash)).
Proof.
  intros Hget Hbad Hmiss.
  assert (Hraise : exists e, fetch_all http_get now_iso = Raise e).
  { destruct (fetch_all http_get now_iso) as [p|e] eqn:Hfetch; [|eauto].
    destruct (fetch_all_inv _ _ _ Hfetch) as (_ & Halerts & _).
    unfold response, fetch_json in Halerts. rewrite Hget in Halerts.
    rewrite parse_alerts_malformed in Halerts by done. discriminate. }
  split; [exact Hraise|]. destruct Hraise as [e Hraise].
  unfold space. rewrite Hmiss. cbn [needs_refresh].
  by rewrite fetch_and_write_eq, Hraise.
Qed.

End RouteProofs.

(** ** The text of the cache file *)

Section TextProofs.
Context `{PyFloatText}.

Lemma number_char_text (c : ascii) :
  is_number_char c = true -> is_text_char c = true.
Proof. destruct c as [[] [] [] [] [] [] [] []]; try discriminate; reflexivity. Qed.

Lemma float_text_chars (x : float) :
  all_chars is_text_char (float_text x) = true.
Proof.
  unfold float_text. destruct (float_kind x) eqn:Hk; try reflexivity.
  apply (all_chars_impl is_number_char); [apply number_char_text|].
  by destruct (number_shape_chars _ _ (float_repr_shape x Hk)).
Qed.

Lemma escape_char_text (c : ascii) :
  all_chars is_text_char (escape_char c) = true.
Proof. destruct c as [[] [] [] [] [] [] [] []]; reflexivity. Qed.

Lemma encode_str_text (s : string) :
  all_chars is_text_char (encode_str s) = true.
Proof.
  unfold encode_str. cbn [all_chars]. rewrite all_chars_app.
  assert (all_chars is_text_char (escape s) = true) as ->.
  { induction s as [|c s IH]; [done|]. cbn [escape].
    by rewrite all_chars_app, escape_char_text, IH. }
  reflexivity.
Qed.

Lemma newline_indent_text (level : nat) :
  all_chars is_text_char (newline_indent level) = true.
Proof.
  unfold newline_indent. rewrite all_chars_app.
  assert (forall n, all_chars is_text_char (spaces n) = true) as ->.
  { intros n. induction n as [|n IH]; [done|]. cbn [spaces all_chars].
    by rewrite IH. }
  reflexivity.
Qed.

Lemma str_join_text (sep : string) (chunks : list string) :
  all_chars is_text_char sep = true ->
  Forall (fun chunk => all_chars is_text_char chunk = true) chunks ->
  all_chars is_text_char (str_join sep chunks) = true.
Proof.
  intros Hsep Hall. induction Hall as [|chunk chunks Hchunk Hall IH]; [done|].
  destruct chunks as [|chunk' chunks]; [done|].
  change (str_join sep (chunk :: chunk' :: chunks))
    with (chunk +:+ sep +:+ str_join sep (chunk' :: chunks)).
  by rewrite !all_chars_app, Hchunk, Hsep, IH.
Qed.

Lemma encode_text (v : json) (level : nat) :
  all_chars is_text_char (encode level v) = true.
Proof.
  revert level.
  induction v as [|b|z|x|s|items IH|items IH] using json_nested_ind;
    intros level.
  - reflexivity.
  - by destruct b.
  - cbn [encode]. apply (all_chars_impl is_number_char);
      [apply number_char_text|apply Z_repr_number_chars].
  - apply float_text_chars.
  - apply encode_str_text.
  - destruct items as [|v items]; [reflexivity|].
    change (encode level (JList (v :: items)))
      with ("[" +:+ newline_indent (S level)
            +:+ str_join ("," +:+ newline_indent (S level))
                  (map (encode (S level)) (v :: items))
            +:+ newline_indent level +:+ "]").
    rewrite !all_chars_app, !newline_indent_text, str_join_text; [done| |].
    + by rewrite all_chars_app, newline_indent_text.
    + apply Forall_forall. intros chunk [w [-> Hw]]%list_elem_of_fmap.
      rewrite Forall_forall in IH. by apply IH.
  - destruct items as [|kv items]; [reflexivity|].
    change (encode level (JDict (kv :: items)))
      with ("{" +:+ newline_indent (S level)
            +:+ str_join ("," +:+ newline_indent (S level))
                  (map (fun kv => encode_str (fst kv) +:+ ": "
                                  +:+ encode (S level) (snd kv))
                       (kv :: items))
            +:+ newline_indent level +:+ "}").
    rewrite !all_chars_app, !newline_indent_text, str_join_text; [done| |].
    + by rewrite all_chars_app, newline_indent_text.
    + apply Forall_forall. intros chunk [w [-> Hw]]%list_elem_of_fmap.
      rewrite Forall_forall in IH.
      by rewrite !all_chars_app, encode_str_text, (IH w Hw).
Qed.

(** X16.  The text that [write_cache] stores in the cache file is
    [json.dumps(payload, indent=2)], and it holds nothing but printable
    ASCII characters and line feeds, whatever the strings of the payload:
    the file reads the same under every ASCII-compatible encoding. *)
Theorem write_cache_text (CACHE_FILE : string) (payload : json) (fs : files) :
  exists text,
    dict_lookup (write_cache CACHE_FILE payload fs) CACHE_FILE = Some text /\
    text = json_dumps payload /\
    all_chars is_text_char text = true.
Proof.
  exists (json_dumps payload). unfold write_cache.
  split; [apply dict_lookup_set|]. split; [reflexivity|]. apply encode_text.
Qed.

End TextProofs.

(** ** The concrete text of floats *)

Definition fixed_text : @PyFloatText Fixed.model :=
  {| float_repr := FixedText.repr : @float Fixed.model -> string;
     float_kind := FixedText.kind : @float Fixed.model -> float_class;
     float_repr_shape := fun x _ => FixedTextProofs.repr_shape x;
     float_repr_inverse := fun x _ => FixedTextProofs.of_str_repr x |}.

(* ================================================================== *)
(** * Examples on concrete inputs *)
(* ================================================================== *)

#[local] Existing Instance Fixed.model.
#[local] Existing Instance fixed_text.

Lemma latest_reading_witness :
  is_table ex_plasma = true /\ is_table JNull = true /\
  exists r, parse_solar_wind ex_plasma JNull = Ok r /\
    sw_density r = Some 5300000%Z /\
    sw_speed r = Some 450000000%Z /\
    sw_timestamp r = JStr "2026-02-19 00:01:00".
Proof.
  split; [reflexivity|]. split; [reflexivity|].
  destruct (latest_reading_most_recent_valid ex_plasma_header
              [ex_plasma_row "2026-02-19 00:00:00" "4.10" "398.2"]
              [JList [JStr "2026-02-19 00:02:00"; JNull; JNull; JNull]]
              (ex_plasma_row "2026-02-19 00:01:00" "5.26" "450.3")
              JNull 5260000%Z 450300000%Z
              eq_refl eq_refl eq_refl eq_refl eq_refl)
    as (r & Hr & Hd & Hs & Ht).
  exists r. split; [exact Hr|]. split; [exact Hd|]. split; [exact Hs|].
  simpl in Ht. by injection Ht.
Defined.

Lemma partial_update_witness :
  is_table ex_plasma_partial = true /\ is_table ex_mag_partial = true /\
  exists r, parse_solar_wind ex_plasma_partial ex_mag_partial = Ok r /\
    (forallb (fun row => negb (plasma_valid row)) (data_rows ex_plasma_partial)
       = true ->
     existsb (fun row => returns (float_at row 1)) (data_rows ex_plasma_partial)
       = true ->
     sw_speed r = None /\ sw_timestamp r = JNull /\
     exists row d, row ∈ data_rows ex_plasma_partial /\
       float_at row 1 = Ok d /\ returns (float_at row 2) = false /\
       sw_density r = Some (round_nd d 1)) /\
    (forallb (fun row => negb (mag_valid row)) (data_rows ex_mag_partial)
       = true ->
     existsb (fun row => returns (float_at row 3)) (data_rows ex_mag_partial)
       = true ->
     sw_bt r = None /\
     exists row bz, row ∈ data_rows ex_mag_partial /\
       float_at row 3 = Ok bz /\ returns (float_at row 4) = false /\
       sw_bz r = Some (round_nd bz 1)).
Proof.
  split; [reflexivity|]. split; [reflexivity|].
  exact (latest_reading_partial_update ex_plasma_partial ex_mag_partial
           eq_refl eq_refl).
Defined.

(** The conditions of the partial update hold for these tables, and this is
    what the parser returns for them. *)
Example partial_update_conditions :
  forallb (fun row => negb (plasma_valid row)) (data_rows ex_plasma_partial)
    = true /\
  existsb (fun row => returns (float_at row 1)) (data_rows ex_plasma_partial)
    = true /\
  forallb (fun row => negb (mag_valid row)) (data_rows ex_mag_partial) = true /\
  existsb (fun row => returns (float_at row 3)) (data_rows ex_mag_partial)
    = true.
Proof. repeat split. Qed.

Example partial_update_example :
  parse_solar_wind ex_plasma_partial ex_mag_partial =
    Ok {| sw_speed := None; sw_density := Some 4100000%Z;
          sw_bz := Some (-3200000)%Z; sw_bt := None;
          sw_timestamp := JNull;
          sw_timeseries :=
            [ {| ts_time := JStr "2026-02-19 00:01:00";
                 ts_speed := 450000000%Z |} ] |}.
Proof. reflexivity. Qed.

Lemma parse_kp_witness :
  is_table ex_kp = true /\
  exists r, parse_kp ex_kp = Ok r /\
    let readings := omap kp_reading_of (data_rows ex_kp) in
    kp_history r = last_n 24 readings /\
    length (kp_history r) <= 24 /\
    kp_history r `suffix_of` readings /\
    kp_current r = kp_value <$> last readings /\
    (kp_history r <> [] -> kp_current r = kp_value <$> last (kp_history r)).
Proof. split; [reflexivity | exact (parse_kp_history ex_kp eq_refl)]. Defined.

Example parse_kp_example :
  parse_kp ex_kp =
    Ok {| kp_current := Some 4000000%Z;
          kp_history :=
            [ {| kp_time := JStr "2026-02-19 00:00:00"; kp_value := 3330000%Z |};
              {| kp_time := JStr "2026-02-19 06:00:00"; kp_value := 4000000%Z |} ] |}.
Proof. reflexivity. Qed.

Lemma parse_alerts_first_impacts_counterexample :
  exists a, parse_alerts ex_alerts = Ok [a] /\
    headline a = "WARNING: Geomagnetic K-index of 4 expected" /\
    impacts a = "Weak power grid fluctuations can occur." /\
    claimed_impacts_of ex_message =
      "Area of impact primarily poleward of 65 degrees." /\
    impacts a <> claimed_impacts_of ex_message.
Proof.
  eexists. split; [reflexivity|]. split; [reflexivity|].
  split; [reflexivity|]. split; [reflexivity|]. discriminate.
Qed.

Lemma parse_alerts_witness :
  is_alerts ex_alerts = true /\
  exists alerts, parse_alerts ex_alerts = Ok alerts /\
    alerts = alert_summary <$> take 5 (elements_of ex_alerts) /\
    length alerts <= 5 /\
    Forall (fun a => exists item, item ∈ take 5 (elements_of ex_alerts) /\
       headline a = headline_of (message_of item) /\
       impacts a = impacts_of (message_of item)) alerts.
Proof. split; [reflexivity | exact (parse_alerts_summaries ex_alerts eq_refl)]. Defined.

(** A bulletin without keyword line: the fallback takes the first line that
    is no header line. *)
Example fallback_example :
  headline_of ("Space Weather Message Code: X" +:+ LF +:+ "  " +:+ LF +:+
               "NOAA note" +:+ LF +:+ "  Solar activity was low.  " +:+ LF +:+
               "Later line")
  = "Solar activity was low.".
Proof. reflexivity. Qed.

(** A response that is present and empty. *)
Lemma parse_scales_empty_counterexample :
  JDict [] <> JNull /\
  dict_lookup (current_scales (JDict [])) "G" = None /\
  exists r, parse_scales (JDict []) = Ok r /\
    dict_lookup r "G" = Some {| scale := JStr "G0"; label := JStr "Quiet" |} /\
    dict_lookup r "G" <> Some {| scale := JStr "G0"; label := JStr "None" |}.
Proof.
  split; [discriminate|]. split; [reflexivity|].
  eexists. split; [reflexivity|]. split; [reflexivity|]. discriminate.
Qed.

Lemma parse_scales_witness :
  is_scales ex_scales = true /\
  exists r, parse_scales ex_scales = Ok r /\
    dict_keys r = scale_keys /\
    (truthy ex_scales = false -> r = scales_init) /\
    (truthy ex_scales = true ->
     forall key, key ∈ scale_keys ->
       dict_lookup r key = Some (scale_entry_of (current_scales ex_scales) key) /\
       (dict_lookup (current_scales ex_scales) key = None ->
        dict_lookup r key =
          Some {| scale := JStr (key +:+ "0"); label := JStr "None" |})).
Proof. split; [reflexivity | exact (parse_scales_keys ex_scales eq_refl)]. Defined.

Example parse_scales_example :
  parse_scales ex_scales =
    Ok [ ("G", {| scale := JStr "2"; label := JStr "moderate" |});
         ("S", {| scale := JNull; label := JStr "None" |});
         ("R", {| scale := JStr "R0"; label := JStr "None" |}) ].
Proof. reflexivity. Qed.

Example iso_now :
  Iso.fromisoformat "2026-02-19T02:05:00+00:00" = Some (Aware ex_now).
Proof. reflexivity. Qed.

Example stale_121 :
  cache_is_stale Iso.fromisoformat ex_now
    (JDict [("fetched_at", JStr "2026-02-19T00:04:00.000000+00:00")])
    default_max_age = Ok true.
Proof. reflexivity. Qed.

Example fresh_119 :
  cache_is_stale Iso.fromisoformat ex_now
    (JDict [("fetched_at", JStr "2026-02-19T00:06:00.000000+00:00")])
    default_max_age = Ok false.
Proof. reflexivity. Qed.

Example stale_missing :
  cache_is_stale Iso.fromisoformat ex_now (JDict [("kp", JNull)])
    default_max_age = Ok true.
Proof. reflexivity. Qed.

Example stale_unparseable :
  cache_is_stale Iso.fromisoformat ex_now
    (JDict [("fetched_at", JStr "yesterday")]) default_max_age = Ok true.
Proof. reflexivity. Qed.

Example naive_raises :
  cache_is_stale Iso.fromisoformat ex_now
    (JDict [("fetched_at", JStr "2026-02-19T00:04:00")]) default_max_age
  = Raise TypeError.
Proof. reflexivity. Qed.

(** C3, at the failing input: a payload whose fetched_at is null, as in
    the fallback dict of the route.  [fromisoformat(None)] raises TypeError,
    which [except (KeyError, ValueError)] does not name, so the call raises
    instead of returning True; the sibling cases, a missing key and a
    string that does not parse, are caught and give True. *)
Lemma cache_is_stale_null_raises :
  item (JDict [("fetched_at", JNull)]) "fetched_at" = Ok JNull /\
  py_fromisoformat Iso.fromisoformat JNull = Raise TypeError /\
  stale_handler TypeError = false /\
  cache_is_stale Iso.fromisoformat ex_now (JDict [("fetched_at", JNull)])
    default_max_age = Raise TypeError /\
  cache_is_stale Iso.fromisoformat ex_now (JDict [("fetched_at", JNull)])
    default_max_age <> Ok true /\
  cache_is_stale Iso.fromisoformat ex_now (JDict []) default_max_age
    = Ok true /\
  cache_is_stale Iso.fromisoformat ex_now
    (JDict [("fetched_at", JStr "yesterday")]) default_max_age = Ok true.
Proof.
  split; [reflexivity|]. split; [reflexivity|]. split; [reflexivity|].
  split; [reflexivity|]. split; [discriminate|]. split; reflexivity.
Qed.

(** Aurora. *)
Example aurora_7 :
  aurora_visibility (Some 7000000%Z) =
    {| au_label := "Mid-latitudes (< 50" +:+ deg +:+ ")"; au_latitude := Some 7%Z |}.
Proof. reflexivity. Qed.

Example aurora_between :
  aurora_visibility (Some 4670000%Z) =
    {| au_label := "High latitudes (< 65" +:+ deg +:+ ")"; au_latitude := Some 4%Z |}.
Proof. reflexivity. Qed.

Example aurora_negative :
  aurora_visibility (Some (-1000000)%Z) = not_visible.
Proof. reflexivity. Qed.



Example fetch_all_example :
  exists p, fetch_all ex_http "2026-02-19T02:05:00+00:00" = Ok p /\
    response ex_http "plasma" = ex_plasma /\
    response ex_http "mag" = JNull /\
    sw_speed (p_solar_wind p) = Some 450000000%Z /\
    sw_bz (p_solar_wind p) = None /\
    kp_current (p_kp p) = Some 4000000%Z /\
    p_scales p = scales_init /\
    p_alerts p = [] /\
    au_latitude (p_aurora p) = Some 4%Z.
Proof. eexists. split; [reflexivity|]. repeat split. Qed.

(** C1, at the failing input: a header and 61 valid rows.  The stride is
    [max(1, 61 // 60) = 1], nothing is dropped, and the timeseries has 61
    points, more than the 60 of the comment "Thin to max 60 pts". *)
Lemma timeseries_61_points :
  is_table ex_plasma_61 = true /\
  length (omap ts_point_of (data_rows ex_plasma_61)) = 61 /\
  exists r, parse_solar_wind ex_plasma_61 JNull = Ok r /\
    length (sw_timeseries r) = 61 /\
    ~ length (sw_timeseries r) <= 60.
Proof.
  split; [reflexivity|]. split; [reflexivity|].
  eexists. split; [reflexivity|]. split; [reflexivity|].
  change (~ 61 <= 60). lia.
Qed.

(** ** Rows that the handler of the row loops does not cover *)

(** An integer beyond the range of binary64: [float] raises OverflowError
    on it. *)
Definition ex_huge : Z := (10 ^ 400)%Z.

Example float_of_huge : float_of_Z ex_huge = None.
Proof. reflexivity. Qed.

(** A row that is a JSON object. *)
Definition ex_object_row : @json Fixed.model :=
  JDict [("time_tag", JStr "2026-02-19 00:01:00")].

(** A valid plasma row followed by one malformed row. *)
Definition ex_plasma_then (row : @json Fixed.model) : @json Fixed.model :=
  JList [ ex_plasma_header;
          ex_plasma_row "2026-02-19 00:00:00" "4.10" "398.2";
          row ].

(** C4, at the failing inputs: a table whose most recent valid row is
    followed by one malformed row.  When that row is an array of nulls it is
    skipped and the valid row is returned, as the claim says.  When it is a
    JSON object, [row[1]] raises KeyError; when its density is an integer
    beyond the float range, [float] raises OverflowError.  The handler
    names TypeError, ValueError and IndexError only, so the call raises
    instead of skipping the row. *)
Lemma latest_reading_trailing_row_raises :
  plasma_valid (ex_plasma_row "2026-02-19 00:00:00" "4.10" "398.2") = true /\
  (exists r,
     parse_solar_wind
       (ex_plasma_then (JList [JStr "2026-02-19 00:01:00"; JNull; JNull; JNull]))
       JNull = Ok r /\
     sw_density r = Some 4100000%Z /\ sw_speed r = Some 398000000%Z /\
     sw_timestamp r = JStr "2026-02-19 00:00:00") /\
  plasma_valid ex_object_row = false /\
  parse_solar_wind (ex_plasma_then ex_object_row) JNull = Raise KeyError /\
  plasma_valid (JList [JStr "2026-02-19 00:01:00"; JInt ex_huge;
                       JStr "450.3"; JStr "100000"]) = false /\
  parse_solar_wind
    (ex_plasma_then (JList [JStr "2026-02-19 00:01:00"; JInt ex_huge;
                            JStr "450.3"; JStr "100000"]))
    JNull = Raise OverflowError /\
  row_handler KeyError = false /\ row_handler OverflowError = false.
Proof.
  split; [reflexivity|].
  split; [eexists; repeat split; reflexivity|].
  repeat split; reflexivity.
Qed.

(** A readable Kp row followed by one row that does not convert. *)
Definition ex_kp_then (row : @json Fixed.model) : @json Fixed.model :=
  JList [ JList [JStr "time_tag"; JStr "Kp"];
          JList [JStr "2026-02-19 00:00:00"; JStr "3.33"];
          row ].

(** C6, at the failing inputs: a Kp table with one readable row and one
    row that does not convert.  A row whose Kp is null is dropped and the
    rest is kept, as the claim says.  A row whose Kp is an integer beyond
    the float range raises OverflowError, and a row that is a JSON object
    raises KeyError: the handler names neither, so the row is not dropped
    and the readable row is lost with it. *)
Lemma parse_kp_unconvertible_row_raises :
  parse_kp (ex_kp_then (JList [JStr "2026-02-19 03:00:00"; JNull])) =
    Ok {| kp_current := Some 3330000%Z;
          kp_history :=
            [ {| kp_time := JStr "2026-02-19 00:00:00";
                 kp_value := 3330000%Z |} ] |} /\
  returns (float_at (JList [JStr "2026-02-19 03:00:00"; JInt ex_huge]) 1)
    = false /\
  parse_kp (ex_kp_then (JList [JStr "2026-02-19 03:00:00"; JInt ex_huge]))
    = Raise OverflowError /\
  returns (float_at ex_object_row 1) = false /\
  parse_kp (ex_kp_then ex_object_row) = Raise KeyError /\
  row_handler KeyError = false /\ row_handler OverflowError = false.
Proof. repeat split; reflexivity. Qed.

(** A plasma table with one data row: its density converts, its speed is
    an integer beyond the float range. *)
Definition ex_plasma_huge_speed : @json Fixed.model :=
  JList [ ex_plasma_header;
          JList [JStr "2026-02-19 00:00:00"; JStr "5.0"; JInt ex_huge;
                 JStr "100000"] ].

(** The same for bz and bt. *)
Definition ex_mag_huge_bt : @json Fixed.model :=
  JList [ JList [JStr "time_tag"; JStr "bx"; JStr "by"; JStr "bz"; JStr "bt"];
          JList [JStr "2026-02-19 00:00:00"; JStr "1.0"; JStr "2.0";
                 JStr "-3.21"; JInt ex_huge] ].

(** C10, at the failing inputs: the conditions of the claim hold (no data
    row has both density and speed convertible, one row has a convertible
    density; the same for bz and bt), but the field that does not convert
    is an integer beyond the float range.  [float] raises OverflowError,
    which the handler does not name: the call raises and there is no result
    with a density and without a speed. *)
Lemma partial_update_overflow_raises :
  forallb (fun row => negb (plasma_valid row)) (data_rows ex_plasma_huge_speed)
    = true /\
  existsb (fun row => returns (float_at row 1)) (data_rows ex_plasma_huge_speed)
    = true /\
  parse_solar_wind ex_plasma_huge_speed JNull = Raise OverflowError /\
  forallb (fun row => negb (mag_valid row)) (data_rows ex_mag_huge_bt) = true /\
  existsb (fun row => returns (float_at row 3)) (data_rows ex_mag_huge_bt)
    = true /\
  parse_solar_wind JNull ex_mag_huge_bt = Raise OverflowError /\
  row_handler OverflowError = false.
Proof. repeat split; reflexivity. Qed.

(** ** The cache round trip *)

Definition ex_cache_file : string := "static/data/space_weather_cache.json".

Definition ex_document : @json Fixed.model :=
  JDict [ ("fetched_at", JStr "2026-02-19T02:05:00+00:00");
          ("solar_wind", JDict [ ("density", JFloat 5260000%Z);
                                 ("speed", JFloat 450300000%Z);
                                 ("bz", JFloat (-3210000)%Z);
                                 ("bt", JNull);
                                 ("timeseries", JList []) ]);
          ("kp", JDict [ ("current", JFloat 3330000%Z);
                         ("readings", JList [JInt 3; JInt (-1)]) ]);
          ("alerts", JList [ JDict [ ("headline", JStr ex_message);
                                     ("ok", JBool true) ] ]) ].

Example ex_document_text :
  json_dumps (JList [JInt 3; JFloat 450300000%Z; JNull; JList []; JBool true]) =
  "[" +:+ LF +:+ "  3," +:+ LF +:+ "  450.300000," +:+ LF +:+ "  null,"
  +:+ LF +:+ "  []," +:+ LF +:+ "  true" +:+ LF +:+ "]".
Proof. reflexivity. Qed.

Example json_loads_compact :
  json_loads "[1,-2.5, null , [ ], {}, true,false]" =
  Some (JList [JInt 1; JFloat (-2500000)%Z; JNull; JList []; JDict [];
               JBool true; JBool false]).
Proof. reflexivity. Qed.

Example json_loads_rejects_trailing : json_loads "[1, 2" = None.
Proof. reflexivity. Qed.

Example json_loads_rejects_word : json_loads "[nul]" = None.
Proof. reflexivity. Qed.

Lemma cache_round_trip_witness :
  storable ex_document = true /\
  load_cache ex_cache_file (write_cache ex_cache_file ex_document []) =
    ex_document.
Proof.
  split; [reflexivity|].
  exact (cache_round_trip ex_cache_file ex_document [] eq_refl).
Defined.

Example cache_reload_computed :
  load_cache ex_cache_file
    (write_cache ex_cache_file ex_document [("other.txt", "kept")]) =
  ex_document.
Proof. reflexivity. Qed.

Example load_cache_malformed :
  load_cache ex_cache_file [(ex_cache_file, "{ not json")] = JNull.
Proof. reflexivity. Qed.

(** ** The trend chart, the magnetic-field rows, object rows *)

Definition ex_plasma_125 : @json Fixed.model :=
  JList (ex_plasma_header ::
         replicate 125 (ex_plasma_row "2026-02-19 00:00:00" "5.0" "400.0")).

Lemma timeseries_bounds_witness :
  is_table ex_plasma_125 = true /\ is_table JNull = true /\
  exists r, parse_solar_wind ex_plasma_125 JNull = Ok r /\
    let points := omap ts_point_of (data_rows ex_plasma_125) in
    sw_timeseries r `sublist_of` points /\
    head (sw_timeseries r) = head points /\
    length (sw_timeseries r) < 120 /\
    (length points <= 60 -> sw_timeseries r = points) /\
    (60 < length points -> 60 <= length (sw_timeseries r)).
Proof.
  split; [reflexivity|]. split; [reflexivity|].
  exact (timeseries_bounds ex_plasma_125 JNull eq_refl eq_refl).
Defined.

(** 125 valid rows: the stride is 125 // 60 = 2 and 63 points are kept. *)
Example timeseries_125_points :
  length (omap ts_point_of (data_rows ex_plasma_125)) = 125 /\
  exists r, parse_solar_wind ex_plasma_125 JNull = Ok r /\
    length (sw_timeseries r) = 63.
Proof. split; [reflexivity|]. eexists. split; reflexivity. Qed.

Definition ex_mag_row : @json Fixed.model :=
  JList [JStr "2026-02-19 00:01:00"; JStr "1.0"; JStr "2.0"; JStr "-3.21";
         JStr "5.5"].

Definition ex_mag_newer : list (@json Fixed.model) :=
  [JList [JStr "2026-02-19 00:02:00"; JNull; JNull; JNull; JNull]].

Lemma mag_older_rows_unread_witness :
  mag_valid ex_mag_row = true /\
  parse_solar_wind ex_plasma
    (JList (JNull :: [JDict []; JInt 3] ++ ex_mag_row :: ex_mag_newer)) =
  parse_solar_wind ex_plasma
    (JList (JStr "header" :: [] ++ ex_mag_row :: ex_mag_newer)).
Proof.
  split; [reflexivity|].
  exact (mag_older_rows_unread ex_plasma JNull (JStr "header") ex_mag_row
           [JDict []; JInt 3] [] ex_mag_newer eq_refl).
Defined.

Example mag_older_rows_example :
  exists r,
    parse_solar_wind JNull
      (JList [JNull; JDict []; JInt 3; ex_mag_row;
              JList [JStr "2026-02-19 00:02:00"; JNull; JNull; JNull; JNull]])
      = Ok r /\
    sw_bz r = Some (-3200000)%Z /\ sw_bt r = Some 5500000%Z.
Proof. eexists. split; [reflexivity|]. split; reflexivity. Qed.

Lemma object_row_raises_witness :
  forallb is_row [ex_plasma_row "2026-02-19 00:00:00" "4.10" "398.2"] = true /\
  forallb is_row [ex_plasma_row "2026-02-19 00:02:00" "5.26" "450.3"] = true /\
  parse_kp
    (JList (ex_plasma_header ::
            [ex_plasma_row "2026-02-19 00:00:00" "4.10" "398.2"] ++
            JDict [("time_tag", JStr "2026-02-19 00:01:00")] ::
            [ex_plasma_row "2026-02-19 00:02:00" "5.26" "450.3"]))
    = Raise KeyError /\
  parse_solar_wind
    (JList (ex_plasma_header ::
            [ex_plasma_row "2026-02-19 00:00:00" "4.10" "398.2"] ++
            JDict [("time_tag", JStr "2026-02-19 00:01:00")] ::
            [ex_plasma_row "2026-02-19 00:02:00" "5.26" "450.3"])) JNull
    = Raise KeyError.
Proof.
  split; [reflexivity|]. split; [reflexivity|].
  exact (object_row_raises ex_plasma_header JNull
           [ex_plasma_row "2026-02-19 00:00:00" "4.10" "398.2"]
           [ex_plasma_row "2026-02-19 00:02:00" "5.26" "450.3"]
           [("time_tag", JStr "2026-02-19 00:01:00")] eq_refl eq_refl).
Defined.

(** ** Alerts and scales that are not of the documented shape *)

Example parse_alerts_null_message :
  parse_alerts (JList [JDict [("product_id", JStr "K04W"); ("message", JNull)]])
    = Raise AttributeError.
Proof. reflexivity. Qed.

Example parse_alerts_sixth_ignored :
  parse_alerts (JList (replicate 5 (JDict []) ++ [JNull])) =
    Ok (replicate 5 {| product_id := JStr ""; issue_time := JStr "";
                       headline := ""; impacts := "" |}).
Proof. reflexivity. Qed.

Example parse_scales_null_entry :
  parse_scales (JDict [("0", JDict [("G", JNull)])]) = Raise AttributeError.
Proof. reflexivity. Qed.

(** ** Whole Kp values, staleness *)

Lemma aurora_integer_kp_witness :
  (Z.abs 12 <= 2 ^ 53)%Z /\ float_of_Z 12 = Some 12000000%Z /\
  au_latitude (aurora_visibility (Some 12000000%Z)) =
    (if (12 <? 0)%Z then None else Some (Z.min 12 9)) /\
  ((0 <= 12)%Z ->
   (Z.min 12 9, au_label (aurora_visibility (Some 12000000%Z))) ∈ aurora_table) /\
  ((12 < 0)%Z -> au_label (aurora_visibility (Some 12000000%Z)) = "Not visible").
Proof.
  split; [lia|]. split; [reflexivity|].
  exact (aurora_integer_kp 12 12000000%Z ltac:(lia) eq_refl).
Defined.

Definition ex_stamped : @json Fixed.model :=
  JDict [("fetched_at", JStr "2026-02-19T00:04:00.000000+00:00")].

Lemma cache_is_stale_monotone_witness :
  (ex_now <= ex_now + 1)%Z /\ (60 <= default_max_age)%Z /\
  cache_is_stale Iso.fromisoformat ex_now ex_stamped default_max_age = Ok true /\
  cache_is_stale Iso.fromisoformat (ex_now + 1) ex_stamped 60 = Ok true.
Proof.
  split; [lia|]. split; [unfold default_max_age; lia|]. split; [reflexivity|].
  exact (cache_is_stale_monotone Iso.fromisoformat ex_now (ex_now + 1)
           ex_stamped default_max_age 60
           ltac:(lia) ltac:(unfold default_max_age; lia) eq_refl).
Defined.

Example cache_is_stale_list :
  cache_is_stale Iso.fromisoformat ex_now (JList []) default_max_age
    = Raise TypeError.
Proof. reflexivity. Qed.

(** ** The routes *)

(** The text of an exception, for the examples. *)
Definition ex_str_of_exn (e : exn) : string :=
  match e with
  | TypeError => "TypeError"
  | ValueError => "ValueError"
  | IndexError => "IndexError"
  | KeyError => "KeyError"
  | AttributeError => "AttributeError"
  | OverflowError => "OverflowError"
  end.

(** A stand-in for the em dash of the fallback dict. *)
Definition ex_em_dash : string := "-".

(** A network that is down. *)
Definition ex_offline (url : string) : option (@json Fixed.model) := None.

(** A cache file whose fetched_at is null. *)
Definition ex_poisoned : files :=
  write_cache ex_cache_file (JDict [("fetched_at", JNull)]) [].

Lemma space_poisoned_cache_witness :
  load_cache ex_cache_file ex_poisoned <> JNull /\
  stamp_usable Iso.fromisoformat (load_cache ex_cache_file ex_poisoned) = false /\
  space Iso.fromisoformat ex_em_dash ex_cache_file ex_http ex_now
    "2026-02-19T02:05:00+00:00" ex_poisoned = (ex_poisoned, Raise TypeError).
Proof.
  assert (Hsome : load_cache ex_cache_file ex_poisoned <> JNull).
  { change (JDict [("fetched_at", JNull)] <> @JNull Fixed.model). discriminate. }
  split; [exact Hsome|]. split; [reflexivity|].
  exact (space_poisoned_cache Iso.fromisoformat ex_em_dash ex_cache_file
           ex_http ex_now "2026-02-19T02:05:00+00:00" ex_poisoned
           Hsome eq_refl).
Defined.

Example space_refresh_example :
  exists fs, space_refresh ex_str_of_exn ex_cache_file ex_http
               "2026-02-19T02:05:00+00:00" ex_poisoned =
    (fs, (JDict [ ("ok", JBool true);
                  ("fetched_at", JStr "2026-02-19T02:05:00+00:00");
                  ("solar_wind_speed", JFloat 450000000%Z);
                  ("bz", JNull);
                  ("kp", JFloat 4000000%Z);
                  ("g_scale", JStr "G0") ], 200%Z)).
Proof. eexists. reflexivity. Qed.

Example space_refresh_offline :
  space_refresh ex_str_of_exn ex_cache_file ex_offline
    "2026-02-19T02:05:00+00:00" [] =
  (write_cache ex_cache_file
     (payload_json
        {| fetched_at := "2026-02-19T02:05:00+00:00";
           p_solar_wind := solar_wind_init; p_kp := kp_init;
           p_scales := scales_init;
           p_aurora := {| au_label := "Unknown"; au_latitude := None |};
           p_alerts := [] |}) [],
   (JDict [ ("ok", JBool true);
            ("fetched_at", JStr "2026-02-19T02:05:00+00:00");
            ("solar_wind_speed", JNull); ("bz", JNull); ("kp", JNull);
            ("g_scale", JStr "G0") ], 200%Z)).
Proof. reflexivity. Qed.

Lemma cached_payload_served_witness :
  exists p, fetch_all ex_http "2026-02-19T02:05:00+00:00" = Ok p /\
    storable (payload_json p) = true /\
    Iso.fromisoformat "2026-02-19T02:05:00+00:00" = Some (Aware ex_now) /\
    (ex_now + 7140000000 - ex_now <= minutes default_max_age)%Z /\
    let fs' := (main ex_cache_file ex_http "2026-02-19T02:05:00+00:00" []).1 in
    fs' = (space_refresh ex_str_of_exn ex_cache_file ex_http
             "2026-02-19T02:05:00+00:00" []).1 /\
    space Iso.fromisoformat ex_em_dash ex_cache_file ex_offline
      (ex_now + 7140000000) "2026-02-19T04:04:00+00:00" fs'
      = (fs', Ok (payload_json p)).
Proof.
  assert (Hage : (ex_now + 7140000000 - ex_now <= minutes default_max_age)%Z)
    by (unfold minutes, default_max_age; lia).
  eexists. split; [reflexivity|]. split; [reflexivity|].
  split; [reflexivity|]. split; [exact Hage|].
  exact (cached_payload_served Iso.fromisoformat ex_str_of_exn ex_em_dash
           ex_cache_file ex_http ex_offline
           "2026-02-19T02:05:00+00:00" "2026-02-19T04:04:00+00:00"
           (ex_now + 7140000000) ex_now _ [] eq_refl eq_refl eq_refl Hage).
Defined.

(** The alerts endpoint answers one record whose message is null; the
    other endpoints are down. *)
Definition ex_http_null_message (url : string) : option (@json Fixed.model) :=
  if String.eqb url "https://services.swpc.noaa.gov/products/alerts.json"
  then Some (JList [JDict [("product_id", JStr "K04W"); ("message", JNull)]])
  else None.

Lemma malformed_alert_witness :
  ex_http_null_message (endpoint "alerts") =
    Some (JList [JDict [("product_id", JStr "K04W"); ("message", JNull)]]) /\
  is_alerts (JList [JDict [("product_id", JStr "K04W"); ("message", JNull)]])
    = false /\
  load_cache ex_cache_file [] = @JNull Fixed.model /\
  (exists e, fetch_all ex_http_null_message "2026-02-19T02:05:00+00:00"
             = Raise e) /\
  space Iso.fromisoformat ex_em_dash ex_cache_file ex_http_null_message
    ex_now "2026-02-19T02:05:00+00:00" [] = ([], Ok (fallback ex_em_dash)).
Proof.
  split; [reflexivity|]. split; [reflexivity|]. split; [reflexivity|].
  exact (malformed_alert_blanks_dashboard Iso.fromisoformat ex_em_dash
           ex_cache_file ex_http_null_message
           [JDict [("product_id", JStr "K04W"); ("message", JNull)]]
           ex_now "2026-02-19T02:05:00+00:00" [] eq_refl eq_refl eq_refl).
Defined.

(** ** The text of the cache file *)

Example write_cache_escapes :
  json_dumps (JStr ("caf" +:+ String (ascii_of_nat 233) EmptyString +:+ LF))
  = String quote ("caf" +:+ String backslash "u00e9" +:+ String backslash "n"
                  +:+ String quote EmptyString).
Proof. reflexivity. Qed.

Example load_cache_repeated_key :
  json_loads ("{" +:+ encode_str "a" +:+ ": 1, " +:+ encode_str "b" +:+ ": 2, "
              +:+ encode_str "a" +:+ ": 3}")
  = Some (JDict [("a", JInt 3); ("b", JInt 2)]).
Proof. reflexivity. Qed.
